(** * InvoiceForm: the transaction entry form

    A shallow embedding of [src/components/InvoiceForm.tsx]: the totals
    computation, the back-derivation of the rate from an edited taxable
    total, the submit-time validation, and the extraction handler with its
    fallback to the text parser.

    The component is written in TypeScript.  Its draft holds every numeric
    field as a string, converts with [parseFloat] and computes on ECMAScript
    Numbers, which are IEEE 754 binary64 values.  The embedding keeps both:
    strings are [string] (a sequence of code units below 256), Numbers are
    [spec_float] with the operations [SFmul], [SFdiv], [SFadd] at precision 53
    and maximal exponent 1024. *)

From Stdlib Require Import ZArith Zpower QArith Qpower Qabs Bool List String Ascii.
From Stdlib Require Import Lia Lqa.
From Stdlib Require Import SpecFloat.
Import ListNotations.

Open Scope string_scope.
Open Scope Z_scope.

(** ** The host language: ECMAScript Numbers and strings *)

Module JS.

(** A Number is a binary64 value. *)
Definition number : Type := spec_float.

Definition prec : Z := 53.
Definition emax : Z := 1024.

Definition NaN : number := S754_nan.
Definition Infinity : number := S754_infinity false.
Definition zero : number := S754_zero false.

(** [x * y], [x / y] and [x + y] on Numbers. *)
Definition mul (x y : number) : number := SFmul prec emax x y.
Definition div (x y : number) : number := SFdiv prec emax x y.
Definition add (x y : number) : number := SFadd prec emax x y.

(** The Number of an integer literal such as [100]. *)
Definition of_Z (z : Z) : number := binary_normalize prec emax z 0 false.

(** [isNaN(x)]. *)
Definition isNaN (x : number) : bool :=
  match x with S754_nan => true | _ => false end.

(** [x > y]: false as soon as one side is NaN. *)
Definition gt (x y : number) : bool := SFltb y x.

(** [x == y] on Numbers: NaN equals nothing, the two zeros are equal. *)
Definition num_eq (x y : number) : bool := SFeqb x y.

(** Truthiness of a Number: NaN, +0 and -0 are falsy. *)
Definition truthy_number (x : number) : bool :=
  match x with
  | S754_nan | S754_zero _ => false
  | _ => true
  end.

(** [x || d] for a Number [x]. *)
Definition or_number (x d : number) : number :=
  if truthy_number x then x else d.

(** Truthiness of a string: only the empty string is falsy. *)
Definition truthy_string (s : string) : bool :=
  match s with EmptyString => false | String _ _ => true end.

(** [s || d] for a string [s]. *)
Definition or_string (s d : string) : string :=
  if truthy_string s then s else d.

(** [s <= t] on strings compares code units lexicographically. *)
Definition str_le (s t : string) : bool := String.leb s t.

(** White space in the Latin-1 range: TAB, LF, VT, FF, CR, SP and NBSP. *)
Definition is_white_space (c : ascii) : bool :=
  let n := N_of_ascii c in
  ((9 <=? n) && (n <=? 13) || (n =? 32) || (n =? 160))%N.

Fixpoint trim_start (s : string) : string :=
  match s with
  | String c r => if is_white_space c then trim_start r else s
  | EmptyString => s
  end.

(** [true] when the string holds white space only: [s.trim()] is then the
    empty string, so [!s.trim()] holds. *)
Definition blank (s : string) : bool :=
  match trim_start s with EmptyString => true | String _ _ => false end.

(** *** parseFloat *)

Definition digit_of (c : ascii) : option Z :=
  let n := Z.of_N (N_of_ascii c) in
  if (48 <=? n) && (n <=? 57) then Some (n - 48) else None.

(** Reads the longest run of decimal digits at the head of [s], pushing them
    onto the value [acc]; returns the value, the number of digits read and the
    rest of the string. *)
Fixpoint read_digits (s : string) (acc cnt : Z) : Z * Z * string :=
  match s with
  | String c r =>
      match digit_of c with
      | Some d => read_digits r (10 * acc + d) (cnt + 1)
      | None => (acc, cnt, s)
      end
  | EmptyString => (acc, cnt, s)
  end.

(** An optional sign: [true] for a minus. *)
Definition read_sign (s : string) : bool * string :=
  match s with
  | String "-" r => (true, r)
  | String "+" r => (false, r)
  | _ => (false, s)
  end.

(** The exponent part [e], [E] followed by an optional sign and at least one
    digit; when it is not complete the exponent is 0 and nothing is read. *)
Definition read_exponent (s : string) : Z :=
  match s with
  | String c r =>
      if (Ascii.eqb c "e" || Ascii.eqb c "E")%bool then
        let '(neg, r1) := read_sign r in
        let '(v, cnt, _) := read_digits r1 0 0 in
        if cnt =? 0 then 0 else if neg then - v else v
      else 0
  | EmptyString => 0
  end.

(** The Number nearest to [m * 10 ^ e10], for [m > 0]; ties go to the even
    significand.  A negative power of ten is divided out with the binary64
    division, which rounds the exact quotient once. *)
Definition of_decimal (neg : bool) (m : positive) (e10 : Z) : number :=
  if 0 <=? e10
  then binary_normalize prec emax
         ((if neg then Z.neg m else Z.pos m) * 10 ^ e10) 0 false
  else div (S754_finite neg m 0)
           (S754_finite false (Z.to_pos (10 ^ (- e10))) 0).

(** The longest prefix of [s] that is a decimal literal ([StrDecimalLiteral]),
    after the sign: digits with an optional fraction, or a fraction alone, and
    an optional exponent.  Returns the significand and the decimal exponent,
    or [None] when no prefix is a literal. *)
Definition read_decimal (s : string) : option (Z * Z) :=
  let '(ip, icnt, r1) := read_digits s 0 0 in
  match r1 with
  | String "." r2 =>
      let '(m, fcnt, r3) := read_digits r2 ip 0 in
      if (icnt =? 0) && (fcnt =? 0) then None
      else Some (m, read_exponent r3 - fcnt)
  | _ => if icnt =? 0 then None else Some (ip, read_exponent r1)
  end.

Definition parseFloat (s : string) : number :=
  let '(neg, r) := read_sign (trim_start s) in
  if String.prefix "Infinity" r then S754_infinity neg
  else
    match read_decimal r with
    | None => NaN
    | Some (Z.pos m, e10) => of_decimal neg m e10
    | Some (_, _) => S754_zero neg
    end.

(** *** Number to string *)

(** SameValue on Numbers: NaN is the same as NaN, +0 and -0 differ. *)
Definition same_value (x y : number) : bool :=
  match x, y with
  | S754_nan, S754_nan => true
  | S754_zero a, S754_zero b => Bool.eqb a b
  | S754_infinity a, S754_infinity b => Bool.eqb a b
  | S754_finite a m e, S754_finite b n f =>
      Bool.eqb a b && (Z.pos m =? Z.pos n) && (e =? f)
  | _, _ => false
  end.

Definition digit_char (d : Z) : ascii := ascii_of_N (Z.to_N (48 + d)).

Fixpoint digits_of (fuel : nat) (z : Z) (acc : string) : string :=
  match fuel with
  | O => acc
  | S f =>
      let acc' := String (digit_char (z mod 10)) acc in
      if z <? 10 then acc' else digits_of f (z / 10) acc'
  end.

(** The decimal digits of [z >= 0]. *)
Definition string_of_Z (z : Z) : string :=
  digits_of (S (Z.to_nat (Z.log2 z))) z "".

Fixpoint zeros (n : nat) : string :=
  match n with O => "" | S k => String "0" (zeros k) end.

(** The exact value [num / den] of a finite positive Number [m * 2 ^ e]. *)
Definition ratio_of (m : positive) (e : Z) : Z * Z :=
  if 0 <=? e then (Z.pos m * 2 ^ e, 1) else (Z.pos m, 2 ^ (- e)).

Fixpoint leading_zeros (fuel : nat) (num den j : Z) : Z :=
  match fuel with
  | O => j
  | S f => if den <=? num then j else leading_zeros f (10 * num) den (j + 1)
  end.

(** The decimal exponent [n] of [x = num / den > 0]:
    [10 ^ (n - 1) <= x < 10 ^ n]. *)
Definition decimal_exponent (num den : Z) : Z :=
  if den <=? num
  then Z.of_nat (String.length (string_of_Z (num / den)))
  else 1 - leading_zeros (S (Z.to_nat (Z.log2 den))) num den 0.

(** [x / 10 ^ (n - k)] as a fraction. *)
Definition scaled (num den n k : Z) : Z * Z :=
  if 0 <=? n - k then (num, den * 10 ^ (n - k)) else (num * 10 ^ (k - n), den).

(** The digits of [s] laid out for the exponent [n]: plain decimal notation
    for [-6 < n <= 21], exponential notation otherwise. *)
Definition layout (s n k : Z) : string :=
  let ds := string_of_Z s in
  if (k <=? n) && (n <=? 21) then ds ++ zeros (Z.to_nat (n - k))
  else if (0 <? n) && (n <=? 21) then
    substring 0 (Z.to_nat n) ds ++ "." ++
    substring (Z.to_nat n) (Z.to_nat (k - n)) ds
  else if (-6 <? n) && (n <=? 0) then
    "0." ++ zeros (Z.to_nat (- n)) ++ ds
  else
    let e := n - 1 in
    let tail := "e" ++ (if e <? 0 then "-" else "+") ++ string_of_Z (Z.abs e) in
    if k =? 1 then ds ++ tail
    else substring 0 1 ds ++ "." ++ substring 1 (Z.to_nat (k - 1)) ds ++ tail.

Definition sign_text (neg : bool) : string := if neg then "-" else "".

(** The text of a [k]-digit significand next to [x = num / den], at the
    decimal exponent [n], that reads back as [v]: the nearest to [x] when both
    neighbours do, the even one on a tie; [None] when [k] digits are not
    enough. *)
Definition candidate (v : number) (neg : bool) (num den n k : Z)
    : option string :=
  let '(a, b) := scaled num den n k in
  let lo := a / b in
  let r := a mod b in
  let hi := lo + 1 in
  let t_lo := sign_text neg ++ layout lo n k in
  let t_hi :=
    sign_text neg ++
    (if hi =? 10 ^ k then layout (10 ^ (k - 1)) (n + 1) k else layout hi n k) in
  let ok_lo := same_value (parseFloat t_lo) v in
  let ok_hi := negb (r =? 0) && same_value (parseFloat t_hi) v in
  match ok_lo, ok_hi with
  | true, true =>
      match 2 * r ?= b with
      | Lt => Some t_lo
      | Gt => Some t_hi
      | Eq => if Z.even lo then Some t_lo else Some t_hi
      end
  | true, false => Some t_lo
  | false, true => Some t_hi
  | false, false => None
  end.

(** The text for the least [k], from [k] on, for which [k] digits are
    enough. *)
Fixpoint shortest (fuel : nat) (v : number) (neg : bool) (num den n k : Z)
    : option string :=
  match candidate v neg num den n k, fuel with
  | Some t, _ => Some t
  | None, S f => shortest f v neg num den n (k + 1)
  | None, O => None
  end.

(** The exact decimal expansion of [m * 2 ^ e]: an integer, or an integer and
    a negative power of ten. *)
Definition exact_text (neg : bool) (m : positive) (e : Z) : string :=
  sign_text neg ++
  (if 0 <=? e then string_of_Z (Z.pos m * 2 ^ e)
   else string_of_Z (Z.pos m * 5 ^ (- e)) ++ "e-" ++ string_of_Z (- e)).

(** The search goes up to seventeen digits, which are always enough; the exact
    expansion stands behind it. *)
Definition toString_finite (neg : bool) (m : positive) (e : Z) : string :=
  let '(num, den) := ratio_of m e in
  let n := decimal_exponent num den in
  match shortest 16 (S754_finite neg m e) neg num den n 1 with
  | Some t => t
  | None => exact_text neg m e
  end.

(** [x.toString()]: the shortest decimal that reads back as [x]. *)
Definition toString (x : number) : string :=
  match x with
  | S754_nan => "NaN"
  | S754_zero _ => "0"
  | S754_infinity s => if s then "-Infinity" else "Infinity"
  | S754_finite s m e => toString_finite s m e
  end.

(** [x.toFixed(f)]: [x] rounded to [f] decimals, halves upwards in magnitude;
    a Number of magnitude [10 ^ 21] or more is printed by [toString]. *)
Definition toFixed (f : nat) (x : number) : string :=
  match x with
  | S754_finite s m e =>
      let '(num, den) := ratio_of m e in
      if den * 10 ^ 21 <=? num then toString x
      else
        let n := (2 * num * 10 ^ Z.of_nat f + den) / (2 * den) in
        let ds := string_of_Z n in
        let ds := zeros (S f - String.length ds) ++ ds in
        let k := String.length ds in
        sign_text s ++
        match f with
        | O => ds
        | _ => substring 0 (k - f) ds ++ "." ++ substring (k - f) f ds
        end
  | S754_zero _ =>
      match f with O => "0" | _ => "0." ++ zeros f end
  | _ => toString x
  end.

(** *** split, trim *)

(** [s.split(sep)] for a separator of one code unit: the pieces between the
    separators, of which there is always one. *)
Fixpoint split (sep : ascii) (s : string) : list string :=
  match s with
  | EmptyString => [""]
  | String c r =>
      if Ascii.eqb c sep then "" :: split sep r
      else match split sep r with
           | h :: t => String c h :: t
           | [] => [String c ""]
           end
  end.

Fixpoint trim_end (s : string) : string :=
  match s with
  | EmptyString => ""
  | String c r =>
      match trim_end r with
      | EmptyString => if is_white_space c then "" else String c ""
      | t => String c t
      end
  end.

(** [s.trim()]. *)
Definition trim (s : string) : string := trim_end (trim_start s).

End JS.

(** ** The component *)

Module InvoiceForm.
Import JS.

(** [TransactionType], from [../types]: the two literals the form uses. *)
Inductive TransactionType := PURCHASE | SALE.

Inductive Mode := MANUAL | UPLOAD.

(** The draft, [formData]: every field is the text of its input. *)
Module FormData.
Record t := mk {
  date : string;
  type : TransactionType;
  partyName : string;
  quantityGrams : string;
  ratePerGram : string;
  gstRate : string
}.
End FormData.

(** [Invoice], from [../types], with the fields [handleSubmit] fills in. *)
Module Invoice.
Record t := mk {
  id : string;
  date : string;
  type : TransactionType;
  partyName : string;
  quantityGrams : number;
  ratePerGram : number;
  gstRate : number;
  gstAmount : number;
  taxableAmount : number;
  totalAmount : number
}.
End Invoice.

(** What the handlers read of a [File]. *)
Module File.
Record t := mk { name : string; type : string }.
End File.

(** The object [JSON.parse] returns, read at the types the response schema
    declares; [None] is an absent property. *)
Module Data.
Record t := mk {
  date : option string;
  type : option TransactionType;
  partyName : option string;
  quantityGrams : option number;
  ratePerGram : option number;
  gstRate : option number
}.
End Data.

(** What [handleOcrProcess] reads of the result of [parseInvoiceOCR]
    ([../utils]); an absent text is the empty string. *)
Module OcrResult.
Record t := mk {
  date : string;
  partyName : string;
  quantity : number;
  rate : number;
  gstRate : number;
  isSale : bool
}.
End OcrResult.

(** The props the handlers read; [onAdd] is an effect, below. *)
Record Props := {
  currentStock : number;
  lockDate : option string
}.

(** The state held by the [useState] hooks. *)
Record State := {
  mode : Mode;
  ocrText : string;
  selectedFile : option File.t;
  isProcessing : bool;
  formData : FormData.t;
  error : string
}.

(** Calls out of the component. *)
Inductive Effect :=
| onAdd (invoice : Invoice.t)
| parseInvoiceOCR_called (text : string).

(** The state setters. *)
Definition setMode (m : Mode) (s : State) : State :=
  {| mode := m; ocrText := ocrText s; selectedFile := selectedFile s;
     isProcessing := isProcessing s; formData := formData s;
     error := error s |}.

Definition setOcrText (v : string) (s : State) : State :=
  {| mode := mode s; ocrText := v; selectedFile := selectedFile s;
     isProcessing := isProcessing s; formData := formData s;
     error := error s |}.

Definition setSelectedFile (f : option File.t) (s : State) : State :=
  {| mode := mode s; ocrText := ocrText s; selectedFile := f;
     isProcessing := isProcessing s; formData := formData s;
     error := error s |}.

Definition setIsProcessing (b : bool) (s : State) : State :=
  {| mode := mode s; ocrText := ocrText s; selectedFile := selectedFile s;
     isProcessing := b; formData := formData s; error := error s |}.

Definition setFormData (fd : FormData.t) (s : State) : State :=
  {| mode := mode s; ocrText := ocrText s; selectedFile := selectedFile s;
     isProcessing := isProcessing s; formData := fd; error := error s |}.

Definition setError (e : string) (s : State) : State :=
  {| mode := mode s; ocrText := ocrText s; selectedFile := selectedFile s;
     isProcessing := isProcessing s; formData := formData s; error := e |}.

(** [{...prev, ratePerGram: v}]. *)
Definition with_ratePerGram (v : string) (prev : FormData.t) : FormData.t :=
  FormData.mk (FormData.date prev) (FormData.type prev)
    (FormData.partyName prev) (FormData.quantityGrams prev) v
    (FormData.gstRate prev).

(** The initial draft and the one [handleSubmit] resets to; [today] is
    [new Date().toISOString().split('T')[0]]. *)
Definition emptyForm (today : string) : FormData.t :=
  FormData.mk today PURCHASE "" "" "" "3".

Definition initialState (today : string) : State :=
  {| mode := MANUAL; ocrText := ""; selectedFile := None;
     isProcessing := false; formData := emptyForm today; error := "" |}.

(** *** getTaxableTotal, handleTotalChange *)

Definition getTaxableTotal (fd : FormData.t) : string :=
  let qty := parseFloat (FormData.quantityGrams fd) in
  let rate := parseFloat (FormData.ratePerGram fd) in
  if negb (isNaN qty) && negb (isNaN rate) then toFixed 2 (mul qty rate)
  else "".

Definition handleTotalChange (value : string) (s : State) : State :=
  let total := parseFloat value in
  let qty := parseFloat (FormData.quantityGrams (formData s)) in
  if negb (isNaN total) && negb (isNaN qty) && gt qty zero then
    setFormData (with_ratePerGram (toString (div total qty)) (formData s)) s
  else if String.eqb value "" then
    setFormData (with_ratePerGram "" (formData s)) s
  else s.

(** *** calculateTotals *)

Record Totals := { taxable : number; gstAmt : number; total : number }.

Definition calculateTotals (fd : FormData.t) : Totals :=
  let qty := or_number (parseFloat (FormData.quantityGrams fd)) zero in
  let rate := or_number (parseFloat (FormData.ratePerGram fd)) zero in
  let gst := or_number (parseFloat (FormData.gstRate fd)) zero in
  let taxable := mul qty rate in
  let gstAmt := mul taxable (div gst (of_Z 100)) in
  {| taxable := taxable; gstAmt := gstAmt; total := add taxable gstAmt |}.

(** *** handleSubmit *)

(** [lockDate && formData.date <= lockDate]: the lock date when the test
    holds.  A [null] or empty lock date locks nothing. *)
Definition locked (lock : option string) (date : string) : option string :=
  match lock with
  | Some l => if truthy_string l && str_le date l then Some l else None
  | None => None
  end.

Definition lockMessage (l : string) : string :=
  "Date Locked! Cannot add before " ++ l ++ ".".

Definition missingMessage : string := "Fill all required fields.".

Definition stockMessage (stock : number) : string :=
  "Insufficient Inventory! Avail: " ++ toFixed 3 stock ++ "g".

Definition is_SALE (t : TransactionType) : bool :=
  match t with SALE => true | PURCHASE => false end.

(** [today] is the date read by [new Date()] and [newId] the value of
    [generateId()], both at the time of the call.  [taxable], [gstAmt] and
    [total] are those of the render the handler belongs to, that is
    [calculateTotals] on the same [formData]. *)
Definition handleSubmit (p : Props) (today newId : string) (s : State)
  : State * list Effect :=
  let fd := formData s in
  let s0 := setError "" s in
  match locked (lockDate p) (FormData.date fd) with
  | Some l => (setError (lockMessage l) s0, [])
  | None =>
    if negb (truthy_string (FormData.partyName fd))
       || negb (truthy_string (FormData.quantityGrams fd))
       || negb (truthy_string (FormData.ratePerGram fd)) then
      (setError missingMessage s0, [])
    else
      let qty := parseFloat (FormData.quantityGrams fd) in
      if is_SALE (FormData.type fd) && gt qty (currentStock p) then
        (setError (stockMessage (currentStock p)) s0, [])
      else
        let t := calculateTotals fd in
        (setSelectedFile None
           (setOcrText "" (setFormData (emptyForm today) s0)),
         [onAdd (Invoice.mk newId (FormData.date fd) (FormData.type fd)
                   (FormData.partyName fd) qty
                   (parseFloat (FormData.ratePerGram fd))
                   (parseFloat (FormData.gstRate fd))
                   (gstAmt t) (taxable t) (total t))])
  end.

(** *** fileToBase64 *)

(** [fileToBase64] from the point where the reader has ended, with the data
    URL [result] or with an error: the promise resolves with
    [result.split(',')[1]], [None] for [undefined], or rejects with the
    error. *)
Definition fileToBase64 {E : Type} (read : string + E) : option string + E :=
  match read with
  | inl result => inl (nth_error (split "," result) 1)
  | inr error => inr error
  end.

(** *** handleFileChange *)

(** [files] is [e.target.files]: the chosen file, if any. *)
Definition handleFileChange (files : option File.t) (s : State) : State :=
  match files with
  | Some f => setOcrText "" (setSelectedFile (Some f) s)
  | None => s
  end.

(** *** handleOcrProcess *)

Inductive Part :=
| inlineData (mimeType data : string)
| text (t : string).

Definition toLowerCase_char (c : ascii) : ascii :=
  let n := N_of_ascii c in
  if ((65 <=? n) && (n <=? 90)
      || (192 <=? n) && (n <=? 222) && negb (n =? 215))%N
  then ascii_of_N (n + 32) else c.

Fixpoint toLowerCase (s : string) : string :=
  match s with
  | String c r => String (toLowerCase_char c) (toLowerCase r)
  | EmptyString => EmptyString
  end.

Definition endsWith (s suffix : string) : bool :=
  let n := String.length s in
  let k := String.length suffix in
  (k <=? n)%nat && String.eqb (substring (n - k) k s) suffix.

Definition documentPrompt : string :=
  "Analyze this invoice document. Extract the following details: Date, Party Name, Transaction Type (Sale/Purchase), Quantity (Grams), Rate (Price/Gram), and GST %. If there are multiple items, sum the gold quantity. If Rate is not explicit, calculate it as TaxableValue / Quantity.".

Definition textPrompt (ocr : string) : string :=
  "Extract invoice details from this text. Purchase or Sale? Party Name? Date? Total Grams? Rate? GST Rate? Text: " ++ ocr.

(** The [parts] of the request; [base64Data] is what [fileToBase64] resolved
    to, read only when a file is selected. *)
Definition requestParts (s : State) (base64Data : string) : list Part :=
  match selectedFile s with
  | Some f =>
      let mimeType :=
        if negb (truthy_string (File.type f))
           && endsWith (toLowerCase (File.name f)) ".pdf"
        then "application/pdf" else File.type f in
      [inlineData (or_string mimeType "application/pdf") base64Data;
       text documentPrompt]
  | None => [text (textPrompt (ocrText s))]
  end.

(** How the awaited calls of the [try] block end: the file read, the service
    call or [JSON.parse] throws an error whose [message] may be absent, or
    [JSON.parse] returns a value, [None] for [null]; or a call is rejected
    with [null] or [undefined] in the place of an error. *)
Inductive Outcome :=
| ReadError (message : option string)
| ServiceError (message : option string)
| SyntaxError (message : option string)
| Parsed (data : option Data.t)
| NullThrown.

(** The value [err] the [catch] block receives: [null] or [undefined], or a
    value whose [message] can be read, [None] when it has none. *)
Inductive Thrown :=
| nullish
| withMessage (message : option string).

Definition truthy_opt_string (o : option string) : bool :=
  match o with Some v => truthy_string v | None => false end.

Definition truthy_opt_number (o : option number) : bool :=
  match o with Some v => truthy_number v | None => false end.

Definition truthy_file (f : option File.t) : bool :=
  match f with Some _ => true | None => false end.

(** [data.partyName || data.quantityGrams]. *)
Definition usable (d : Data.t) : bool :=
  truthy_opt_string (Data.partyName d)
  || truthy_opt_number (Data.quantityGrams d).

(** [v?.toString() || d]: a Number never prints as the empty string. *)
Definition number_text (o : option number) (d : string) : string :=
  match o with Some v => or_string (toString v) d | None => d end.

Definition or_opt_string (o : option string) (d : string) : string :=
  match o with Some v => or_string v d | None => d end.

(** The draft built from a usable response. *)
Definition formOfData (today : string) (d : Data.t) : FormData.t :=
  FormData.mk
    (or_opt_string (Data.date d) today)
    (match Data.type d with Some t => t | None => PURCHASE end)
    (or_opt_string (Data.partyName d) "")
    (number_text (Data.quantityGrams d) "")
    (number_text (Data.ratePerGram d) "")
    (number_text (Data.gstRate d) "3").

(** The draft built from the result of the text parser, over the draft
    [formData] of the render the handler belongs to. *)
Definition formOfOcr (fd : FormData.t) (r : OcrResult.t) : FormData.t :=
  FormData.mk
    (or_string (OcrResult.date r) (FormData.date fd))
    (if OcrResult.isSale r then SALE else PURCHASE)
    (or_string (OcrResult.partyName r) (FormData.partyName fd))
    (if gt (OcrResult.quantity r) zero then toString (OcrResult.quantity r)
     else "")
    (if gt (OcrResult.rate r) zero then toString (OcrResult.rate r) else "")
    (if truthy_number (OcrResult.gstRate r) then toString (OcrResult.gstRate r)
     else FormData.gstRate fd).

Definition extractionFailedMessage : string :=
  "Auto-extraction failed. Please enter details manually.".

Definition processingFailedMessage (message : option string) : string :=
  "Processing failed: " ++ or_opt_string message "Unknown error" ++
  ". Try manual entry.".

Definition noDataMessage : string := "Could not extract valid data".

(** The [try] block from the point where the awaited calls have ended with
    [o]: the state after its setters when it returns, or the value it
    throws. *)
Definition tryBlock (today : string) (o : Outcome) (s : State)
  : State + Thrown :=
  match o with
  | ReadError m | ServiceError m | SyntaxError m => inr (withMessage m)
  | Parsed (Some d) =>
      if usable d then
        inl (setSelectedFile None (setMode MANUAL
               (setFormData (formOfData today d) s)))
      else inr (withMessage (Some noDataMessage))
  | Parsed None => inr (withMessage (Some noDataMessage))
  | NullThrown => inr nullish
  end.

(** [text.replace(/```json|```/g, '')]: the matches are taken from left to
    right, [```json] before [```]; [skip] code units of the match at hand are
    still to be dropped. *)
Fixpoint dropFences (skip : nat) (s : string) : string :=
  match s with
  | EmptyString => ""
  | String c r =>
      match skip with
      | S k => dropFences k r
      | O =>
          if String.prefix "```json" s then dropFences 6 r
          else if String.prefix "```" s then dropFences 2 r
          else String c (dropFences 0 r)
      end
  end.

(** [cleanText], the text handed to [JSON.parse]; [text] is [response.text],
    [None] when it is [undefined]. *)
Definition cleanText (text : option string) : string :=
  match text with
  | Some t => if truthy_string t then trim (dropFences 0 t) else "{}"
  | None => "{}"
  end.

Section Handler.

(** [parseInvoiceOCR], from [../utils]: [None] is a falsy result. *)
Variable parseInvoiceOCR : string -> option OcrResult.t.

(** The part of [handleOcrProcess] before the first [await]: [None] when the
    guard returns at once. *)
Definition handleOcrProcess_start (s : State) : option State :=
  if blank (ocrText s) && negb (truthy_file (selectedFile s)) then None
  else Some (setError "" (setIsProcessing true s)).

(** The [catch] block.  The handler closed over the state [c] of its render:
    [ocrText], [selectedFile] and [formData] are read there, while the setters
    act on the state [s] the component has by then.  [err.message] is read in
    the last branch only; on [null] and [undefined] the read throws a
    [TypeError] before any setter is called, and the block gives [None]. *)
Definition catchBlock (c : State) (err : Thrown) (s : State)
  : option (State * list Effect) :=
  if negb (truthy_file (selectedFile c)) && truthy_string (ocrText c) then
    match parseInvoiceOCR (ocrText c) with
    | Some r =>
        Some (setMode MANUAL (setFormData (formOfOcr (formData c) r) s),
              [parseInvoiceOCR_called (ocrText c)])
    | None =>
        Some (setError extractionFailedMessage s,
              [parseInvoiceOCR_called (ocrText c)])
    end
  else
    match err with
    | withMessage message =>
        Some (setError (processingFailedMessage message) s, [])
    | nullish => None
    end.

(** The part of [handleOcrProcess] after the awaited calls have ended with
    [o]: [try], [catch] and [finally], which runs also when the [catch] block
    throws. *)
Definition handleOcrProcess_settle (today : string) (c : State) (o : Outcome)
    (s : State) : State * list Effect :=
  match tryBlock today o s with
  | inl s1 => (setIsProcessing false s1, [])
  | inr err =>
      match catchBlock c err s with
      | Some (s1, fx) => (setIsProcessing false s1, fx)
      | None => (setIsProcessing false s, [])
      end
  end.

(** *** The rendered form as a transition system *)

(** A configuration: the state, the renders whose [handleOcrProcess] is
    waiting for its calls to end, and the calls made so far. *)
Record Config := {
  state : State;
  pending : list State;
  calls : list Effect
}.

Definition initialConfig (today : string) : Config :=
  {| state := initialState today; pending := []; calls := [] |}.

(** What the user and the environment can do to the rendered form. *)
Inductive Event :=
| clickMode (m : Mode)
| changeFile (files : option File.t)
| clickRemoveFile
| changeOcrText (v : string)
| clickProcess
| settle (i : nat) (today : string) (o : Outcome)
| clickType (t : TransactionType)
| changeDate (v : string)
| changePartyName (v : string)
| changeQuantityGrams (v : string)
| changeRatePerGram (v : string)
| changeGstRate (v : string)
| changeTotal (v : string)
| submit (p : Props) (today newId : string).

(** [disabled] of the process button. *)
Definition processDisabled (s : State) : bool :=
  negb (truthy_string (ocrText s)) && negb (truthy_file (selectedFile s))
  || isProcessing s.

(** [disabled] of the taxable total input. *)
Definition totalDisabled (s : State) : bool :=
  negb (truthy_number (parseFloat (FormData.quantityGrams (formData s)))).

Definition is_UPLOAD (m : Mode) : bool :=
  match m with UPLOAD => true | MANUAL => false end.

Definition editForm (f : FormData.t -> FormData.t) (c : Config)
  : option Config :=
  if is_UPLOAD (mode (state c)) then None
  else Some {| state := setFormData (f (formData (state c))) (state c);
               pending := pending c; calls := calls c |}.

Definition onState (f : State -> State) (c : Config) : Config :=
  {| state := f (state c); pending := pending c; calls := calls c |}.

Fixpoint remove_nth {A : Type} (i : nat) (l : list A) : list A :=
  match l, i with
  | [], _ => []
  | _ :: r, O => r
  | x :: r, S k => x :: remove_nth k r
  end.

(** One event; [None] when the rendered form does not offer it: the control
    is not rendered in the current mode, it is disabled, or no call with this
    index is waiting. *)
Definition step (c : Config) (e : Event) : option Config :=
  let s := state c in
  match e with
  | clickMode m => Some (onState (setMode m) c)
  | changeFile files =>
      if is_UPLOAD (mode s) then Some (onState (handleFileChange files) c)
      else None
  | clickRemoveFile =>
      if is_UPLOAD (mode s) && truthy_file (selectedFile s)
      then Some (onState (setSelectedFile None) c) else None
  | changeOcrText v =>
      if is_UPLOAD (mode s) && negb (truthy_file (selectedFile s))
      then Some (onState (setOcrText v) c) else None
  | clickProcess =>
      if is_UPLOAD (mode s) && negb (processDisabled s) then
        match handleOcrProcess_start s with
        | Some s' =>
            Some {| state := s'; pending := s :: pending c; calls := calls c |}
        | None => Some c
        end
      else None
  | settle i today o =>
      match nth_error (pending c) i with
      | Some cl =>
          let '(s', fx) := handleOcrProcess_settle today cl o s in
          Some {| state := s'; pending := remove_nth i (pending c);
                  calls := calls c ++ fx |}
      | None => None
      end
  | clickType t =>
      editForm (fun fd =>
        FormData.mk (FormData.date fd) t (FormData.partyName fd)
          (FormData.quantityGrams fd) (FormData.ratePerGram fd)
          (FormData.gstRate fd)) c
  | changeDate v =>
      editForm (fun fd =>
        FormData.mk v (FormData.type fd) (FormData.partyName fd)
          (FormData.quantityGrams fd) (FormData.ratePerGram fd)
          (FormData.gstRate fd)) c
  | changePartyName v =>
      editForm (fun fd =>
        FormData.mk (FormData.date fd) (FormData.type fd) v
          (FormData.quantityGrams fd) (FormData.ratePerGram fd)
          (FormData.gstRate fd)) c
  | changeQuantityGrams v =>
      editForm (fun fd =>
        FormData.mk (FormData.date fd) (FormData.type fd)
          (FormData.partyName fd) v (FormData.ratePerGram fd)
          (FormData.gstRate fd)) c
  | changeRatePerGram v => editForm (with_ratePerGram v) c
  | changeGstRate v =>
      editForm (fun fd =>
        FormData.mk (FormData.date fd) (FormData.type fd)
          (FormData.partyName fd) (FormData.quantityGrams fd)
          (FormData.ratePerGram fd) v) c
  | changeTotal v =>
      if is_UPLOAD (mode s) || totalDisabled s then None
      else Some (onState (handleTotalChange v) c)
  | submit p today newId =>
      if is_UPLOAD (mode s) then None
      else
        let '(s', fx) := handleSubmit p today newId s in
        Some {| state := s'; pending := pending c; calls := calls c ++ fx |}
  end.

(** The configurations a run of events leads to. *)
Fixpoint run (c : Config) (es : list Event) : option Config :=
  match es with
  | [] => Some c
  | e :: r => match step c e with Some c' => run c' r | None => None end
  end.

End Handler.

End InvoiceForm.

(** ** Values of Numbers and the rounding of one operation *)

Module Binary64.
Import JS.

(** [x] is a binary64 value: its significand and exponent are those of the
    format. *)
Definition valid (x : number) : Prop := valid_binary prec emax x = true.

(** [Number.isFinite(x)]. *)
Definition is_finite (x : number) : bool :=
  match x with
  | S754_zero _ | S754_finite _ _ _ => true
  | _ => false
  end.

(** The exponent the format gives a value of magnitude [2 ^ e]:
    [max (e - 53) (-1074)]. *)
Definition fexp (e : Z) : Z := SpecFloat.fexp prec emax e.

(** The fraction [N / D] lies in [[m, m + 1)] for the significand [m] of the
    record, whose two bits place it against the midpoint: the round bit is set
    from the midpoint on, the sticky bit off the start and off the midpoint. *)
Definition describes (N D : Z) (r : shr_record) : Prop :=
  0 <= shr_m r
  /\ shr_m r * D <= N < (shr_m r + 1) * D
  /\ (shr_r r = true <-> D <= 2 * (N - shr_m r * D))
  /\ (shr_s r = true <-> N - shr_m r * D <> 0 /\ 2 * (N - shr_m r * D) <> D).

(** The Number of the rounded significand [m] at the exponent [e]: zero, a
    carry into the next binade, or [m] itself, and an infinity above the
    largest exponent. *)
Definition pack (s : bool) (m e : Z) : number :=
  if m =? 0 then S754_zero s
  else if m =? 2 ^ 53 then
    if e + 1 <=? 971 then S754_finite s (Z.to_pos (2 ^ 52)) (e + 1)
    else S754_infinity s
  else if e <=? 971 then S754_finite s (Z.to_pos m) e
  else S754_infinity s.

Local Open Scope Q_scope.

(** [2 ^ e] as a rational. *)
Definition pow2 (e : Z) : Q := 2 ^ e.

Definition sign_of (s : bool) : Q := if s then -1 else 1.

(** The real number a finite Number stands for, and 0 for the others. *)
Definition SF2Q (x : number) : Q :=
  match x with
  | S754_finite s m e => (if s then -1 else 1) * inject_Z (Z.pos m) * pow2 e
  | _ => 0
  end.

End Binary64.

(** ** The vocabulary of the properties *)

Import JS InvoiceForm Binary64.

(** *** Inputs *)

(** The Number an input stands for: 0 when its text is not numeric or is
    missing, and otherwise the Number it parses to, the two zeros being one
    Number. *)
Definition reads_as (input : string) (v : number) : Prop :=
  if isNaN (parseFloat input) then v = zero
  else num_eq v (parseFloat input) = true.

(** The real number an input stands for: 0 when its text is not numeric or is
    missing, and none when it reads as an infinity. *)
Definition numeric_value (input : string) : option Q :=
  match parseFloat input with
  | S754_infinity _ => None
  | x => Some (SF2Q x)
  end.

(** The input stands for the real number [v]. *)
Definition reads_exactly (input : string) (v : Q) : Prop :=
  match numeric_value input with
  | Some w => (w == v)%Q
  | None => False
  end.

(** Two finite Numbers no further apart than [tol]. *)
Definition within (tol : Q) (x y : number) : Prop :=
  is_finite x = true /\ is_finite y = true
  /\ (Qabs (SF2Q x - SF2Q y) <= tol)%Q.

(** What the round trip computes: the taxable amount of the draft once the
    total [value] has been entered. *)
Definition round_trip (value : string) (s : State) : number :=
  taxable (calculateTotals (formData (handleTotalChange value s))).

(** *** The rules of the submission *)

(** The three rules, as conditions on the draft and the props. *)
Definition violates_lock (p : Props) (fd : FormData.t) (l : string) : Prop :=
  lockDate p = Some l /\ l <> "" /\ str_le (FormData.date fd) l = true.

Definition incomplete (fd : FormData.t) : Prop :=
  FormData.partyName fd = "" \/ FormData.quantityGrams fd = ""
  \/ FormData.ratePerGram fd = "".

Definition insufficient (p : Props) (fd : FormData.t) : Prop :=
  FormData.type fd = SALE
  /\ gt (parseFloat (FormData.quantityGrams fd)) (currentStock p) = true.


(** The invoice an accepted submission of the draft [fd] hands to [onAdd]. *)
Definition invoiceOf (newId : string) (fd : FormData.t) : Invoice.t :=
  Invoice.mk newId (FormData.date fd) (FormData.type fd)
    (FormData.partyName fd)
    (parseFloat (FormData.quantityGrams fd))
    (parseFloat (FormData.ratePerGram fd))
    (parseFloat (FormData.gstRate fd))
    (gstAmt (calculateTotals fd)) (taxable (calculateTotals fd))
    (total (calculateTotals fd)).

(** The state an accepted submission leaves. *)
Definition afterSubmit (today : string) (s : State) : State :=
  {| mode := mode s; ocrText := ""; selectedFile := None;
     isProcessing := isProcessing s; formData := emptyForm today;
     error := "" |}.

(** *** The extraction *)

(** The extraction fails when a call throws, or when the response is [null]
    or holds neither a party name nor a quantity; an empty name and a zero
    quantity count as none. *)
Definition extraction_failed (o : Outcome) : Prop :=
  match o with
  | ReadError _ | ServiceError _ | SyntaxError _ | NullThrown => True
  | Parsed None => True
  | Parsed (Some d) =>
      truthy_opt_string (Data.partyName d) = false
      /\ truthy_opt_number (Data.quantityGrams d) = false
  end.

(** Either no call is waiting and the busy flag is down, or one call is
    waiting and the flag is up. *)
Definition idle_or_busy (c : Config) : Prop :=
  (pending c = [] /\ isProcessing (state c) = false)
  \/ (exists cl, pending c = [cl] /\ isProcessing (state c) = true).

(** *** Texts *)

(** The code unit [c] occurs in [s]; the text [p] occurs in [s]. *)
Fixpoint has_char (c : ascii) (s : string) : bool :=
  match s with
  | EmptyString => false
  | String a r => Ascii.eqb a c || has_char c r
  end.

Fixpoint occurs (p s : string) : bool :=
  String.prefix p s
  || match s with EmptyString => false | String _ r => occurs p r end.

(** A text of decimal digits, and the number it writes after [acc]. *)
Fixpoint all_digits (t : string) : bool :=
  match t with
  | EmptyString => true
  | String c r =>
      match digit_of c with Some _ => all_digits r | None => false end
  end.

Fixpoint digits_value (acc : Z) (t : string) : Z :=
  match t with
  | EmptyString => acc
  | String c r =>
      match digit_of c with
      | Some d => digits_value (10 * acc + d) r
      | None => acc
      end
  end.

(** The Number nearest to [k] hundredths: what a text of [k] with a point
    before its last two digits reads as. *)
Definition hundredths (k : positive) : number := of_decimal false k (-2).

(** *** Dates *)

(** [z] on [n] digits, and a date as [toISOString().split('T')[0]] writes
    it, for the years 0 to 9999: [YYYY-MM-DD]. *)
Fixpoint fixed_digits (n : nat) (z : Z) : string :=
  match n with
  | O => ""
  | S k =>
      String (digit_char (z / 10 ^ Z.of_nat k mod 10))
        (fixed_digits k (z mod 10 ^ Z.of_nat k))
  end.

Definition iso_date (y m d : Z) : string :=
  fixed_digits 4 y ++ "-" ++ fixed_digits 2 m ++ "-" ++ fixed_digits 2 d.

Definition calendar_date (y m d : Z) : Prop :=
  0 <= y <= 9999 /\ 1 <= m <= 12 /\ 1 <= d <= 31.

(** A number that grows with the date. *)
Definition day_number (y m d : Z) : Z := y * 10000 + m * 100 + d.

(** *** Runs of the form *)

Definition is_onAdd (e : Effect) : bool :=
  match e with onAdd _ => true | parseInvoiceOCR_called _ => false end.

Definition is_submit (e : Event) : bool :=
  match e with submit _ _ _ => true | _ => false end.

(** The staged input is a file or a text, not both. *)
Definition exclusive (s : State) : Prop :=
  selectedFile s = None \/ ocrText s = "".

(** There is a file, or a text that is not blank. *)
Definition has_input (s : State) : Prop :=
  selectedFile s <> None \/ blank (ocrText s) = false.

(** Every waiting call has an input, and so had every call of the text
    parser. *)
Definition fed (c : Config) : Prop :=
  (forall cl, In cl (pending c) -> has_input cl)
  /\ (forall t, In (parseInvoiceOCR_called t) (calls c) -> blank t = false).

(** *** Sample props, drafts and states *)

Definition lock_2024_03_31 : Props :=
  {| currentStock := of_Z 10; lockDate := Some "2024-03-31" |}.

Definition no_lock_10g : Props :=
  {| currentStock := of_Z 10; lockDate := None |}.

Definition draft_of (fd : FormData.t) : State :=
  setFormData fd (initialState "2024-05-01").

Definition sale_of (qty : string) : State :=
  draft_of (FormData.mk "2024-05-01" SALE "XYZ Jewellers" qty "6500" "3").

Definition draft_5g : State :=
  draft_of (FormData.mk "2024-05-01" SALE "XYZ Jewellers" "5" "" "3").

Definition draft_0g : State :=
  draft_of (FormData.mk "2024-05-01" SALE "XYZ Jewellers" "0" "6200" "3").

Definition draft_7g : State :=
  draft_of (FormData.mk "2024-05-01" SALE "XYZ Jewellers" "7" "" "3").

Definition draft_half_g : State :=
  draft_of (FormData.mk "2024-05-01" SALE "XYZ Jewellers" "0.5" "" "3").

(** A quantity that is present but is not numeric, in an otherwise complete
    purchase draft. *)
Definition draft_abc : State :=
  draft_of (FormData.mk "2024-05-01" PURCHASE "ABC Traders" "abc" "6200" "3").

Definition draft_large : State :=
  draft_of (FormData.mk "2024-05-01" PURCHASE "ABC Traders" "12345678"
              "87654321" "3").

Definition staged_text : State :=
  setOcrText "Sold 5g to XYZ Jewellers at Rs 6500 per gram"
    (setMode UPLOAD (initialState "2024-05-01")).

Definition staged_file : State :=
  setSelectedFile (Some (File.mk "invoice.pdf" "application/pdf"))
    (setMode UPLOAD (initialState "2024-05-01")).

(** The configuration once the process button has been clicked on
    [staged_text]. *)
Definition extracting_text : Config :=
  {| state := setError "" (setIsProcessing true staged_text);
     pending := [staged_text]; calls := [] |}.

(** A parser that reads one sale of 5 g at 6500 out of every text. *)
Definition sample_parser (_ : string) : option OcrResult.t :=
  Some (OcrResult.mk "" "XYZ Jewellers" (of_Z 5) (of_Z 6500) zero true).

(** The upload panel with a text of spaces. *)
Definition blank_text : Config :=
  {| state := setOcrText "   " (setMode UPLOAD (initialState "2024-05-01"));
     pending := []; calls := [] |}.

(** A file the browser gives no type. *)
Definition untyped_scan : State :=
  setSelectedFile (Some (File.mk "scan.png" ""))
    (setMode UPLOAD (initialState "2024-05-01")).

(** A response of the service, without a GST rate. *)
Definition extracted_sale : Data.t :=
  Data.mk (Some "2024-04-30") (Some SALE) (Some "XYZ Jewellers")
    (Some (of_Z 5)) (Some (of_Z 6500)) None.

(** A parser that finds a party and a rate, and no quantity. *)
Definition parser_without_quantity (_ : string) : option OcrResult.t :=
  Some (OcrResult.mk "" "XYZ Jewellers" zero (of_Z 6500) zero true).

(** A text is staged and processed, the service fails, the parser fills the
    draft, and the user confirms twice. *)
Definition session : list Event :=
  [clickMode UPLOAD;
   changeOcrText "Sold 5g to XYZ Jewellers at Rs 6500 per gram";
   clickProcess;
   settle 0 "2024-05-01" (ServiceError (Some "Failed to fetch"));
   submit no_lock_10g "2024-05-02" "id-1";
   submit no_lock_10g "2024-05-02" "id-2"].

(** ** Properties *)

(** *** The host language on samples *)

(** [parseFloat] reads the longest prefix that is a literal. *)
Example parseFloat_samples :
  map parseFloat ["6500"; "  12.5kg"; ".5"; "1e3"; "1.e2"; "+.5e-1x"; "0x10"]
  = [of_Z 6500; div (of_Z 25) (of_Z 2); div (of_Z 1) (of_Z 2); of_Z 1000;
     of_Z 100; div (of_Z 1) (of_Z 20); zero]
  /\ map parseFloat [""; "abc"; "."; "e5"; "-"] = [NaN; NaN; NaN; NaN; NaN]
  /\ map parseFloat ["-0"; "1e-400"; "1e400"; "-Infinity"]
     = [S754_zero true; zero; Infinity; S754_infinity true].
Proof. repeat split; vm_compute; reflexivity. Qed.

(** [toString] prints the shortest digits, in plain notation from [1e-6] up to
    [1e21] and in exponential notation outside. *)
Example toString_samples :
  map toString
    [add (parseFloat "0.1") (parseFloat "0.2"); div (of_Z 1) (of_Z 3);
     mul (parseFloat "1.1") (parseFloat "1.1"); div (of_Z 32500) (of_Z 5)]
  = ["0.30000000000000004"; "0.3333333333333333"; "1.2100000000000002"; "6500"]
  /\ map (fun s => toString (parseFloat s))
       ["123456789012345678901"; "1e21"; "0.000001"; "0.0000001"; "-1.5e-7";
        "5e-324"; "1.7976931348623157e308"; "9007199254740993"; "-0"; "abc"]
     = ["123456789012345680000"; "1e+21"; "0.000001"; "1e-7"; "-1.5e-7";
        "5e-324"; "1.7976931348623157e+308"; "9007199254740992"; "0"; "NaN"].
Proof. split; vm_compute; reflexivity. Qed.

(** [toFixed] rounds the binary value, not its shortest decimal. *)
Example toFixed_samples :
  map (fun s => toFixed 3 (parseFloat s))
    ["10"; "2.5"; "1234.5678"; "-1.23456"; "0.0005"; "1.0005"; "0"; "1e21"]
  = ["10.000"; "2.500"; "1234.568"; "-1.235"; "0.001"; "1.000"; "0.000";
     "1e+21"]
  /\ map (fun s => toFixed 2 (parseFloat s)) ["1.005"; "1.255"; "8.345"]
     = ["1.00"; "1.25"; "8.35"].
Proof. split; vm_compute; reflexivity. Qed.

(** *** Comparison of Numbers *)



(** [x || 0] keeps a Number up to the sign of zero, and is 0 for NaN. *)
Lemma or_number_zero (x : number) :
  if isNaN x then or_number x zero = zero
  else num_eq (or_number x zero) x = true.
Proof.
  destruct x as [s|s| |s m e]; simpl; try reflexivity.
  - destruct s; reflexivity.
  - unfold num_eq, SFeqb, or_number. simpl. destruct s.
    + rewrite Z.compare_refl.
      change (Pos.compare_cont Eq m m) with (m ?= m)%positive.
      rewrite Pos.compare_refl. reflexivity.
    + rewrite Z.compare_refl.
      change (Pos.compare_cont Eq m m) with (m ?= m)%positive.
      rewrite Pos.compare_refl. reflexivity.
Qed.

(** *** The totals *)

(** C1. For every text of the quantity, rate and GST-rate inputs, numeric or
    not, [calculateTotals] returns a result, with taxable = quantity * rate,
    gstAmt = taxable * (gstRate / 100) and total = taxable + gstAmt, where an
    input that is not numeric or is missing counts as 0.  The products, the
    quotient and the sum are those of binary64 arithmetic. *)
Theorem C1_calculateTotals (fd : FormData.t) :
  exists q r g : number,
    reads_as (FormData.quantityGrams fd) q /\
    reads_as (FormData.ratePerGram fd) r /\
    reads_as (FormData.gstRate fd) g /\
    taxable (calculateTotals fd) = mul q r /\
    gstAmt (calculateTotals fd)
      = mul (taxable (calculateTotals fd)) (div g (of_Z 100)) /\
    total (calculateTotals fd)
      = add (taxable (calculateTotals fd)) (gstAmt (calculateTotals fd)).
Proof.
  exists (or_number (parseFloat (FormData.quantityGrams fd)) zero),
         (or_number (parseFloat (FormData.ratePerGram fd)) zero),
         (or_number (parseFloat (FormData.gstRate fd)) zero).
  unfold reads_as.
  repeat split; try apply or_number_zero.
Qed.

(** *** The rules of [handleSubmit] *)

Lemma truthy_string_empty (v : string) : truthy_string v = false <-> v = "".
Proof. destruct v; simpl; split; intros H; congruence. Qed.

Lemma locked_Some (p : Props) (fd : FormData.t) (l : string) :
  locked (lockDate p) (FormData.date fd) = Some l <-> violates_lock p fd l.
Proof.
  unfold locked, violates_lock. destruct (lockDate p) as [l'|].
  - destruct (truthy_string l') eqn:Ht; simpl.
    + destruct (str_le (FormData.date fd) l') eqn:Hl; split.
      * intros [= ->]. repeat split; trivial. intros ->. discriminate.
      * intros [[= ->] _]. reflexivity.
      * discriminate.
      * intros [[= ->] [_ H]]. congruence.
    + split; [discriminate|].
      intros [[= ->] [H _]]. apply truthy_string_empty in Ht. contradiction.
  - split; [discriminate | intros [H _]; discriminate].
Qed.

Lemma locked_None (p : Props) (fd : FormData.t) :
  locked (lockDate p) (FormData.date fd) = None
  <-> forall l, ~ violates_lock p fd l.
Proof.
  split.
  - intros H l Hv. apply locked_Some in Hv. congruence.
  - intros H. destruct (locked (lockDate p) (FormData.date fd)) as [l|] eqn:E;
      [|reflexivity].
    apply locked_Some in E. destruct (H l E).
Qed.

Lemma incomplete_test (fd : FormData.t) :
  negb (truthy_string (FormData.partyName fd))
  || negb (truthy_string (FormData.quantityGrams fd))
  || negb (truthy_string (FormData.ratePerGram fd)) = true
  <-> incomplete fd.
Proof.
  unfold incomplete.
  rewrite !orb_true_iff, !negb_true_iff, !truthy_string_empty. tauto.
Qed.

Lemma complete_test (fd : FormData.t) :
  negb (truthy_string (FormData.partyName fd))
  || negb (truthy_string (FormData.quantityGrams fd))
  || negb (truthy_string (FormData.ratePerGram fd)) = false
  <-> ~ incomplete fd.
Proof.
  rewrite <- incomplete_test.
  destruct (negb _ || negb _ || negb _); split; intros H; congruence.
Qed.

Lemma insufficient_test (p : Props) (fd : FormData.t) :
  is_SALE (FormData.type fd)
  && gt (parseFloat (FormData.quantityGrams fd)) (currentStock p) = true
  <-> insufficient p fd.
Proof.
  unfold insufficient. rewrite andb_true_iff.
  destruct (FormData.type fd); simpl; split; intros [H1 H2];
    split; congruence.
Qed.

(** [handleSubmit] rule by rule. *)
Lemma handleSubmit_locked p today newId s l :
  violates_lock p (formData s) l ->
  handleSubmit p today newId s = (setError (lockMessage l) s, []).
Proof.
  intros H. apply locked_Some in H. unfold handleSubmit. rewrite H.
  reflexivity.
Qed.

Lemma handleSubmit_incomplete p today newId s :
  (forall l, ~ violates_lock p (formData s) l) ->
  incomplete (formData s) ->
  handleSubmit p today newId s = (setError missingMessage s, []).
Proof.
  intros Hl Hi. apply locked_None in Hl. apply incomplete_test in Hi.
  unfold handleSubmit. rewrite Hl, Hi. reflexivity.
Qed.

Lemma handleSubmit_insufficient p today newId s :
  (forall l, ~ violates_lock p (formData s) l) ->
  ~ incomplete (formData s) ->
  insufficient p (formData s) ->
  handleSubmit p today newId s
  = (setError (stockMessage (currentStock p)) s, []).
Proof.
  intros Hl Hi Hs. apply locked_None in Hl. apply complete_test in Hi.
  apply insufficient_test in Hs.
  unfold handleSubmit. rewrite Hl, Hi, Hs. reflexivity.
Qed.

Lemma handleSubmit_accepted p today newId s :
  (forall l, ~ violates_lock p (formData s) l) ->
  ~ incomplete (formData s) ->
  ~ insufficient p (formData s) ->
  handleSubmit p today newId s
  = (afterSubmit today s, [onAdd (invoiceOf newId (formData s))]).
Proof.
  intros Hl Hi Hs. apply locked_None in Hl. apply complete_test in Hi.
  rewrite <- insufficient_test in Hs. apply not_true_is_false in Hs.
  unfold handleSubmit. rewrite Hl, Hi, Hs. reflexivity.
Qed.

(** C4. [handleSubmit] tests the period lock first, the completeness of the
    draft second and the stock third, and reports the error of the first rule
    that fails, alone; a draft that violates the lock and is incomplete as well
    gets the lock error, which names the lock date. *)
Theorem C4_validation_order (p : Props) (today newId : string) (s : State) :
  let fd := formData s in
  let r := handleSubmit p today newId s in
  (forall l, violates_lock p fd l ->
     r = (setError (lockMessage l) s, [])
     /\ lockMessage l = "Date Locked! Cannot add before " ++ l ++ ".")
  /\ ((forall l, ~ violates_lock p fd l) -> incomplete fd ->
      r = (setError missingMessage s, []))
  /\ ((forall l, ~ violates_lock p fd l) -> ~ incomplete fd ->
      insufficient p fd ->
      r = (setError (stockMessage (currentStock p)) s, []))
  /\ (forall l, violates_lock p fd l -> incomplete fd ->
      error (fst r) = lockMessage l).
Proof.
  cbv zeta. repeat split.
  - apply handleSubmit_locked; assumption.
  - apply handleSubmit_incomplete.
  - apply handleSubmit_insufficient.
  - intros l Hl _. rewrite (handleSubmit_locked _ _ _ _ _ Hl). reflexivity.
Qed.

Lemma no_lock_10g_unlocked (fd : FormData.t) (l : string) :
  ~ violates_lock no_lock_10g fd l.
Proof. intros [H _]. discriminate. Qed.

Lemma C4_validation_order_witness :
  error (fst (handleSubmit lock_2024_03_31 "2024-05-01" "id-1"
                (draft_of (FormData.mk "2024-03-15" SALE "" "" "" "3"))))
  = "Date Locked! Cannot add before 2024-03-31."
  /\ error (fst (handleSubmit no_lock_10g "2024-05-01" "id-1"
                   (draft_of (FormData.mk "2024-03-15" SALE "" "25" "" "3"))))
     = "Fill all required fields."
  /\ error (fst (handleSubmit no_lock_10g "2024-05-01" "id-1"
                   (draft_of (FormData.mk "2024-03-15" SALE "XYZ" "25" "6500" "3"))))
     = "Insufficient Inventory! Avail: 10.000g".
Proof.
  split; [|split].
  - destruct (C4_validation_order lock_2024_03_31 "2024-05-01" "id-1"
                (draft_of (FormData.mk "2024-03-15" SALE "" "" "" "3")))
      as [_ [_ [_ H]]].
    apply (H "2024-03-31").
    + split; [reflexivity | split; [discriminate | reflexivity]].
    + left. reflexivity.
  - destruct (C4_validation_order no_lock_10g "2024-05-01" "id-1"
                (draft_of (FormData.mk "2024-03-15" SALE "" "25" "" "3")))
      as [_ [H _]].
    rewrite H; [reflexivity | apply no_lock_10g_unlocked | left; reflexivity].
  - destruct (C4_validation_order no_lock_10g "2024-05-01" "id-1"
                (draft_of (FormData.mk "2024-03-15" SALE "XYZ" "25" "6500" "3")))
      as [_ [_ [H _]]].
    rewrite H; [vm_compute; reflexivity | apply no_lock_10g_unlocked | | ].
    + intros [H1|[H1|H1]]; discriminate.
    + split; [reflexivity | vm_compute; reflexivity].
Defined.

(** At [draft_abc] the quantity is not empty and is not numeric, and
    [handleSubmit] reports no error: it resets the draft and hands [onAdd] an
    invoice whose quantity is NaN. *)
Lemma C5_counterexample :
  FormData.quantityGrams (formData draft_abc) <> ""
  /\ isNaN (parseFloat (FormData.quantityGrams (formData draft_abc))) = true
  /\ handleSubmit no_lock_10g "2024-05-02" "id-1" draft_abc
     = (afterSubmit "2024-05-02" draft_abc,
        [onAdd (Invoice.mk "id-1" "2024-05-01" PURCHASE "ABC Traders"
                  NaN (of_Z 6200) (of_Z 3) zero zero zero)]).
Proof.
  split; [discriminate|]. split; vm_compute; reflexivity.
Qed.

(** C5, amended. Once the lock rule has passed, [handleSubmit] rejects with
    the missing-fields error exactly when the party name, the quantity or the
    rate is the empty string; a quantity or rate that is not empty passes the
    rule, numeric or not. *)
Theorem C5_completeness_rule (p : Props) (today newId : string) (s : State) :
  (forall l, ~ violates_lock p (formData s) l) ->
  (incomplete (formData s)
   <-> handleSubmit p today newId s = (setError missingMessage s, [])).
Proof.
  intros Hl. split.
  - apply handleSubmit_incomplete; assumption.
  - intros H.
    destruct (negb (truthy_string (FormData.partyName (formData s)))
              || negb (truthy_string (FormData.quantityGrams (formData s)))
              || negb (truthy_string (FormData.ratePerGram (formData s))))
      eqn:Hc.
    + apply incomplete_test. assumption.
    + apply complete_test in Hc.
      destruct (is_SALE (FormData.type (formData s))
                && gt (parseFloat (FormData.quantityGrams (formData s)))
                     (currentStock p)) eqn:Hs.
      * apply insufficient_test in Hs.
        rewrite (handleSubmit_insufficient _ _ _ _ Hl Hc Hs) in H.
        discriminate H.
      * assert (Hn : ~ insufficient p (formData s)).
        { rewrite <- insufficient_test. congruence. }
        rewrite (handleSubmit_accepted _ _ _ _ Hl Hc Hn) in H.
        discriminate H.
Qed.

Lemma C5_completeness_rule_witness :
  incomplete (formData (draft_of (FormData.mk "2024-05-01" SALE "XYZ" "" "6500" "3")))
  <-> handleSubmit no_lock_10g "2024-05-02" "id-1"
        (draft_of (FormData.mk "2024-05-01" SALE "XYZ" "" "6500" "3"))
      = (setError missingMessage
           (draft_of (FormData.mk "2024-05-01" SALE "XYZ" "" "6500" "3")), []).
Proof.
  apply (C5_completeness_rule no_lock_10g "2024-05-02" "id-1").
  apply no_lock_10g_unlocked.
Defined.


Lemma sale_of_complete (qty : string) :
  qty <> "" -> ~ incomplete (formData (sale_of qty)).
Proof. intros H [H1|[H1|H1]]; try discriminate. exact (H H1). Qed.


(** C10. A submission that a rule rejects changes the error message and
    nothing else: the draft, the staged text, the selected file, the mode and
    the busy flag stay as they were, and [onAdd] is not called. *)
Theorem C10_rejection_atomic (p : Props) (today newId : string) (s : State) :
  let fd := formData s in
  let r := handleSubmit p today newId s in
  (exists l, violates_lock p fd l) \/ incomplete fd \/ insufficient p fd ->
  snd r = []
  /\ (exists msg, msg <> "" /\ fst r = setError msg s)
  /\ formData (fst r) = formData s
  /\ ocrText (fst r) = ocrText s
  /\ selectedFile (fst r) = selectedFile s
  /\ mode (fst r) = mode s
  /\ isProcessing (fst r) = isProcessing s.
Proof.
  cbv zeta. intros H.
  assert (E : exists msg, msg <> ""
                /\ handleSubmit p today newId s = (setError msg s, [])).
  { destruct (locked (lockDate p) (FormData.date (formData s))) as [l|] eqn:El.
    - apply locked_Some in El. exists (lockMessage l). split; [discriminate|].
      apply handleSubmit_locked. assumption.
    - pose proof (proj1 (locked_None p (formData s)) El) as Hl.
      destruct H as [[l H]|H]; [destruct (Hl l H)|].
      destruct (negb (truthy_string (FormData.partyName (formData s)))
                || negb (truthy_string (FormData.quantityGrams (formData s)))
                || negb (truthy_string (FormData.ratePerGram (formData s))))
        eqn:Hc.
      + apply incomplete_test in Hc. exists missingMessage.
        split; [discriminate|]. apply handleSubmit_incomplete; assumption.
      + apply complete_test in Hc. destruct H as [H|H]; [contradiction|].
        exists (stockMessage (currentStock p)). split; [discriminate|].
        apply handleSubmit_insufficient; assumption. }
  destruct E as [msg [Hm E]]. rewrite E. simpl.
  repeat split; try reflexivity. exists msg. split; trivial.
Qed.

Lemma C10_rejection_atomic_witness :
  let s := sale_of "10.001" in
  let r := handleSubmit no_lock_10g "2024-05-02" "id-1" s in
  snd r = []
  /\ (exists msg, msg <> "" /\ fst r = setError msg s)
  /\ formData (fst r) = formData s
  /\ ocrText (fst r) = ocrText s
  /\ selectedFile (fst r) = selectedFile s
  /\ mode (fst r) = mode s
  /\ isProcessing (fst r) = isProcessing s.
Proof.
  apply (C10_rejection_atomic no_lock_10g "2024-05-02" "id-1"
           (sale_of "10.001")).
  right. right. split; [reflexivity | vm_compute; reflexivity].
Defined.

(** *** The extraction handler *)

Lemma tryBlock_failed (today : string) (o : Outcome) (s : State) :
  extraction_failed o -> exists err, tryBlock today o s = inr err.
Proof.
  destruct o as [m|m|m|[d|]|]; simpl; intros H; eauto.
  unfold usable. destruct H as [-> ->]. simpl. eauto.
Qed.


Section Extraction.

Variable parseInvoiceOCR : string -> option OcrResult.t.

(** *** One extraction at a time *)

Lemma handleSubmit_isProcessing p today newId s :
  isProcessing (fst (handleSubmit p today newId s)) = isProcessing s.
Proof.
  unfold handleSubmit.
  destruct (locked _ _); [reflexivity|].
  destruct (negb _ || negb _ || negb _); [reflexivity|].
  destruct (is_SALE _ && gt _ _); reflexivity.
Qed.

Lemma handleTotalChange_isProcessing v s :
  isProcessing (handleTotalChange v s) = isProcessing s.
Proof.
  unfold handleTotalChange.
  destruct (negb _ && negb _ && gt _ _); [reflexivity|].
  destruct (String.eqb v ""); reflexivity.
Qed.

Lemma handleOcrProcess_settle_isProcessing today cl o s :
  isProcessing (fst (handleOcrProcess_settle parseInvoiceOCR today cl o s))
  = false.
Proof.
  unfold handleOcrProcess_settle.
  destruct (tryBlock today o s) as [s1|err]; [reflexivity|].
  destruct (catchBlock parseInvoiceOCR cl err s) as [[s1 fx]|]; reflexivity.
Qed.

Lemma idle_or_busy_same (c c' : Config) :
  pending c' = pending c ->
  isProcessing (state c') = isProcessing (state c) ->
  idle_or_busy c -> idle_or_busy c'.
Proof. unfold idle_or_busy. intros -> ->. trivial. Qed.

Lemma editForm_idle_or_busy f c c' :
  editForm f c = Some c' -> idle_or_busy c -> idle_or_busy c'.
Proof.
  unfold editForm. destruct (is_UPLOAD _); [discriminate|].
  intros [= <-]. apply idle_or_busy_same; reflexivity.
Qed.

Lemma step_idle_or_busy (c c' : Config) (e : Event) :
  step parseInvoiceOCR c e = Some c' -> idle_or_busy c -> idle_or_busy c'.
Proof.
  destruct e; simpl; try apply editForm_idle_or_busy.
  - intros [= <-]. apply idle_or_busy_same; reflexivity.
  - destruct (is_UPLOAD _); [|discriminate]. intros [= <-].
    apply idle_or_busy_same; [reflexivity|]. simpl.
    destruct files; reflexivity.
  - destruct (is_UPLOAD _ && _); [|discriminate]. intros [= <-].
    apply idle_or_busy_same; reflexivity.
  - destruct (is_UPLOAD _ && _); [|discriminate]. intros [= <-].
    apply idle_or_busy_same; reflexivity.
  - destruct (is_UPLOAD (mode (state c))); simpl; [|discriminate].
    unfold processDisabled.
    destruct (isProcessing (state c)) eqn:Hp;
      [rewrite orb_true_r; discriminate|].
    destruct (negb (negb _ && negb _ || false)); [|discriminate].
    unfold handleOcrProcess_start.
    destruct (blank _ && negb _).
    + intros [= <-]. trivial.
    + intros [= <-] [[Hn _]|[cl [_ Hb]]]; [|congruence].
      right. exists (state c). simpl. rewrite Hn. split; reflexivity.
  - destruct (nth_error (pending c) i) as [cl|] eqn:Hn; [|discriminate].
    destruct (handleOcrProcess_settle parseInvoiceOCR today cl o (state c))
      as [s' fx] eqn:Hs.
    intros [= <-] [[Hp _]|[cl' [Hp _]]].
    + rewrite Hp in Hn. destruct i; discriminate.
    + left. simpl. rewrite Hp in *. split.
      * destruct i as [|[|i]]; simpl in *; congruence.
      * change s' with (fst (s', fx)). rewrite <- Hs.
        apply handleOcrProcess_settle_isProcessing.
  - destruct (is_UPLOAD _ || _); [discriminate|]. intros [= <-].
    apply idle_or_busy_same; [reflexivity|]. simpl.
    apply handleTotalChange_isProcessing.
  - destruct (is_UPLOAD _); [discriminate|].
    destruct (handleSubmit p today newId (state c)) as [s' fx] eqn:Hs.
    intros [= <-]. apply idle_or_busy_same; [reflexivity|]. simpl.
    change s' with (fst (s', fx)). rewrite <- Hs.
    apply handleSubmit_isProcessing.
Qed.

Lemma run_idle_or_busy (es : list Event) (c c' : Config) :
  run parseInvoiceOCR c es = Some c' -> idle_or_busy c -> idle_or_busy c'.
Proof.
  revert c. induction es as [|e es IH]; simpl; intros c.
  - intros [= <-]. trivial.
  - destruct (step parseInvoiceOCR c e) as [c1|] eqn:Hs; [|discriminate].
    intros Hr Hc. apply (IH c1 Hr). apply (step_idle_or_busy c c1 e Hs Hc).
Qed.

(** C9. In every configuration the rendered form can reach, at most one
    extraction call is waiting; the busy flag [isProcessing] is up exactly
    while one is; and while one is waiting the form does not accept a click
    on the process button, so [handleOcrProcess] is not started again. *)
Theorem C9_one_extraction_in_flight (today : string) (es : list Event)
    (c : Config) :
  run parseInvoiceOCR (initialConfig today) es = Some c ->
  (List.length (pending c) <= 1)%nat
  /\ (pending c <> [] <-> isProcessing (state c) = true)
  /\ (pending c <> [] -> step parseInvoiceOCR c clickProcess = None)
  /\ (forall c', step parseInvoiceOCR c clickProcess = Some c' ->
      (List.length (pending c') <= 1)%nat).
Proof.
  intros Hr.
  assert (H : idle_or_busy c).
  { apply (run_idle_or_busy es _ _ Hr). left. split; reflexivity. }
  assert (L : forall c0, idle_or_busy c0 -> (List.length (pending c0) <= 1)%nat).
  { intros c0 [[-> _]|[cl [-> _]]]; simpl; lia. }
  split; [apply L; exact H|]. split; [|split].
  - destruct H as [[Hp Hb]|[cl [Hp Hb]]]; rewrite Hp, Hb;
      split; intros E; congruence.
  - intros Hne. destruct H as [[Hp _]|[cl [_ Hb]]]; [congruence|].
    simpl. unfold processDisabled. rewrite Hb, orb_true_r, andb_false_r.
    reflexivity.
  - intros c' Hs. apply L. apply (step_idle_or_busy _ _ _ Hs H).
Qed.

End Extraction.

Lemma C9_one_extraction_in_flight_witness :
  (List.length (pending extracting_text) <= 1)%nat
  /\ (pending extracting_text <> []
      <-> isProcessing (state extracting_text) = true)
  /\ (pending extracting_text <> []
      -> step sample_parser extracting_text clickProcess = None)
  /\ (forall c', step sample_parser extracting_text clickProcess = Some c' ->
      (List.length (pending c') <= 1)%nat).
Proof.
  apply (C9_one_extraction_in_flight sample_parser "2024-05-01"
           [clickMode UPLOAD;
            changeOcrText "Sold 5g to XYZ Jewellers at Rs 6500 per gram";
            clickProcess]).
  reflexivity.
Defined.

(** ** Binary64 arithmetic: one rounding per operation *)

Module Binary64Facts.
Import JS Binary64.

Lemma shr_1_describes (N D : Z) (r : shr_record) :
  0 < D -> describes N D r -> describes N (2 * D) (shr_1 r).
Proof.
  destruct r as [m b s]. unfold describes. cbn [shr_m shr_r shr_s].
  intros HD (Hm & Hin & Hr & Hs).
  assert (Hrs : orb b s = true <-> N - m * D <> 0).
  { rewrite orb_true_iff, Hr, Hs. lia. }
  destruct m as [|[p|p|]|p]; unfold shr_1; cbn [shr_m shr_r shr_s];
    try lia; rewrite Hrs.
  - repeat split; try lia; try discriminate; intros; lia.
  - rewrite Pos2Z.inj_xI in *. repeat split; try lia; intros; lia.
  - rewrite Pos2Z.inj_xO in *. repeat split; try lia; try discriminate; intros; lia.
  - repeat split; try lia; intros; lia.
Qed.

Lemma pow2_xO (p : positive) : 2 ^ Z.pos p~0 = 2 ^ Z.pos p * 2 ^ Z.pos p.
Proof.
  replace (Z.pos p~0) with (Z.pos p + Z.pos p) by lia.
  apply Z.pow_add_r; lia.
Qed.

Lemma pow2_xI (p : positive) :
  2 ^ Z.pos p~1 = 2 * (2 ^ Z.pos p * 2 ^ Z.pos p).
Proof.
  replace (Z.pos p~1) with (1 + (Z.pos p + Z.pos p)) by lia.
  rewrite !Z.pow_add_r by lia. reflexivity.
Qed.

Lemma iter_pos_describes (p : positive) (N D : Z) (r : shr_record) :
  0 < D -> describes N D r ->
  describes N (2 ^ Z.pos p * D) (iter_pos shr_1 p r).
Proof.
  revert D r. induction p as [p IH|p IH|]; intros D r HD H; simpl iter_pos.
  - assert (0 < 2 ^ Z.pos p) by (apply Z.pow_pos_nonneg; lia).
    apply shr_1_describes in H; trivial.
    apply IH in H; [|lia]. apply IH in H; [|nia].
    replace (2 ^ Z.pos p~1 * D) with (2 ^ Z.pos p * (2 ^ Z.pos p * (2 * D)))
      by (rewrite pow2_xI; ring).
    exact H.
  - assert (0 < 2 ^ Z.pos p) by (apply Z.pow_pos_nonneg; lia).
    apply IH in H; [|lia]. apply IH in H; [|nia].
    replace (2 ^ Z.pos p~0 * D) with (2 ^ Z.pos p * (2 ^ Z.pos p * D))
      by (rewrite pow2_xO; ring).
    exact H.
  - apply shr_1_describes in H; trivial.
Qed.

Lemma fexp_eq (e : Z) : fexp e = Z.max (e - 53) (-1074).
Proof. reflexivity. Qed.

Lemma digits2_pos_bounds (p : positive) :
  2 ^ (Z.pos (digits2_pos p) - 1) <= Z.pos p < 2 ^ Z.pos (digits2_pos p).
Proof.
  induction p as [p IH|p IH|]; cbn [digits2_pos].
  - rewrite Pos2Z.inj_succ.
    replace (Z.succ (Z.pos (digits2_pos p)) - 1)
      with (Z.succ (Z.pos (digits2_pos p) - 1)) by lia.
    rewrite !Z.pow_succ_r by lia. lia.
  - rewrite Pos2Z.inj_succ.
    replace (Z.succ (Z.pos (digits2_pos p)) - 1)
      with (Z.succ (Z.pos (digits2_pos p) - 1)) by lia.
    rewrite !Z.pow_succ_r by lia. lia.
  - simpl. lia.
Qed.

Lemma Zdigits2_bounds (m : Z) :
  0 < m -> 2 ^ (Zdigits2 m - 1) <= m < 2 ^ Zdigits2 m.
Proof.
  destruct m as [|p|p]; try lia. intros _. apply digits2_pos_bounds.
Qed.

Lemma Zdigits2_nonneg (m : Z) : 0 <= Zdigits2 m.
Proof. destruct m; simpl; lia. Qed.

Lemma Zdigits2_pos (m : Z) : 0 < m -> 0 < Zdigits2 m.
Proof. destruct m; simpl; lia. Qed.

(** The number of digits is the only [d] with [2 ^ (d - 1) <= m < 2 ^ d]. *)
Lemma Zdigits2_unique (m d : Z) :
  0 < d -> 2 ^ (d - 1) <= m < 2 ^ d -> Zdigits2 m = d.
Proof.
  intros Hd [Hl Hu].
  assert (Hm : 0 < m).
  { assert (0 < 2 ^ (d - 1)) by (apply Z.pow_pos_nonneg; lia). lia. }
  destruct (Zdigits2_bounds m Hm) as [Hl' Hu'].
  pose proof (Zdigits2_pos m Hm) as Hp.
  destruct (Z.lt_trichotomy (Zdigits2 m) d) as [H|[H|H]]; trivial.
  - assert (2 ^ Zdigits2 m <= 2 ^ (d - 1)) by (apply Z.pow_le_mono_r; lia).
    lia.
  - assert (2 ^ d <= 2 ^ (Zdigits2 m - 1)) by (apply Z.pow_le_mono_r; lia).
    lia.
Qed.

Lemma Zdigits2_le (m d : Z) : 0 <= m -> 0 <= d -> m < 2 ^ d -> Zdigits2 m <= d.
Proof.
  intros Hm Hd Hu. destruct (Z.eq_dec m 0) as [->|Hn]; [simpl; lia|].
  destruct (Zdigits2_bounds m ltac:(lia)) as [Hl _].
  destruct (Z_le_gt_dec (Zdigits2 m) d) as [H|H]; trivial.
  assert (2 ^ d <= 2 ^ (Zdigits2 m - 1)) by (apply Z.pow_le_mono_r; lia).
  lia.
Qed.

Lemma Zdigits2_ge (m d : Z) : 0 <= d -> 2 ^ d <= m -> d + 1 <= Zdigits2 m.
Proof.
  intros Hd Hl.
  assert (Hm : 0 < m).
  { assert (0 < 2 ^ d) by (apply Z.pow_pos_nonneg; lia). lia. }
  destruct (Zdigits2_bounds m Hm) as [_ Hu].
  destruct (Z_le_gt_dec (d + 1) (Zdigits2 m)) as [H|H]; trivial.
  assert (2 ^ Zdigits2 m <= 2 ^ d).
  { apply Z.pow_le_mono_r; lia. }
  lia.
Qed.

(** One shift drops one digit. *)
Lemma shr_1_digits (r : shr_record) :
  0 <= shr_m r ->
  0 <= shr_m (shr_1 r)
  /\ Zdigits2 (shr_m (shr_1 r)) = Z.max 0 (Zdigits2 (shr_m r) - 1).
Proof.
  destruct r as [m b s]. cbn [shr_m]. intros Hm.
  destruct m as [|[p|p|]|p]; try lia; unfold shr_1; cbn [shr_m];
    simpl Zdigits2; split; lia.
Qed.

Lemma iter_pos_digits (p : positive) (r : shr_record) :
  0 <= shr_m r ->
  0 <= shr_m (iter_pos shr_1 p r)
  /\ Zdigits2 (shr_m (iter_pos shr_1 p r))
     = Z.max 0 (Zdigits2 (shr_m r) - Z.pos p).
Proof.
  revert r. induction p as [p IH|p IH|]; intros r Hm; simpl iter_pos.
  - destruct (shr_1_digits r Hm) as [H1 E1].
    destruct (IH _ H1) as [H2 E2]. destruct (IH _ H2) as [H3 E3].
    split; trivial. rewrite E3, E2, E1. lia.
  - destruct (IH _ Hm) as [H2 E2]. destruct (IH _ H2) as [H3 E3].
    split; trivial. rewrite E3, E2. lia.
  - apply shr_1_digits. trivial.
Qed.

Lemma shr_record_of_loc_m (m : Z) (l : location) :
  shr_m (shr_record_of_loc m l) = m.
Proof. destruct l as [|[]]; reflexivity. Qed.

(** Rounding to nearest, ties to even, moves by half a unit at most. *)
Lemma round_nearest_even_describes (N D : Z) (r : shr_record) :
  0 < D -> describes N D r ->
  let m := round_nearest_even (shr_m r) (loc_of_shr_record r) in
  (m = shr_m r \/ m = shr_m r + 1)
  /\ - D <= 2 * (m * D - N) <= D.
Proof.
  destruct r as [m b s]. unfold describes. cbn [shr_m shr_r shr_s].
  intros HD (Hm & Hin & Hr & Hs). cbv zeta.
  destruct b, s; cbn [loc_of_shr_record round_nearest_even].
  - assert (D <= 2 * (N - m * D)) by (apply Hr; reflexivity).
    split; [right; reflexivity | lia].
  - assert (D <= 2 * (N - m * D)) by (apply Hr; reflexivity).
    assert (~ (N - m * D <> 0 /\ 2 * (N - m * D) <> D)).
    { intros H1. apply Hs in H1. discriminate. }
    destruct (Z.even m); [split; [left; reflexivity | lia]
                         | split; [right; reflexivity | lia]].
  - assert (~ D <= 2 * (N - m * D)).
    { intros H1. apply Hr in H1. discriminate. }
    split; [left; reflexivity | lia].
  - assert (~ D <= 2 * (N - m * D)).
    { intros H1. apply Hr in H1. discriminate. }
    split; [left; reflexivity | lia].
Qed.

Lemma shr_describes (N D : Z) (r : shr_record) (e n : Z) :
  0 < D -> describes N D r -> 0 <= n ->
  snd (shr r e n) = e + n
  /\ describes N (2 ^ n * D) (fst (shr r e n))
  /\ 0 <= shr_m (fst (shr r e n))
  /\ Zdigits2 (shr_m (fst (shr r e n))) = Z.max 0 (Zdigits2 (shr_m r) - n).
Proof.
  intros HD H Hn.
  assert (Hm : 0 <= shr_m r) by apply H.
  pose proof (Zdigits2_nonneg (shr_m r)) as Hd.
  destruct n as [|p|p]; try lia; cbn [shr fst snd].
  - rewrite Z.pow_0_r, Z.mul_1_l.
    split; [lia | split; [exact H | split; [exact Hm | lia]]].
  - destruct (iter_pos_digits p r Hm) as [H1 H2].
    split; [reflexivity | split; [|split; trivial]].
    apply iter_pos_describes; trivial.
Qed.

Lemma shr_nonpos (r : shr_record) (e n : Z) : n <= 0 -> shr r e n = (r, e).
Proof. destruct n; try reflexivity. lia. Qed.

Lemma binary_round_aux_cases (s : bool) (N D mx ex : Z) (lx : location) :
  0 < D -> describes N D (shr_record_of_loc mx lx) ->
  ex <= fexp (Zdigits2 mx + ex) ->
  let e1 := fexp (Zdigits2 mx + ex) in
  let D1 := 2 ^ (e1 - ex) * D in
  exists m,
    0 <= m <= 2 ^ 53
    /\ - D1 <= 2 * (m * D1 - N) <= D1
    /\ (e1 = -1074 \/ (2 ^ 52 <= m /\ 2 ^ 52 * D1 <= N))
    /\ binary_round_aux prec emax s mx ex lx = pack s m e1.
Proof.
  intros HD Hdesc Hex e1 D1.
  assert (Hn : 0 <= e1 - ex) by (unfold e1; lia).
  destruct (shr_describes N D _ ex (e1 - ex) HD Hdesc Hn)
    as (He & Hd1 & Hm1 & Hdig).
  rewrite shr_record_of_loc_m in Hdig. fold D1 in Hd1.
  assert (HD1 : 0 < D1).
  { unfold D1. apply Z.mul_pos_pos; trivial. apply Z.pow_pos_nonneg; lia. }
  unfold binary_round_aux, shr_fexp.
  change (SpecFloat.fexp prec emax (Zdigits2 mx + ex)) with e1.
  destruct (shr (shr_record_of_loc mx lx) ex (e1 - ex)) as [r1 e'] eqn:Hshr.
  cbn [fst snd] in *. replace e' with e1 by lia. clear He e' Hshr.
  destruct (round_nearest_even_describes N D1 r1 HD1 Hd1) as [Hm2 Hhalf].
  set (m2 := round_nearest_even (shr_m r1) (loc_of_shr_record r1)) in *.
  assert (He1 : e1 = Z.max (Zdigits2 mx + ex - 53) (-1074)) by reflexivity.
  assert (Hlt : shr_m r1 < 2 ^ 53).
  { destruct (Z.eq_dec (shr_m r1) 0) as [->|Hz]; [reflexivity|].
    destruct (Zdigits2_bounds (shr_m r1) ltac:(lia)) as [_ Hu].
    assert (2 ^ Zdigits2 (shr_m r1) <= 2 ^ 53).
    { apply Z.pow_le_mono_r; lia. }
    lia. }
  assert (Hbig : e1 = -1074 \/ (2 ^ 52 <= shr_m r1 /\ 2 ^ 52 * D1 <= N)).
  { destruct (Z.eq_dec e1 (-1074)) as [|Hne]; [left; trivial | right].
    assert (Hd53 : Zdigits2 (shr_m r1) = 53) by lia.
    assert (0 < shr_m r1).
    { destruct (shr_m r1); simpl in Hd53; lia. }
    destruct (Zdigits2_bounds (shr_m r1) ltac:(lia)) as [Hl _].
    rewrite Hd53 in Hl. change (2 ^ (53 - 1)) with (2 ^ 52) in Hl.
    split; trivial. destruct Hd1 as (_ & [Hlo _] & _). nia. }
  exists m2. split; [lia|]. split; [lia|]. split.
  - destruct Hbig as [H|[H1 H2]]; [left; trivial | right; split; lia].
  - unfold pack.
    destruct (Z.eqb_spec m2 0) as [E0|N0].
    + rewrite E0. rewrite shr_nonpos.
      * reflexivity.
      * simpl Zdigits2. change (SpecFloat.fexp prec emax (0 + e1))
          with (Z.max (0 + e1 - 53) (-1074)). lia.
    + destruct (Z.eqb_spec m2 (2 ^ 53)) as [E53|N53].
      * rewrite E53.
        change (Zdigits2 (2 ^ 53)) with 54.
        change (SpecFloat.fexp prec emax (54 + e1))
          with (Z.max (54 + e1 - 53) (-1074)).
        replace (Z.max (54 + e1 - 53) (-1074) - e1) with 1 by lia.
        reflexivity.
      * assert (Hd2 : Zdigits2 m2 <= 53).
        { apply Zdigits2_le; lia. }
        rewrite shr_nonpos.
        -- cbn [shr_record_of_loc shr_m fst snd].
           destruct m2 as [|p|p]; try lia. reflexivity.
        -- change (SpecFloat.fexp prec emax (Zdigits2 m2 + e1))
             with (Z.max (Zdigits2 m2 + e1 - 53) (-1074)). lia.
Qed.

(** *** The value of a rounded significand *)

Local Open Scope Q_scope.

Lemma pow2_pos (e : Z) : 0 < pow2 e.
Proof. apply Qpower_0_lt. reflexivity. Qed.

Lemma pow2_add (a b : Z) : pow2 (a + b) == pow2 a * pow2 b.
Proof. apply Qpower_plus. discriminate. Qed.

Lemma pow2_Z (n : Z) : (0 <= n)%Z -> inject_Z (2 ^ n) == pow2 n.
Proof. intros H. apply Zpower_Qpower. trivial. Qed.

Lemma pow2_le (a b : Z) : (a <= b)%Z -> pow2 a <= pow2 b.
Proof. intros H. apply Qpower_le_compat_l; trivial. discriminate. Qed.

Lemma pow2_succ (a : Z) : pow2 (a + 1) == 2 * pow2 a.
Proof. rewrite pow2_add. change (pow2 1) with 2. ring. Qed.

Lemma pow2_pred (a : Z) : pow2 a == 2 * pow2 (a - 1).
Proof. rewrite <- pow2_succ. replace (a - 1 + 1)%Z with a by lia. reflexivity. Qed.

Lemma pack_finite (s : bool) (m e : Z) :
  (0 <= m)%Z -> (e <= 970)%Z -> is_finite (pack s m e) = true.
Proof.
  intros Hm He. unfold pack.
  destruct (m =? 0)%Z; [reflexivity|].
  destruct (m =? 2 ^ 53)%Z.
  - destruct (Z.leb_spec (e + 1) 971); [reflexivity | lia].
  - destruct (Z.leb_spec e 971); [reflexivity | lia].
Qed.

Lemma pack_not_nan (s : bool) (m e : Z) : pack s m e <> S754_nan.
Proof.
  unfold pack. destruct (m =? 0)%Z; [discriminate|].
  destruct (m =? 2 ^ 53)%Z; [destruct (e + 1 <=? 971)%Z|destruct (e <=? 971)%Z];
    discriminate.
Qed.

Lemma pack_value (s : bool) (m e : Z) :
  (0 <= m)%Z -> is_finite (pack s m e) = true ->
  SF2Q (pack s m e) == sign_of s * inject_Z m * pow2 e.
Proof.
  intros Hm. unfold pack.
  destruct (Z.eqb_spec m 0) as [->|N0];
    [intros _; cbn [SF2Q]; change (inject_Z 0) with 0; ring|].
  destruct (Z.eqb_spec m (2 ^ 53)) as [->|N53].
  - destruct (e + 1 <=? 971)%Z; [|discriminate]. intros _.
    cbn [SF2Q]. fold (sign_of s). rewrite pow2_succ.
    change (inject_Z (Z.pos (Z.to_pos (2 ^ 52)))) with (inject_Z (2 ^ 52)).
    change (inject_Z (2 ^ 53)) with (2 * inject_Z (2 ^ 52)). ring.
  - destruct (e <=? 971)%Z; [|discriminate]. intros _.
    cbn [SF2Q]. fold (sign_of s). rewrite Z2Pos.id by lia. reflexivity.
Qed.

Lemma pack_valid (s : bool) (m e : Z) :
  (0 <= m <= 2 ^ 53)%Z -> (-1074 <= e)%Z ->
  (e = -1074 \/ 2 ^ 52 <= m)%Z ->
  valid_binary prec emax (pack s m e) = true.
Proof.
  intros Hm He Hc. unfold pack.
  destruct (Z.eqb_spec m 0) as [->|N0]; [reflexivity|].
  destruct (Z.eqb_spec m (2 ^ 53)) as [->|N53].
  - destruct (Z.leb_spec (e + 1) 971) as [Hle|]; [|reflexivity].
    cbn [valid_binary]. unfold bounded, canonical_mantissa.
    apply andb_true_iff. split; [|apply Z.leb_le; exact Hle].
    apply Z.eqb_eq.
    change (Z.pos (digits2_pos (Z.to_pos (2 ^ 52)))) with 53%Z.
    change (SpecFloat.fexp prec emax (53 + (e + 1)))
      with (Z.max (53 + (e + 1) - 53) (-1074)). lia.
  - destruct (Z.leb_spec e 971) as [Hle|]; [|reflexivity].
    cbn [valid_binary]. unfold bounded, canonical_mantissa.
    apply andb_true_iff. split; [|apply Z.leb_le; exact Hle].
    apply Z.eqb_eq.
    change (Z.pos (digits2_pos (Z.to_pos m))) with (Zdigits2 (Z.pos (Z.to_pos m))).
    rewrite Z2Pos.id by lia.
    change (SpecFloat.fexp prec emax (Zdigits2 m + e))
      with (Z.max (Zdigits2 m + e - 53) (-1074)).
    assert (Zdigits2 m <= 53)%Z by (apply Zdigits2_le; lia).
    destruct Hc as [->|Hc]; [lia|].
    assert (52 + 1 <= Zdigits2 m)%Z by (apply Zdigits2_ge; lia).
    lia.
Qed.

Lemma Qdiv_mult_cancel (a b : Q) : 0 < b -> a / b * b == a.
Proof. intros H. field. intros E. rewrite E in H. apply (Qlt_irrefl 0 H). Qed.

(** Pushes [inject_Z] to the leaves of the integer expression in [H]. *)
Ltac push_inject H :=
  repeat (rewrite inject_Z_mult in H || rewrite inject_Z_plus in H
          || rewrite inject_Z_opp in H).

Lemma half_unit_Q (m P Dq y Nq : Q) :
  0 < Dq -> y * Dq == Nq ->
  - (P * Dq) <= 2 * (m * (P * Dq) + - Nq) ->
  2 * (m * (P * Dq) + - Nq) <= P * Dq ->
  - P <= 2 * (m * P - y) <= P.
Proof.
  intros HD Hy H1 H2. rewrite <- Hy in H1, H2.
  split; apply (Qmult_le_r _ _ Dq HD); lra.
Qed.

Lemma large_Q (c P Dq y Nq : Q) :
  0 < Dq -> y * Dq == Nq -> c * (P * Dq) <= Nq -> c * P <= y.
Proof.
  intros HD Hy H. rewrite <- Hy in H.
  apply (Qmult_le_r _ _ Dq HD). lra.
Qed.

Lemma binary_round_aux_error (s : bool) (N D mx ex : Z) (lx : location) :
  (0 < D)%Z -> describes N D (shr_record_of_loc mx lx) ->
  (ex <= fexp (Zdigits2 mx + ex))%Z ->
  let X := inject_Z N / inject_Z D * pow2 ex in
  let r := binary_round_aux prec emax s mx ex lx in
  r <> S754_nan
  /\ valid_binary prec emax r = true
  /\ (X < pow2 1023 -> is_finite r = true)
  /\ (is_finite r = true ->
      Qabs (SF2Q r - sign_of s * X) <= X * pow2 (-53) + pow2 (-1075)).
Proof.
  intros HD Hdesc Hex X r.
  destruct (binary_round_aux_cases s N D mx ex lx HD Hdesc Hex)
    as (m & Hm & Hhalf & Hbig & Hr).
  set (e1 := fexp (Zdigits2 mx + ex)) in *.
  assert (He1 : (-1074 <= e1)%Z) by (unfold e1; rewrite fexp_eq; lia).
  set (n := (e1 - ex)%Z) in *.
  assert (Hn : (0 <= n)%Z) by (unfold n; lia).
  fold r in Hr. rewrite Hr.
  assert (HDq : 0 < inject_Z D).
  { change 0 with (inject_Z 0). rewrite <- Zlt_Qlt. exact HD. }
  assert (Hy : inject_Z N / inject_Z D * inject_Z D == inject_Z N)
    by (apply Qdiv_mult_cancel; exact HDq).
  assert (Hy0 : 0 <= inject_Z N / inject_Z D).
  { destruct Hdesc as (H0 & [Hlo _] & _).
    rewrite shr_record_of_loc_m in *.
    assert (0 <= N)%Z by nia.
    apply Qle_shift_div_l; trivial.
    rewrite Qmult_0_l. change 0 with (inject_Z 0). rewrite <- Zle_Qle. trivial. }
  unfold X. clear X.
  generalize dependent (inject_Z N / inject_Z D). intros y Hy Hy0.
  set (P := pow2 n).
  assert (HP : 0 < P) by apply pow2_pos.
  assert (HPn : inject_Z (2 ^ n) == P) by (apply pow2_Z; exact Hn).
  assert (He : pow2 e1 == pow2 ex * P).
  { unfold P. rewrite <- pow2_add. replace (ex + n)%Z with e1 by (unfold n; lia).
    reflexivity. }
  assert (Hex0 : 0 < pow2 ex) by apply pow2_pos.
  assert (HX0 : 0 <= y * pow2 ex) by nra.
  (* half a unit, over D *)
  assert (Hq : - P <= 2 * (inject_Z m * P - y) <= P).
  { destruct Hhalf as [H1 H2].
    rewrite Zle_Qle in H1, H2.
    unfold Z.sub in H1, H2.
    push_inject H1. push_inject H2.
    rewrite HPn in H1. rewrite HPn in H2.
    apply (half_unit_Q _ _ (inject_Z D) _ (inject_Z N)); trivial. }
  (* a large significand, over D *)
  assert (Hrel : (e1 = -1074)%Z \/ pow2 (52 + e1) <= y * pow2 ex).
  { destruct Hbig as [H|[_ H]]; [left; exact H | right].
    rewrite Zle_Qle in H.
    push_inject H. rewrite HPn in H.
    change (inject_Z (2 ^ 52)) with (pow2 52) in H.
    assert (pow2 52 * P <= y).
    { apply (large_Q _ _ (inject_Z D) _ (inject_Z N)); trivial. }
    rewrite pow2_add, He. nra. }
  split; [apply pack_not_nan|].
  split; [apply pack_valid; trivial; lia|].
  split.
  - intros HX. apply pack_finite; [lia|].
    destruct Hrel as [->|H]; [lia|].
    destruct (Z_le_gt_dec e1 970) as [|Hgt]; trivial.
    assert (pow2 1023 <= pow2 (52 + e1)) by (apply pow2_le; lia).
    lra.
  - intros Hfin. rewrite (pack_value s m e1 ltac:(lia) Hfin).
    assert (Hb : pow2 (e1 - 1) <= y * pow2 ex * pow2 (-53) + pow2 (-1075)).
    { assert (Hu : 0 < pow2 (-53)) by apply pow2_pos.
      assert (Ht : 0 < pow2 (-1075)) by apply pow2_pos.
      destruct Hrel as [->|Hl]; [change (-1074 - 1)%Z with (-1075)%Z; nra|].
      assert (E : pow2 (e1 - 1) == pow2 (52 + e1) * pow2 (-53)).
      { rewrite <- pow2_add. replace (52 + e1 + -53)%Z with (e1 - 1)%Z by lia.
        reflexivity. }
      rewrite E. nra. }
    assert (Hh : pow2 e1 == 2 * pow2 (e1 - 1)) by apply pow2_pred.
    apply Qabs_Qle_condition.
    assert (Hd : - pow2 (e1 - 1) <= inject_Z m * pow2 e1 - y * pow2 ex
                 <= pow2 (e1 - 1)).
    { rewrite He in Hh |- *.
      destruct Hq as [Hq1 Hq2]. split; nra. }
    unfold sign_of. destruct s; lra.
Qed.

(** *** The operations *)

Lemma valid_finite (s : bool) (m : positive) (e : Z) :
  valid (S754_finite s m e) ->
  (-1074 <= e <= 971)%Z
  /\ (Zdigits2 (Z.pos m) <= 53)%Z
  /\ (e = -1074 \/ Zdigits2 (Z.pos m) = 53)%Z.
Proof.
  unfold valid, valid_binary, bounded, canonical_mantissa.
  rewrite andb_true_iff, Z.eqb_eq, Z.leb_le.
  change (SpecFloat.fexp prec emax (Z.pos (digits2_pos m) + e))
    with (Z.max (Z.pos (digits2_pos m) + e - 53) (-1074)).
  change (emax - prec)%Z with 971%Z.
  cbn [Zdigits2]. lia.
Qed.

Lemma Zdigits2_mul (a b : Z) :
  (0 < a)%Z -> (0 < b)%Z ->
  (Zdigits2 a + Zdigits2 b - 1 <= Zdigits2 (a * b))%Z.
Proof.
  intros Ha Hb.
  destruct (Zdigits2_bounds a Ha) as [Hla _].
  destruct (Zdigits2_bounds b Hb) as [Hlb _].
  pose proof (Zdigits2_pos a Ha). pose proof (Zdigits2_pos b Hb).
  assert (2 ^ (Zdigits2 a - 1 + (Zdigits2 b - 1)) <= a * b)%Z.
  { rewrite Z.pow_add_r by lia.
    assert (0 < 2 ^ (Zdigits2 a - 1))%Z by (apply Z.pow_pos_nonneg; lia).
    assert (0 < 2 ^ (Zdigits2 b - 1))%Z by (apply Z.pow_pos_nonneg; lia).
    nia. }
  apply Zdigits2_ge in H1; lia.
Qed.

Lemma exact_describes (N : Z) :
  (0 <= N)%Z -> describes N 1 (shr_record_of_loc N loc_Exact).
Proof.
  intros H. unfold describes. cbn [shr_record_of_loc shr_m shr_r shr_s].
  repeat split; try lia; try discriminate.
Qed.

Lemma sign_of_xorb (a b : bool) :
  sign_of (xorb a b) == sign_of a * sign_of b.
Proof. destruct a, b; reflexivity. Qed.

Lemma Qabs_sign (s : bool) (x : Q) : 0 <= x -> Qabs (sign_of s * x) == x.
Proof.
  intros H. destruct s; unfold sign_of.
  - setoid_replace (-1 * x) with (- x) by ring.
    rewrite Qabs_opp. apply Qabs_pos. trivial.
  - setoid_replace (1 * x) with x by ring. apply Qabs_pos. trivial.
Qed.

Lemma inject_pos_pos (m : positive) : 0 < inject_Z (Z.pos m).
Proof. change 0 with (inject_Z 0). rewrite <- Zlt_Qlt. lia. Qed.

Lemma exact_result (v p : Q) :
  v == p -> Qabs (v - p) <= Qabs p * pow2 (-53) + pow2 (-1075).
Proof.
  intros E. setoid_replace (v - p) with 0 by (rewrite E; ring).
  pose proof (Qabs_nonneg p). pose proof (pow2_pos (-53)).
  pose proof (pow2_pos (-1075)). change (Qabs 0) with 0. nra.
Qed.

(** The product of two binary64 values is their exact product rounded once:
    it is a binary64 value, finite below [2 ^ 1023], and then within the
    relative error [2 ^ -53] and the absolute error [2 ^ -1075]. *)
Lemma mul_error (x y : spec_float) :
  valid x -> valid y -> is_finite x = true -> is_finite y = true ->
  let p := SF2Q x * SF2Q y in
  let r := SFmul prec emax x y in
  valid r
  /\ (Qabs p < pow2 1023 -> is_finite r = true)
  /\ (is_finite r = true ->
      Qabs (SF2Q r - p) <= Qabs p * pow2 (-53) + pow2 (-1075)).
Proof.
  intros Vx Vy Fx Fy p r.
  destruct x as [sx|sx| |sx mx ex], y as [sy|sy| |sy my ey];
    try discriminate; subst p r; cbn [SFmul SF2Q];
    try (split; [reflexivity | split; [reflexivity|]]; intros _;
         apply exact_result; ring).
  - destruct (valid_finite _ _ _ Vx) as (Hex & Hdx & Hcx).
    destruct (valid_finite _ _ _ Vy) as (Hey & Hdy & Hcy).
    pose proof (Zdigits2_mul (Z.pos mx) (Z.pos my) ltac:(lia) ltac:(lia)) as Hd.
    assert (Hpre : (ex + ey <= fexp (Zdigits2 (Z.pos (mx * my)) + (ex + ey)))%Z).
    { rewrite fexp_eq, Pos2Z.inj_mul.
      pose proof (Zdigits2_pos (Z.pos mx) ltac:(lia)).
      pose proof (Zdigits2_pos (Z.pos my) ltac:(lia)). lia. }
    destruct (binary_round_aux_error (xorb sx sy) (Z.pos (mx * my)) 1
                (Z.pos (mx * my)) (ex + ey) loc_Exact ltac:(lia)
                (exact_describes (Z.pos (mx * my)) ltac:(lia)) Hpre)
      as (_ & Hv & Hf & He).
    set (X := inject_Z (Z.pos (mx * my)) / inject_Z 1 * pow2 (ex + ey)) in *.
    fold (sign_of sx) (sign_of sy).
    assert (EX : X == inject_Z (Z.pos mx) * pow2 ex
                      * (inject_Z (Z.pos my) * pow2 ey)).
    { unfold X. rewrite Pos2Z.inj_mul, inject_Z_mult, pow2_add.
      change (inject_Z 1) with 1. field. }
    assert (HX : 0 <= X).
    { rewrite EX. repeat apply Qmult_le_0_compat; apply Qlt_le_weak;
        (apply inject_pos_pos || apply pow2_pos). }
    assert (EP : sign_of sx * inject_Z (Z.pos mx) * pow2 ex
                 * (sign_of sy * inject_Z (Z.pos my) * pow2 ey)
                 == sign_of (xorb sx sy) * X).
    { rewrite EX, sign_of_xorb. ring. }
    rewrite EP, (Qabs_sign _ _ HX).
    split; [exact Hv | split; assumption].
Qed.

Lemma new_location_describes (N D q r : Z) :
  (0 < D)%Z -> (0 <= q)%Z -> N = (q * D + r)%Z -> (0 <= r < D)%Z ->
  describes N D (shr_record_of_loc q (new_location D r)).
Proof.
  intros HD Hq HN Hr. unfold describes. rewrite shr_record_of_loc_m.
  replace (N - q * D)%Z with r by lia.
  split; [exact Hq|]. split; [lia|].
  unfold new_location, new_location_even, new_location_odd.
  destruct (Z.even D) eqn:Ev.
  - destruct (Z.eqb_spec r 0) as [->|Hr0];
      [cbn [shr_record_of_loc shr_r shr_s]; split; split; intros;
       try discriminate; exfalso; lia|].
    destruct (Z.compare_spec (2 * r) D);
      cbn [shr_record_of_loc shr_r shr_s];
      split; split; intros; try discriminate; try reflexivity;
      try lia; exfalso; lia.
  - assert (Hodd : D <> (2 * r)%Z).
    { intros ->. rewrite Z.even_mul in Ev. discriminate. }
    destruct (Z.eqb_spec r 0) as [->|Hr0];
      [cbn [shr_record_of_loc shr_r shr_s]; split; split; intros;
       try discriminate; exfalso; lia|].
    destruct (Z.compare_spec (2 * r + 1) D);
      cbn [shr_record_of_loc shr_r shr_s];
      split; split; intros; try discriminate; try reflexivity;
      try lia; exfalso; lia.
Qed.

Lemma fexp_mono (a b : Z) : (a <= b)%Z -> (fexp a <= fexp b)%Z.
Proof. rewrite !fexp_eq. lia. Qed.

Lemma sign_of_div (a b : bool) :
  sign_of a / sign_of b == sign_of (xorb a b).
Proof. destruct a, b; reflexivity. Qed.

Lemma shift_case (m s : Z) :
  (0 <= s)%Z ->
  match s with
  | 0%Z => m
  | Z.pos _ => Z.shiftl m s
  | Z.neg _ => 0%Z
  end = (m * 2 ^ s)%Z.
Proof.
  intros Hs. destruct s as [|p|p]; try lia.
  apply Z.shiftl_mul_pow2. lia.
Qed.

(** The division of two finite Numbers rounds a fraction: the dividend,
    shifted, over the divisor. *)
Lemma SFdiv_finite (sx sy : bool) (mx my : positive) (ex ey : Z) :
  exists (N q e' s : Z) (lx : location),
    (0 <= s)%Z /\ N = (Z.pos mx * 2 ^ s)%Z /\ e' = (ex - ey - s)%Z
    /\ describes N (Z.pos my) (shr_record_of_loc q lx)
    /\ (e' <= fexp (Zdigits2 q + e'))%Z
    /\ SFdiv prec emax (S754_finite sx mx ex) (S754_finite sy my ey)
       = binary_round_aux prec emax (xorb sx sy) q e' lx.
Proof.
  unfold SFdiv, SFdiv_core_binary.
  set (d1 := Zdigits2 (Z.pos mx)). set (d2 := Zdigits2 (Z.pos my)).
  set (e' := Z.min (SpecFloat.fexp prec emax (d1 + ex - (d2 + ey))) (ex - ey)).
  set (s := (ex - ey - e')%Z).
  assert (Hs : (0 <= s)%Z) by (unfold s, e'; lia).
  set (m' := match s with
             | 0%Z => Z.pos mx
             | Z.pos _ => Z.shiftl (Z.pos mx) s
             | Z.neg _ => 0%Z
             end).
  assert (Hm' : m' = (Z.pos mx * 2 ^ s)%Z).
  { unfold m'. apply shift_case. exact Hs. }
  clearbody m'.
  pose proof (Z_div_mod m' (Z.pos my) ltac:(lia)) as Hdm.
  destruct (Z.div_eucl m' (Z.pos my)) as [q r]. destruct Hdm as [Hdm Hr].
  assert (H2s : (0 < 2 ^ s)%Z) by (apply Z.pow_pos_nonneg; lia).
  assert (Hq : (0 <= q)%Z) by nia.
  exists m', q, e', s, (new_location (Z.pos my) r).
  split; [exact Hs|]. split; [exact Hm'|]. split; [unfold s; lia|].
  split; [apply new_location_describes; lia|].
  split; [|reflexivity].
  assert (Hdq : (d1 + s - d2 <= Zdigits2 q)%Z).
  { pose proof (Zdigits2_nonneg q).
    destruct (Z_lt_le_dec (d1 + s - d2 - 1) 0) as [|Hj]; [lia|].
    destruct (Zdigits2_bounds (Z.pos mx) ltac:(lia)) as [Hl1 _].
    destruct (Zdigits2_bounds (Z.pos my) ltac:(lia)) as [_ Hu2].
    fold d1 in Hl1. fold d2 in Hu2.
    pose proof (Zdigits2_pos (Z.pos mx) ltac:(lia)) as Hp1. fold d1 in Hp1.
    pose proof (Zdigits2_pos (Z.pos my) ltac:(lia)) as Hp2. fold d2 in Hp2.
    assert (E : (2 ^ (d1 - 1) * 2 ^ s = 2 ^ (d1 + s - d2 - 1) * 2 ^ d2)%Z).
    { rewrite <- !Z.pow_add_r by lia. f_equal. lia. }
    assert (0 < 2 ^ (d1 + s - d2 - 1))%Z by (apply Z.pow_pos_nonneg; lia).
    assert (2 ^ (d1 + s - d2 - 1) <= q)%Z by nia.
    apply Zdigits2_ge in H1; lia. }
  apply Z.le_trans with (fexp (d1 + ex - (d2 + ey))).
  - unfold e'. apply Z.le_min_l.
  - apply fexp_mono. unfold s in Hdq. lia.
Qed.

(** The quotient of two finite Numbers is their exact quotient rounded
    once. *)
Lemma div_error (x y : spec_float) (sy : bool) (my : positive) (ey : Z) :
  is_finite x = true -> y = S754_finite sy my ey ->
  let p := SF2Q x / SF2Q y in
  let r := SFdiv prec emax x y in
  valid r
  /\ (Qabs p < pow2 1023 -> is_finite r = true)
  /\ (is_finite r = true ->
      Qabs (SF2Q r - p) <= Qabs p * pow2 (-53) + pow2 (-1075)).
Proof.
  intros Fx -> p r.
  destruct x as [sx|sx| |sx mx ex]; try discriminate; subst p r.
  - cbn [SFdiv SF2Q]. split; [reflexivity | split; [reflexivity|]].
    intros _. apply exact_result. unfold Qdiv. ring.
  - destruct (SFdiv_finite sx sy mx my ex ey)
      as (m' & q & e' & s & lx & Hs & Hm' & He' & Hdesc & Hpre & ->).
    destruct (binary_round_aux_error (xorb sx sy) m' (Z.pos my) q e' lx
                ltac:(lia) Hdesc Hpre)
      as (_ & Hv & Hf & He).
    set (X := inject_Z m' / inject_Z (Z.pos my) * pow2 e') in *.
    cbn [SF2Q]. fold (sign_of sx) (sign_of sy).
    pose proof (inject_pos_pos mx) as Hmx.
    pose proof (inject_pos_pos my) as Hmy.
    pose proof (pow2_pos ex) as Hpx. pose proof (pow2_pos ey) as Hpy.
    assert (Hn1 : ~ pow2 ey == 0) by (intros E; rewrite E in Hpy; discriminate).
    assert (Hn2 : ~ inject_Z (Z.pos my) == 0) by discriminate.
    assert (Hn3 : ~ sign_of sy == 0) by (destruct sy; discriminate).
    assert (Epow : pow2 ex == pow2 s * pow2 e' * pow2 ey).
    { rewrite <- !pow2_add. replace (s + e' + ey)%Z with ex by lia.
      reflexivity. }
    assert (EX : X == inject_Z (Z.pos mx) * pow2 ex
                      / (inject_Z (Z.pos my) * pow2 ey)).
    { unfold X. rewrite Hm', inject_Z_mult, (pow2_Z s Hs), Epow.
      field. split; assumption. }
    assert (HX : 0 <= X).
    { rewrite EX. apply Qle_shift_div_l.
      - apply Qmult_lt_0_compat; trivial.
      - rewrite Qmult_0_l.
        apply Qmult_le_0_compat; apply Qlt_le_weak; trivial. }
    assert (EP : sign_of sx * inject_Z (Z.pos mx) * pow2 ex
                 / (sign_of sy * inject_Z (Z.pos my) * pow2 ey)
                 == sign_of (xorb sx sy) * X).
    { rewrite EX, <- sign_of_div. field. repeat split; assumption. }
    rewrite EP, (Qabs_sign _ _ HX).
    split; [exact Hv | split; assumption].
Qed.

Lemma shl_align_spec (mx : positive) (ex ex' : Z) :
  snd (shl_align mx ex ex') = Z.min ex ex'
  /\ Z.pos (fst (shl_align mx ex ex'))
     = (Z.pos mx * 2 ^ (ex - Z.min ex ex'))%Z.
Proof.
  unfold shl_align. destruct (ex' - ex)%Z as [|d|d] eqn:E; cbn [fst snd].
  - replace (Z.min ex ex') with ex by lia. rewrite Z.sub_diag. split; lia.
  - replace (Z.min ex ex') with ex by lia. rewrite Z.sub_diag. split; lia.
  - replace (Z.min ex ex') with ex' by lia. split; [reflexivity|].
    change (Pos.iter xO mx d) with (shift_pos d mx).
    rewrite shift_pos_correct.
    change (Z.pow_pos 2 d) with (2 ^ Z.pos d)%Z.
    replace (ex - ex')%Z with (Z.pos d) by lia. ring.
Qed.

Lemma Zdigits2_shift (m k : Z) :
  (0 < m)%Z -> (0 <= k)%Z -> Zdigits2 (m * 2 ^ k) = (Zdigits2 m + k)%Z.
Proof.
  intros Hm Hk. destruct (Zdigits2_bounds m Hm) as [Hl Hu].
  pose proof (Zdigits2_pos m Hm) as Hp.
  assert (0 < 2 ^ k)%Z by (apply Z.pow_pos_nonneg; lia).
  apply Zdigits2_unique; [lia|].
  replace (Zdigits2 m + k - 1)%Z with (Zdigits2 m - 1 + k)%Z by lia.
  rewrite !Z.pow_add_r by lia. nia.
Qed.

(** [binary_round] rounds [mx * 2 ^ ex] once. *)
Lemma binary_round_error (s : bool) (mx : positive) (ex : Z) :
  let X := inject_Z (Z.pos mx) * pow2 ex in
  let r := binary_round prec emax s mx ex in
  valid r
  /\ (X < pow2 1023 -> is_finite r = true)
  /\ (is_finite r = true ->
      Qabs (SF2Q r - sign_of s * X) <= X * pow2 (-53) + pow2 (-1075)).
Proof.
  intros X r. subst r. unfold binary_round.
  set (e0 := SpecFloat.fexp prec emax (Z.pos (digits2_pos mx) + ex)).
  destruct (shl_align_spec mx ex e0) as [Hez Hmz].
  destruct (shl_align mx ex e0) as [mz ez]. cbn [fst snd] in Hez, Hmz.
  assert (Hk : (0 <= ex - ez)%Z) by lia.
  assert (Hpre : (ez <= fexp (Zdigits2 (Z.pos mz) + ez))%Z).
  { rewrite Hmz, <- Hez, Zdigits2_shift by lia.
    replace (Zdigits2 (Z.pos mx) + (ex - ez) + ez)%Z
      with (Z.pos (digits2_pos mx) + ex)%Z by (cbn [Zdigits2]; lia).
    fold e0. change (fexp (Z.pos (digits2_pos mx) + ex)) with e0. lia. }
  destruct (binary_round_aux_error s (Z.pos mz) 1 (Z.pos mz) ez loc_Exact
              ltac:(lia) (exact_describes (Z.pos mz) ltac:(lia)) Hpre)
    as (_ & Hv & Hf & He).
  assert (EX : inject_Z (Z.pos mz) / inject_Z 1 * pow2 ez == X).
  { unfold X. rewrite Hmz, <- Hez, inject_Z_mult, (pow2_Z _ Hk).
    change (inject_Z 1) with 1.
    setoid_replace (pow2 ex) with (pow2 (ex - ez) * pow2 ez).
    - field.
    - rewrite <- pow2_add. replace (ex - ez + ez)%Z with ex by lia. reflexivity. }
  rewrite EX in Hf, He. split; [exact Hv | split; assumption].
Qed.

Lemma sign_of_false (x : Q) : sign_of false * x == x.
Proof. unfold sign_of. ring. Qed.

Lemma sign_of_true (x : Q) : sign_of true * x == - x.
Proof. unfold sign_of. ring. Qed.

(** [binary_normalize] rounds [m * 2 ^ e] once. *)
Lemma binary_normalize_error (m e : Z) :
  let p := inject_Z m * pow2 e in
  let r := binary_normalize prec emax m e false in
  valid r
  /\ (Qabs p < pow2 1023 -> is_finite r = true)
  /\ (is_finite r = true ->
      Qabs (SF2Q r - p) <= Qabs p * pow2 (-53) + pow2 (-1075)).
Proof.
  intros p r. subst p r. destruct m as [|m|m]; cbn [binary_normalize].
  - split; [reflexivity | split; [reflexivity|]]. intros _.
    apply exact_result. cbn [SF2Q]. change (inject_Z 0) with 0. ring.
  - destruct (binary_round_error false m e) as (Hv & Hf & He).
    assert (H0 : 0 <= inject_Z (Z.pos m) * pow2 e).
    { apply Qmult_le_0_compat; apply Qlt_le_weak;
        [apply inject_pos_pos | apply pow2_pos]. }
    rewrite sign_of_false in He. rewrite (Qabs_pos _ H0).
    split; [exact Hv | split; assumption].
  - destruct (binary_round_error true m e) as (Hv & Hf & He).
    assert (H0 : 0 <= inject_Z (Z.pos m) * pow2 e).
    { apply Qmult_le_0_compat; apply Qlt_le_weak;
        [apply inject_pos_pos | apply pow2_pos]. }
    assert (E : inject_Z (Z.neg m) * pow2 e
                == - (inject_Z (Z.pos m) * pow2 e)).
    { change (Z.neg m) with (- Z.pos m)%Z. rewrite inject_Z_opp. ring. }
    rewrite sign_of_true in He. rewrite E, Qabs_opp, (Qabs_pos _ H0).
    split; [exact Hv | split; assumption].
Qed.

Lemma cond_Zopp_value (s : bool) (m : Z) :
  inject_Z (cond_Zopp s m) == sign_of s * inject_Z m.
Proof.
  destruct s; unfold cond_Zopp, sign_of; [rewrite inject_Z_opp|]; ring.
Qed.

Lemma aligned_value (mx : positive) (ex ez : Z) :
  (ez <= ex)%Z ->
  inject_Z (Z.pos (fst (shl_align mx ex ez))) * pow2 ez
  == inject_Z (Z.pos mx) * pow2 ex.
Proof.
  intros H. destruct (shl_align_spec mx ex ez) as [_ E]. rewrite E.
  replace (Z.min ex ez) with ez by lia.
  rewrite inject_Z_mult, pow2_Z by lia.
  setoid_replace (pow2 ex) with (pow2 (ex - ez) * pow2 ez).
  - ring.
  - rewrite <- pow2_add. replace (ex - ez + ez)%Z with ex by lia. reflexivity.
Qed.

(** The sum of two binary64 values is their exact sum rounded once. *)
Lemma add_error (x y : spec_float) :
  valid x -> valid y -> is_finite x = true -> is_finite y = true ->
  let p := SF2Q x + SF2Q y in
  let r := SFadd prec emax x y in
  valid r
  /\ (Qabs p < pow2 1023 -> is_finite r = true)
  /\ (is_finite r = true ->
      Qabs (SF2Q r - p) <= Qabs p * pow2 (-53) + pow2 (-1075)).
Proof.
  intros Vx Vy Fx Fy p r.
  destruct x as [sx|sx| |sx mx ex], y as [sy|sy| |sy my ey];
    try discriminate; subst p r.
  - destruct sx, sy; cbn [SFadd SF2Q];
      (split; [reflexivity | split; [reflexivity|]]; intros _;
       apply exact_result; ring).
  - cbn [SFadd]. split; [exact Vy | split; [reflexivity|]]. intros _.
    apply exact_result. cbn [SF2Q]. ring.
  - cbn [SFadd]. split; [exact Vx | split; [reflexivity|]]. intros _.
    apply exact_result. cbn [SF2Q]. ring.
  - cbn [SFadd]. set (ez := Z.min ex ey).
    set (S := (cond_Zopp sx (Z.pos (fst (shl_align mx ex ez)))
               + cond_Zopp sy (Z.pos (fst (shl_align my ey ez))))%Z).
    destruct (binary_normalize_error S ez) as (Hv & Hf & He).
    assert (E : inject_Z S * pow2 ez
                == SF2Q (S754_finite sx mx ex) + SF2Q (S754_finite sy my ey)).
    { unfold S. rewrite inject_Z_plus, !cond_Zopp_value. cbn [SF2Q].
      fold (sign_of sx) (sign_of sy).
      pose proof (aligned_value mx ex ez ltac:(unfold ez; lia)) as A1.
      pose proof (aligned_value my ey ez ltac:(unfold ez; lia)) as A2.
      match goal with
      | |- (?a * ?u + ?b * ?v) * ?z == _ =>
          setoid_replace ((a * u + b * v) * z)
            with (a * (u * z) + b * (v * z)) by ring
      end.
      rewrite A1, A2. ring. }
    rewrite E in Hf, He. split; [exact Hv | split; assumption].
Qed.

(** A binary64 value lies below [2 ^ 1024]. *)
Lemma valid_bound (x : spec_float) :
  valid x -> Qabs (SF2Q x) < pow2 1024.
Proof.
  destruct x as [s|s| |s m e]; intros V; try reflexivity.
  destruct (valid_finite _ _ _ V) as (He & Hd & _).
  cbn [SF2Q]. fold (sign_of s).
  setoid_replace (sign_of s * inject_Z (Z.pos m) * pow2 e)
    with (sign_of s * (inject_Z (Z.pos m) * pow2 e)) by ring.
  pose proof (inject_pos_pos m) as Hm. pose proof (pow2_pos e) as Hp.
  rewrite Qabs_sign by (apply Qmult_le_0_compat; apply Qlt_le_weak; trivial).
  destruct (Zdigits2_bounds (Z.pos m) ltac:(lia)) as [_ Hu].
  assert (Hm53 : (Z.pos m < 2 ^ 53)%Z).
  { assert (2 ^ Zdigits2 (Z.pos m) <= 2 ^ 53)%Z
      by (apply Z.pow_le_mono_r; lia).
    lia. }
  rewrite Zlt_Qlt in Hm53. change (inject_Z (2 ^ 53)) with (pow2 53) in Hm53.
  assert (Hle : pow2 e <= pow2 971) by (apply pow2_le; lia).
  assert (E : pow2 1024 == pow2 53 * pow2 971) by reflexivity.
  rewrite E. pose proof (pow2_pos 53). nra.
Qed.

(** [parseFloat] returns binary64 values. *)
Lemma of_decimal_valid (neg : bool) (m : positive) (e10 : Z) :
  valid (of_decimal neg m e10).
Proof.
  unfold of_decimal. destruct (0 <=? e10)%Z.
  - apply binary_normalize_error.
  - eapply div_error; reflexivity.
Qed.

Lemma parseFloat_valid (s : string) : valid (parseFloat s).
Proof.
  unfold parseFloat. destruct (read_sign (trim_start s)) as [neg r].
  destruct (String.prefix "Infinity" r); [reflexivity|].
  destruct (read_decimal r) as [[[|m|m] e10]|]; try reflexivity.
  apply of_decimal_valid.
Qed.

Lemma or_number_valid (x : number) : valid x -> valid (or_number x zero).
Proof. unfold or_number. destruct (truthy_number x); trivial. reflexivity. Qed.

(** [x || 0] has the value of [x]. *)
Lemma or_number_value (x : number) : SF2Q (or_number x zero) == SF2Q x.
Proof. destruct x; reflexivity. Qed.

Lemma or_number_finite (x : number) :
  isNaN x = false -> is_finite (or_number x zero) = is_finite x.
Proof. destruct x; try reflexivity. discriminate. Qed.

(** A finite Number above 0 is a positive finite value. *)
Lemma gt_zero_finite (x : number) :
  gt x zero = true -> is_finite x = true ->
  exists m e, x = S754_finite false m e.
Proof.
  destruct x as [s|s| |s m e]; try discriminate.
  destruct s; [discriminate|]. eauto.
Qed.

(** Numbers that are [==] are the same Number, or are both zeros. *)
Lemma num_eq_cases (x y : number) :
  num_eq x y = true ->
  x = y \/ (exists s t, x = S754_zero s /\ y = S754_zero t).
Proof.
  unfold num_eq, SFeqb.
  destruct x as [sx|sx| |sx mx ex], y as [sy|sy| |sy my ey]; simpl;
    try discriminate; try (destruct sx; discriminate);
    try (destruct sy; discriminate).
  - right. eauto.
  - destruct sx, sy; try discriminate; left; reflexivity.
  - destruct sx, sy; try discriminate;
      destruct (ex ?= ey)%Z eqn:He; try discriminate;
      apply Z.compare_eq in He; subst ey;
      destruct (Pos.compare_cont Eq mx my) eqn:Hm; try discriminate;
      apply Pos.compare_eq in Hm; subst my; left; reflexivity.
Qed.

End Binary64Facts.

(** ** Printing a Number and reading it back *)

Import Binary64Facts.

Lemma same_value_eq (x y : number) : same_value x y = true -> x = y.
Proof.
  destruct x as [a|a| |a m e], y as [b|b| |b n f]; simpl; try discriminate;
    try reflexivity.
  - intros H. apply Bool.eqb_prop in H. congruence.
  - intros H. apply Bool.eqb_prop in H. congruence.
  - rewrite !andb_true_iff, Pos.eqb_eq, Z.eqb_eq.
    intros [[H1 H2] H3]. apply Bool.eqb_prop in H1. congruence.
Qed.

Lemma num_eq_refl (s : bool) (m : positive) (e : Z) :
  num_eq (S754_finite s m e) (S754_finite s m e) = true.
Proof.
  unfold num_eq, SFeqb, SFcompare.
  rewrite Z.compare_refl, Pos.compare_cont_refl. destruct s; reflexivity.
Qed.

Lemma valid_canonical (s : bool) (m : positive) (e : Z) :
  valid (S754_finite s m e) -> fexp (Zdigits2 (Z.pos m) + e) = e.
Proof.
  intros V. destruct (valid_finite _ _ _ V) as (He & Hd & Hc).
  rewrite fexp_eq. pose proof (Zdigits2_pos (Z.pos m) ltac:(lia)). lia.
Qed.

(** A fraction that is a binary64 value is rounded to that value. *)
Lemma binary_round_aux_exact (s : bool) (N D mx ex : Z) (lx : location)
    (m : positive) (e t : Z) :
  0 < D -> describes N D (shr_record_of_loc mx lx) ->
  ex <= fexp (Zdigits2 mx + ex) ->
  valid (S754_finite s m e) ->
  0 <= ex + t -> 0 <= e + t ->
  N * 2 ^ (ex + t) = Z.pos m * D * 2 ^ (e + t) ->
  binary_round_aux prec emax s mx ex lx = S754_finite s m e.
Proof.
  intros HD Hdesc Hpre V Ht1 Ht2 HN.
  pose proof (valid_canonical _ _ _ V) as Hcan.
  destruct (valid_finite _ _ _ V) as (He & Hd & Hc).
  pose proof Hdesc as (Hmx & [Hlo Hhi] & _).
  rewrite shr_record_of_loc_m in Hmx, Hlo, Hhi.
  assert (Hle : ex <= e).
  { destruct (Z_le_gt_dec ex e) as [|Hgt]; trivial. exfalso.
    assert (E : 2 ^ (ex + t) = 2 ^ (ex - e) * 2 ^ (e + t)).
    { rewrite <- Z.pow_add_r by lia. f_equal. lia. }
    assert (P1 : 0 < 2 ^ (e + t)) by (apply Z.pow_pos_nonneg; lia).
    assert (P2 : 0 < 2 ^ (ex - e)) by (apply Z.pow_pos_nonneg; lia).
    assert (HN' : N * 2 ^ (ex - e) = Z.pos m * D).
    { rewrite E in HN. nia. }
    assert (Hm : mx * 2 ^ (ex - e) <= Z.pos m) by nia.
    destruct (Z.eq_dec mx 0) as [->|Hnz].
    - simpl Zdigits2 in Hpre. rewrite fexp_eq in Hpre. lia.
    - pose proof (Zdigits2_shift mx (ex - e) ltac:(lia) ltac:(lia)) as Hs.
      destruct (Zdigits2_bounds (Z.pos m) ltac:(lia)) as [_ Hu].
      pose proof (Zdigits2_le (mx * 2 ^ (ex - e)) (Zdigits2 (Z.pos m))
                    ltac:(nia) ltac:(apply Zdigits2_nonneg) ltac:(lia)) as Hdl.
      rewrite Hs in Hdl.
      pose proof (fexp_mono (Zdigits2 mx + ex) (Zdigits2 (Z.pos m) + e)
                    ltac:(lia)).
      lia. }
  set (k := e - ex) in *.
  assert (E : 2 ^ (e + t) = 2 ^ k * 2 ^ (ex + t)).
  { rewrite <- Z.pow_add_r by (unfold k; lia). f_equal. unfold k. lia. }
  assert (P1 : 0 < 2 ^ (ex + t)) by (apply Z.pow_pos_nonneg; lia).
  assert (P2 : 0 < 2 ^ k) by (apply Z.pow_pos_nonneg; unfold k; lia).
  assert (HN' : N = Z.pos m * 2 ^ k * D).
  { rewrite E in HN. nia. }
  assert (Hmx' : mx = Z.pos m * 2 ^ k) by nia.
  assert (Hdig : Zdigits2 mx + ex = Zdigits2 (Z.pos m) + e).
  { rewrite Hmx', Zdigits2_shift by (unfold k; lia). unfold k. lia. }
  destruct (binary_round_aux_cases s N D mx ex lx HD Hdesc Hpre)
    as (m2 & Hm2 & Hhalf & _ & Hr).
  rewrite Hdig, Hcan in Hhalf, Hr. fold k in Hhalf.
  rewrite Hr.
  assert (m2 = Z.pos m) by nia. subst m2.
  assert (Hm53 : Z.pos m < 2 ^ 53).
  { destruct (Zdigits2_bounds (Z.pos m) ltac:(lia)) as [_ Hu].
    assert (2 ^ Zdigits2 (Z.pos m) <= 2 ^ 53) by (apply Z.pow_le_mono_r; lia).
    lia. }
  unfold pack.
  destruct (Z.eqb_spec (Z.pos m) 0); [lia|].
  destruct (Z.eqb_spec (Z.pos m) (2 ^ 53)); [lia|].
  destruct (Z.leb_spec e 971); [reflexivity | lia].
Qed.

(** An integer that is a binary64 value is read as that value. *)
Lemma binary_round_exact (s : bool) (M m : positive) (e : Z) :
  valid (S754_finite s m e) -> 0 <= e -> Z.pos M = Z.pos m * 2 ^ e ->
  binary_round prec emax s M 0 = S754_finite s m e.
Proof.
  intros V He HM. unfold binary_round.
  pose proof (valid_canonical _ _ _ V) as Hcan.
  assert (Hd : Zdigits2 (Z.pos M) = Zdigits2 (Z.pos m) + e).
  { rewrite HM. apply Zdigits2_shift; lia. }
  set (e0 := SpecFloat.fexp prec emax (Z.pos (digits2_pos M) + 0)).
  assert (He0 : e0 = e).
  { unfold e0. change (Z.pos (digits2_pos M)) with (Zdigits2 (Z.pos M)).
    rewrite Hd, Z.add_0_r. exact Hcan. }
  destruct (shl_align_spec M 0 e0) as [Hez Hmz].
  destruct (shl_align M 0 e0) as [mz ez]. cbn [fst snd] in Hez, Hmz.
  replace (Z.min 0 e0) with 0 in * by lia. subst ez.
  rewrite Z.sub_0_r, Z.pow_0_r, Z.mul_1_r in Hmz.
  apply (binary_round_aux_exact s (Z.pos mz) 1 (Z.pos mz) 0 loc_Exact m e 0);
    trivial; try lia.
  - apply exact_describes. lia.
  - rewrite Hmz, Hd, Z.add_0_r. change (fexp (Zdigits2 (Z.pos m) + e)) with
      (fexp (Zdigits2 (Z.pos m) + e)). rewrite Hcan. lia.
  - rewrite Hmz, HM, !Z.add_0_r. change (2 ^ 0) with 1. ring.
Qed.

(** A decimal fraction that is a binary64 value is read as that value. *)
Lemma div_exact (s : bool) (M T m : positive) (e : Z) :
  valid (S754_finite s m e) -> e < 0 ->
  Z.pos M = Z.pos m * 5 ^ (- e) -> Z.pos T = 10 ^ (- e) ->
  div (S754_finite s M 0) (S754_finite false T 0) = S754_finite s m e.
Proof.
  intros V He HM HT. unfold div.
  destruct (SFdiv_finite s false M T 0 0)
    as (N & q & e' & s0 & lx & Hs0 & HN & He' & Hdesc & Hpre & ->).
  replace (xorb s false) with s by (destruct s; reflexivity).
  apply (binary_round_aux_exact s N (Z.pos T) q e' lx m e (s0 - e));
    trivial; try lia.
  rewrite HN, HM, HT, He'.
  replace (0 - 0 - s0 + (s0 - e)) with (- e) by lia.
  replace (e + (s0 - e)) with s0 by lia.
  change 10 with (2 * 5). rewrite Z.pow_mul_l. ring.
Qed.

(** Digits. *)

Lemma digit_cases (d : Z) :
  0 <= d <= 9 ->
  d = 0 \/ d = 1 \/ d = 2 \/ d = 3 \/ d = 4 \/ d = 5 \/ d = 6 \/ d = 7
  \/ d = 8 \/ d = 9.
Proof. lia. Qed.

Ltac each_digit d H :=
  destruct (digit_cases d H) as [->|[->|[->|[->|[->|[->|[->|[->|[->| ->]]]]]]]]].

Lemma digit_of_char (d : Z) : 0 <= d <= 9 -> digit_of (digit_char d) = Some d.
Proof. intros H. each_digit d H; reflexivity. Qed.

Lemma append_assoc (a b c : string) : (a ++ b) ++ c = a ++ (b ++ c).
Proof. induction a as [|x a IH]; [reflexivity | cbn; rewrite IH; reflexivity]. Qed.

Lemma append_nil_r (a : string) : a ++ "" = a.
Proof. induction a as [|x a IH]; [reflexivity | cbn; rewrite IH; reflexivity]. Qed.

Lemma digits_of_app (fuel : nat) (z : Z) (acc : string) :
  digits_of fuel z acc = digits_of fuel z "" ++ acc.
Proof.
  revert z acc. induction fuel as [|f IH]; intros z acc; [reflexivity|].
  cbn [digits_of]. destruct (z <? 10); [reflexivity|].
  rewrite IH, (IH _ (String _ "")), append_assoc. reflexivity.
Qed.

Lemma digits_of_S (fuel : nat) (z : Z) (acc : string) :
  digits_of (S fuel) z acc
  = if z <? 10 then String (digit_char (z mod 10)) acc
    else digits_of fuel (z / 10) (String (digit_char (z mod 10)) acc).
Proof. reflexivity. Qed.

(** The digits of [z] start with a digit. *)
Lemma digits_of_head (fuel : nat) (z : Z) (acc : string) :
  0 <= z ->
  exists d r, 0 <= d <= 9 /\ digits_of (S fuel) z acc = String (digit_char d) r.
Proof.
  revert z acc. induction fuel as [|f IH]; intros z acc Hz.
  - exists (z mod 10), acc. split; [pose proof (Z.mod_pos_bound z 10); lia|].
    cbn [digits_of]. destruct (z <? 10); reflexivity.
  - rewrite digits_of_S. destruct (z <? 10).
    + exists (z mod 10), acc.
      split; [pose proof (Z.mod_pos_bound z 10); lia | reflexivity].
    + apply (IH (z / 10)). apply Z.div_pos; lia.
Qed.

(** Reading the digits of [z] pushes [z] onto the value read so far. *)
Lemma read_digits_of (fuel : nat) (z : Z) :
  0 <= z < 10 ^ Z.of_nat (S fuel) ->
  exists L, 0 < L /\ forall acc a c,
    read_digits (digits_of (S fuel) z acc) a c
    = read_digits acc (a * 10 ^ L + z) (c + L).
Proof.
  revert z. induction fuel as [|f IH]; intros z Hz.
  - exists 1. split; [lia|]. intros acc a c.
    change (10 ^ Z.of_nat 1) with 10 in Hz.
    rewrite digits_of_S. destruct (Z.ltb_spec z 10); [|lia].
    cbn [read_digits]. rewrite Z.mod_small by lia.
    rewrite digit_of_char by lia. f_equal. lia.
  - destruct (Z.ltb_spec z 10) as [Hlt|Hge].
    + exists 1. split; [lia|]. intros acc a c.
      rewrite digits_of_S. destruct (Z.ltb_spec z 10); [|lia].
      cbn [read_digits]. rewrite Z.mod_small by lia.
      rewrite digit_of_char by lia. f_equal. lia.
    + assert (Hq : 0 <= z / 10 < 10 ^ Z.of_nat (S f)).
      { split; [apply Z.div_pos; lia|].
        apply Z.div_lt_upper_bound; [lia|].
        rewrite <- Z.pow_succ_r by lia. rewrite <- Nat2Z.inj_succ. lia. }
      destruct (IH _ Hq) as (L & HL & Hread).
      exists (L + 1). split; [lia|]. intros acc a c.
      rewrite digits_of_S. destruct (Z.ltb_spec z 10); [lia|].
      rewrite Hread. cbn [read_digits].
      pose proof (Z.mod_pos_bound z 10 ltac:(lia)).
      rewrite digit_of_char by lia. rewrite Z.pow_add_r by lia.
      f_equal; [|lia]. pose proof (Z.div_mod z 10 ltac:(lia)). lia.
Qed.

Lemma string_of_Z_fuel (z : Z) :
  0 <= z -> 0 <= z < 10 ^ Z.of_nat (S (Z.to_nat (Z.log2 z))).
Proof.
  intros Hz. split; trivial.
  pose proof (Z.log2_nonneg z) as Hl.
  rewrite Nat2Z.inj_succ, Z2Nat.id by lia.
  destruct (Z.eq_dec z 0) as [->|Hn]; [reflexivity|].
  destruct (Z.log2_spec z ltac:(lia)) as [_ Hu].
  assert (2 ^ Z.succ (Z.log2 z) <= 10 ^ Z.succ (Z.log2 z)).
  { apply Z.pow_le_mono_l. lia. }
  lia.
Qed.

Lemma read_string_of_Z (z : Z) (rest : string) :
  0 <= z ->
  exists L, 0 < L /\
    read_digits (string_of_Z z ++ rest) 0 0 = read_digits rest z L.
Proof.
  intros Hz. unfold string_of_Z.
  destruct (read_digits_of _ z (string_of_Z_fuel z Hz)) as (L & HL & Hread).
  exists L. split; trivial. rewrite <- digits_of_app, Hread. f_equal.
Qed.

Lemma string_of_Z_head (z : Z) :
  0 <= z -> exists d r, 0 <= d <= 9 /\ string_of_Z z = String (digit_char d) r.
Proof. intros Hz. apply digits_of_head. exact Hz. Qed.

(** Reading a literal. *)

Lemma read_exponent_minus (j : Z) :
  0 <= j -> read_exponent (String "e" (String "-" (string_of_Z j))) = - j.
Proof.
  intros Hj. cbn [read_exponent Ascii.eqb Bool.eqb orb read_sign].
  cbv beta iota.
  destruct (read_string_of_Z j "" Hj) as (L & HL & Hread).
  rewrite <- (append_nil_r (string_of_Z j)), Hread. cbn [read_digits].
  destruct (Z.eqb_spec L 0); [lia | reflexivity].
Qed.

Lemma digit_head_plain (d : Z) (r : string) :
  0 <= d <= 9 ->
  read_sign (trim_start (String (digit_char d) r)) = (false, String (digit_char d) r)
  /\ String.prefix "Infinity" (String (digit_char d) r) = false.
Proof. intros H. each_digit d H; split; reflexivity. Qed.

Lemma read_digits_e (rest : string) (a c : Z) :
  read_digits (String "e" rest) a c = (a, c, String "e" rest).
Proof. reflexivity. Qed.

(** A literal made of the digits of [M] and an exponent part reads as them. *)
Lemma parseFloat_literal (neg : bool) (M : positive) (tail : string) :
  tail = "" \/ (exists rest, tail = String "e" rest) ->
  parseFloat (sign_text neg ++ string_of_Z (Z.pos M) ++ tail)
  = of_decimal neg M (read_exponent tail).
Proof.
  intros Htail.
  destruct (string_of_Z_head (Z.pos M) ltac:(lia)) as (d & r & Hd & Hhead).
  destruct (read_string_of_Z (Z.pos M) tail ltac:(lia)) as (L & HL & Hread).
  destruct (digit_head_plain d (r ++ tail) Hd) as [Hsign Hinf].
  assert (Hs : read_sign (trim_start (sign_text neg ++ string_of_Z (Z.pos M) ++ tail))
               = (neg, string_of_Z (Z.pos M) ++ tail)).
  { destruct neg; cbn [sign_text append].
    - reflexivity.
    - rewrite Hhead. exact Hsign. }
  unfold parseFloat. rewrite Hs.
  assert (Hi : String.prefix "Infinity" (string_of_Z (Z.pos M) ++ tail) = false).
  { rewrite Hhead. exact Hinf. }
  rewrite Hi. unfold read_decimal. rewrite Hread.
  destruct Htail as [->|[rest ->]];
    [cbn [read_digits] | rewrite read_digits_e]; cbv beta iota;
    destruct (Z.eqb_spec L 0); try lia; reflexivity.
Qed.

(** The exact decimal expansion of a binary64 value reads back as it. *)
Lemma exact_text_reads (neg : bool) (m : positive) (e : Z) :
  valid (S754_finite neg m e) ->
  parseFloat (exact_text neg m e) = S754_finite neg m e.
Proof.
  intros V. unfold exact_text.
  destruct (Z.leb_spec 0 e) as [He|He].
  - assert (HP : 0 < Z.pos m * 2 ^ e).
    { apply Z.mul_pos_pos; [lia | apply Z.pow_pos_nonneg; lia]. }
    destruct (Z.pos m * 2 ^ e) as [|M|M] eqn:EM; try lia.
    rewrite <- (append_nil_r (string_of_Z (Z.pos M))).
    rewrite parseFloat_literal by (left; reflexivity).
    unfold of_decimal. cbn [read_exponent Z.leb Z.compare].
    rewrite Z.pow_0_r, Z.mul_1_r.
    destruct neg; cbn [binary_normalize]; apply binary_round_exact;
      trivial; symmetry; exact EM.
  - assert (HP : 0 < Z.pos m * 5 ^ (- e)).
    { apply Z.mul_pos_pos; [lia | apply Z.pow_pos_nonneg; lia]. }
    destruct (Z.pos m * 5 ^ (- e)) as [|M|M] eqn:EM; try lia.
    change ("e-" ++ string_of_Z (- e))
      with (String "e" (String "-" (string_of_Z (- e)))).
    rewrite parseFloat_literal by (right; eexists; reflexivity).
    rewrite read_exponent_minus by lia. rewrite Z.opp_involutive.
    unfold of_decimal. destruct (Z.leb_spec 0 e); [lia|].
    apply div_exact; trivial; [symmetry; exact EM|].
    assert (0 < 10 ^ (- e)) by (apply Z.pow_pos_nonneg; lia).
    rewrite Z2Pos.id; lia.
Qed.

(** The shortest digits. *)

Lemma candidate_reads (v : number) (neg : bool) (num den n k : Z) (t : string) :
  candidate v neg num den n k = Some t -> parseFloat t = v.
Proof.
  unfold candidate. destruct (scaled num den n k) as [a b].
  cbv zeta.
  destruct (same_value (parseFloat (sign_text neg ++ layout (a / b) n k)) v)
    eqn:Elo;
  destruct (negb (a mod b =? 0)); cbn [andb];
  try destruct (same_value (parseFloat (sign_text neg ++
         (if a / b + 1 =? 10 ^ k then layout (10 ^ (k - 1)) (n + 1) k
          else layout (a / b + 1) n k))) v) eqn:Ehi;
  try discriminate;
  try (destruct (2 * (a mod b) ?= b); try destruct (Z.even (a / b)));
  intros [= <-]; apply same_value_eq; assumption.
Qed.

Lemma shortest_reads (fuel : nat) (v : number) (neg : bool) (num den n k : Z)
    (t : string) :
  shortest fuel v neg num den n k = Some t -> parseFloat t = v.
Proof.
  revert k. induction fuel as [|f IH]; intros k; cbn [shortest];
    destruct (candidate v neg num den n k) eqn:E.
  - intros [= <-]. eapply candidate_reads; eassumption.
  - discriminate.
  - intros [= <-]. eapply candidate_reads; eassumption.
  - apply IH.
Qed.

(** Printing a Number and reading the text gives the Number back. *)
Lemma toString_reads (x : number) :
  valid x -> isNaN x = false -> num_eq (parseFloat (toString x)) x = true.
Proof.
  intros V Hn. destruct x as [s|s| |s m e]; try discriminate.
  - destruct s; reflexivity.
  - destruct s; reflexivity.
  - cbn [toString]. unfold toString_finite.
    destruct (ratio_of m e) as [num den].
    destruct (shortest 16 (S754_finite s m e) s num den
                (decimal_exponent num den) 1) as [t|] eqn:E.
    + rewrite (shortest_reads _ _ _ _ _ _ _ _ E). apply num_eq_refl.
    + rewrite exact_text_reads by exact V. apply num_eq_refl.
Qed.

(** ** The rate, the round trip and the totals *)

(** *** The rate derived from an edited total *)

(** The first branch of [handleTotalChange]. *)
Lemma handleTotalChange_derive (value : string) (s : State) :
  isNaN (parseFloat (FormData.quantityGrams (formData s))) = false ->
  gt (parseFloat (FormData.quantityGrams (formData s))) zero = true ->
  isNaN (parseFloat value) = false ->
  handleTotalChange value s
  = setFormData
      (with_ratePerGram
         (toString (div (parseFloat value)
                        (parseFloat (FormData.quantityGrams (formData s)))))
         (formData s)) s.
Proof.
  intros Hq Hg Ht. unfold handleTotalChange. rewrite Hq, Hg, Ht. reflexivity.
Qed.

Lemma is_finite_not_NaN (x : number) : is_finite x = true -> isNaN x = false.
Proof. destruct x; try reflexivity; discriminate. Qed.

Lemma div_valid (x y : number) : valid (div x y).
Proof.
  destruct y as [sy|sy| |sy my ey].
  - destruct x; reflexivity.
  - destruct x; reflexivity.
  - destruct x; reflexivity.
  - destruct x as [sx|sx| |sx mx ex]; try reflexivity.
    eapply (div_error (S754_finite sx mx ex)); reflexivity.
Qed.

(** C2. [handleTotalChange]: when the quantity is numeric and above 0 and the
    entered total is numeric, the rate field becomes the text of
    total / quantity, which reads back as that quotient; when the entered
    total is the empty string, the rate field becomes empty; in every other
    case the state is left as it is.  The function is total, and the division
    is reached with a quantity above 0 only. *)
Theorem C2_handleTotalChange (value : string) (s : State) :
  let total := parseFloat value in
  let qty := parseFloat (FormData.quantityGrams (formData s)) in
  (isNaN qty = false -> gt qty zero = true -> isNaN total = false ->
   handleTotalChange value s
   = setFormData (with_ratePerGram (toString (div total qty)) (formData s)) s
   /\ (isNaN (div total qty) = false ->
       num_eq (parseFloat (FormData.ratePerGram
                             (formData (handleTotalChange value s))))
              (div total qty) = true))
  /\ (value = "" ->
      handleTotalChange value s
      = setFormData (with_ratePerGram "" (formData s)) s)
  /\ (value <> "" ->
      isNaN qty = true \/ gt qty zero = false \/ isNaN total = true ->
      handleTotalChange value s = s).
Proof.
  cbv zeta. split; [|split].
  - intros Hq Hg Ht. rewrite (handleTotalChange_derive value s Hq Hg Ht).
    split; [reflexivity|]. intros Hn.
    cbn [formData setFormData with_ratePerGram FormData.ratePerGram].
    apply toString_reads; [apply div_valid | exact Hn].
  - intros ->. reflexivity.
  - intros Hv H. unfold handleTotalChange.
    assert (Hc : negb (isNaN (parseFloat value))
                 && negb (isNaN (parseFloat (FormData.quantityGrams (formData s))))
                 && gt (parseFloat (FormData.quantityGrams (formData s))) zero
                 = false).
    { destruct H as [H|[H|H]]; rewrite H; simpl;
        repeat rewrite andb_false_r; reflexivity. }
    rewrite Hc. apply String.eqb_neq in Hv. rewrite Hv. reflexivity.
Qed.

Lemma C2_handleTotalChange_witness :
  FormData.ratePerGram (formData (handleTotalChange "32500" draft_5g)) = "6500"
  /\ num_eq (parseFloat (FormData.ratePerGram
                           (formData (handleTotalChange "32500" draft_5g))))
            (of_Z 6500) = true
  /\ FormData.ratePerGram (formData (handleTotalChange "" draft_0g)) = ""
  /\ handleTotalChange "325" draft_0g = draft_0g.
Proof.
  destruct (C2_handleTotalChange "32500" draft_5g) as [H1 _].
  destruct (C2_handleTotalChange "" draft_0g) as [_ [H2 _]].
  destruct (C2_handleTotalChange "325" draft_0g) as [_ [_ H3]].
  destruct (H1 eq_refl eq_refl eq_refl) as [E R].
  split; [|split; [|split]].
  - rewrite E. reflexivity.
  - exact (R eq_refl).
  - rewrite H2 by reflexivity. reflexivity.
  - apply H3; [discriminate | right; left; reflexivity].
Defined.

(** *** The round trip through the rate *)

(** The arithmetic of the round trip: the quotient [R] of [T] by [Qv] and the
    product [P] of [Qv] by [R], each rounded once. *)
Lemma round_trip_bound (T Qv R P : Q) :
  (0 < Qv -> Qv < pow2 1024 -> Qabs T <= pow2 45 ->
   Qabs (R - T / Qv) <= Qabs (T / Qv) * pow2 (-53) + pow2 (-1075) ->
   Qabs (Qv * R) < pow2 1023
   /\ (Qabs (P - Qv * R) <= Qabs (Qv * R) * pow2 (-53) + pow2 (-1075) ->
       Qabs (P - T) <= 1 # 100))%Q.
Proof.
  intros HQ HQu HT HR.
  assert (Hu : (pow2 (-53) == 1 # 9007199254740992)%Q) by reflexivity.
  assert (Ht : (pow2 1024 * pow2 (-1075) == 1 # 2251799813685248)%Q)
    by reflexivity.
  assert (Ht0 : (0 < pow2 (-1075))%Q) by apply pow2_pos.
  assert (Ht1 : (pow2 (-1075) <= 1 # 2251799813685248)%Q).
  { apply (pow2_le (-1075) (-51)). lia. }
  assert (H45 : (pow2 45 == 35184372088832)%Q) by reflexivity.
  assert (H1023 : (35184372088833 < pow2 1023)%Q).
  { apply Qlt_le_trans with (pow2 46); [reflexivity | apply pow2_le; lia]. }
  revert HR HT Ht Ht0 Ht1 HQu. rewrite Hu, H45.
  generalize (pow2 (-1075)). generalize (pow2 1024). intros B t.
  intros HR HT Ht Ht0 Ht1 HQu.
  assert (HQn : ~ (Qv == 0)%Q) by (intros E; rewrite E in HQ; discriminate).
  assert (Ea : (T / Qv * Qv == T)%Q) by (field; exact HQn).
  assert (EA : (Qabs (T / Qv) * Qv == Qabs T)%Q).
  { rewrite <- (Qabs_pos Qv) at 2 by (apply Qlt_le_weak; exact HQ).
    rewrite <- Qabs_Qmult, Ea. reflexivity. }
  pose proof (Qabs_nonneg T) as HT0.
  pose proof (Qabs_nonneg (T / Qv)) as HA0.
  revert Ea EA HR HA0. generalize (Qabs (T / Qv)). generalize (T / Qv)%Q.
  intros a A Ea EA HR HA0.
  apply Qabs_Qle_condition in HR. destruct HR as [HR1 HR2].
  assert (Hd1 : (- (Qabs T * (1 # 9007199254740992) + Qv * t) <= Qv * R - T)%Q).
  { rewrite <- EA, <- Ea.
    apply (Qmult_le_r _ _ Qv HQ) in HR1. lra. }
  assert (Hd2 : (Qv * R - T <= Qabs T * (1 # 9007199254740992) + Qv * t)%Q).
  { rewrite <- EA, <- Ea.
    apply (Qmult_le_r _ _ Qv HQ) in HR2. lra. }
  assert (HQt : (Qv * t <= 1 # 2251799813685248)%Q) by nra.
  assert (HTl : (- Qabs T <= T <= Qabs T)%Q).
  { apply Qabs_Qle_condition. apply Qle_refl. }
  assert (HQR : (Qabs (Qv * R) <= 35184372088833)%Q).
  { apply Qabs_Qle_condition. split; lra. }
  split; [lra|].
  intros HP. apply Qabs_Qle_condition in HP. destruct HP as [HP1 HP2].
  apply Qabs_Qle_condition. split; lra.
Qed.

(** With 7 g and the total 1000000000000000, the derived rate is
    142857142857142.84 and the taxable amount comes back 0.125 short; with
    0.5 g and the total 1e308 the derived rate is Infinity, and so is the
    taxable amount. *)
Lemma C3_counterexample :
  (gt (parseFloat (FormData.quantityGrams (formData draft_7g))) zero = true
   /\ isNaN (parseFloat "1000000000000000") = false
   /\ FormData.ratePerGram
        (formData (handleTotalChange "1000000000000000" draft_7g))
      = "142857142857142.84"
   /\ ~ within (1 # 100) (round_trip "1000000000000000" draft_7g)
          (parseFloat "1000000000000000"))
  /\ (gt (parseFloat (FormData.quantityGrams (formData draft_half_g))) zero
      = true
      /\ isNaN (parseFloat "1e308") = false
      /\ round_trip "1e308" draft_half_g = Infinity
      /\ ~ within (1 # 100) (round_trip "1e308" draft_half_g)
             (parseFloat "1e308")).
Proof.
  split; (split; [vm_compute; reflexivity|]);
    (split; [vm_compute; reflexivity|]);
    (split; [vm_compute; reflexivity|]).
  - intros (_ & _ & H). apply Qle_bool_iff in H. vm_compute in H.
    discriminate.
  - intros (H & _). vm_compute in H. discriminate.
Qed.

(** C3, amended. For a finite quantity above 0 and a finite total of
    magnitude [2 ^ 45] at most, whose quotient by the quantity is finite, the
    taxable amount recomputed from the quantity and the derived rate is within
    0.01 of the total. *)
Theorem C3_round_trip (value : string) (s : State) :
  let t := parseFloat value in
  let q := parseFloat (FormData.quantityGrams (formData s)) in
  let rate := div t q in
  gt q zero = true -> is_finite q = true ->
  is_finite t = true -> (Qabs (SF2Q t) <= pow2 45)%Q ->
  is_finite rate = true ->
  within (1 # 100) (round_trip value s) t.
Proof.
  intros t q rate Hg Hfq Hft Hb Hfr.
  unfold round_trip.
  rewrite handleTotalChange_derive
    by (trivial; apply is_finite_not_NaN; trivial).
  fold t q rate. unfold calculateTotals.
  cbn [formData setFormData with_ratePerGram FormData.quantityGrams
       FormData.ratePerGram taxable].
  fold q.
  set (rate' := or_number (parseFloat (toString rate)) zero).
  pose proof (parseFloat_valid (FormData.quantityGrams (formData s))) as Vq.
  fold q in Vq.
  destruct (gt_zero_finite q Hg Hfq) as (mq & eq & Eq).
  assert (Eq' : or_number q zero = q) by (rewrite Eq; reflexivity).
  rewrite Eq'.
  destruct (div_error t q false mq eq Hft Eq) as (Vrate & _ & Hd).
  fold (div t q) in Vrate. fold rate in Vrate.
  pose proof (toString_reads rate Vrate (is_finite_not_NaN _ Hfr)) as Hrt.
  assert (Hr' : valid rate' /\ is_finite rate' = true
                /\ (SF2Q rate' == SF2Q rate)%Q).
  { split; [apply or_number_valid, parseFloat_valid|].
    unfold rate'. destruct (num_eq_cases _ _ Hrt) as [->|(a & b & -> & E)].
    - split; [|apply or_number_value].
      rewrite or_number_finite by (apply is_finite_not_NaN; trivial). trivial.
    - rewrite E. split; reflexivity. }
  destruct Hr' as (Vr & Fr & Er).
  specialize (Hd Hfr). fold (div t q) in Hd. fold rate in Hd.
  destruct (mul_error q rate' Vq Vr Hfq Fr) as (_ & Hmf & Hme).
  fold (mul q rate') in Hmf, Hme.
  assert (HQ : (0 < SF2Q q)%Q).
  { rewrite Eq. cbn [SF2Q].
    apply Qmult_lt_0_compat; [|apply pow2_pos].
    apply Qmult_lt_0_compat; [reflexivity | apply inject_pos_pos]. }
  assert (HQu : (SF2Q q < pow2 1024)%Q).
  { apply Qle_lt_trans with (Qabs (SF2Q q)); [apply Qle_Qabs|].
    apply valid_bound. exact Vq. }
  rewrite Er in Hmf, Hme.
  destruct (round_trip_bound (SF2Q t) (SF2Q q) (SF2Q rate)
              (SF2Q (mul q rate')) HQ HQu Hb Hd) as [Hlt Hfin].
  split; [apply Hmf; exact Hlt|]. split; [exact Hft|].
  apply Hfin. apply Hme. apply Hmf. exact Hlt.
Qed.

Lemma C3_round_trip_witness :
  within (1 # 100) (round_trip "32500" draft_5g) (parseFloat "32500").
Proof.
  apply (C3_round_trip "32500" draft_5g); try (vm_compute; reflexivity).
  apply Qle_bool_iff. vm_compute. reflexivity.
Defined.

(** *** The totals of an accepted submission *)

Lemma Qabs_mult_le (a b A B : Q) :
  (Qabs a <= A -> Qabs b <= B -> Qabs (a * b) <= A * B)%Q.
Proof.
  intros Ha Hb. rewrite Qabs_Qmult.
  pose proof (Qabs_nonneg a). pose proof (Qabs_nonneg b).
  apply Qle_trans with (Qabs a * B)%Q.
  - rewrite !(Qmult_comm (Qabs a)). apply Qmult_le_compat_r; trivial.
  - apply Qmult_le_compat_r; trivial. apply Qle_trans with (Qabs b); trivial.
Qed.

(** The arithmetic of the totals: the taxable amount [T], the rate fraction
    [h], the tax [A] and the sum [S], each rounded once, against the exact
    [x * (1 + k)] for a product [x] of magnitude [2 ^ 42] at most and a
    fraction [k] between 0 and 1. *)
Lemma totals_bound (x k T h A S : Q) :
  (Qabs x <= pow2 42 -> 0 <= k <= 1 ->
   Qabs (T - x) <= Qabs x * pow2 (-53) + pow2 (-1075) ->
   Qabs (h - k) <= Qabs k * pow2 (-53) + pow2 (-1075) ->
   Qabs (T * h) < pow2 1023
   /\ (Qabs (A - T * h) <= Qabs (T * h) * pow2 (-53) + pow2 (-1075) ->
       Qabs (T + A) < pow2 1023
       /\ (Qabs (S - (T + A)) <= Qabs (T + A) * pow2 (-53) + pow2 (-1075) ->
           Qabs (S - x * (1 + k)) <= 1 # 200)))%Q.
Proof.
  intros Hx Hk HT Hh.
  assert (Hu : (pow2 (-53) == 1 # 9007199254740992)%Q) by reflexivity.
  assert (Ht0 : (0 < pow2 (-1075))%Q) by apply pow2_pos.
  assert (Ht1 : (pow2 (-1075) <= 1 # 1152921504606846976)%Q).
  { apply (pow2_le (-1075) (-60)). lia. }
  assert (H42 : (pow2 42 == 4398046511104)%Q) by reflexivity.
  assert (H1023 : (17592186044416 < pow2 1023)%Q).
  { apply Qlt_le_trans with (pow2 45); [reflexivity | apply pow2_le; lia]. }
  revert HT Hh Ht0 Ht1 H1023. rewrite Hu. rewrite H42 in Hx.
  generalize (pow2 (-1075)). generalize (pow2 1023). intros M t.
  intros HT Hh Ht0 Ht1 H1023.
  pose proof (Qabs_nonneg x) as Hx0.
  assert (Hka : (Qabs k <= 1)%Q) by (rewrite Qabs_pos; lra).
  pose proof (Qabs_nonneg k) as Hk0.
  clear Hu H42.
  assert (He1 : (Qabs (T - x) <= 1 # 2047)%Q).
  { clear - Hx HT Ht1. lra. }
  assert (He2 : (Qabs (h - k) <= 1 # 4503599627370496)%Q) by lra.
  pose proof (Qabs_mult_le _ _ _ _ Hx Hka) as P0.
  pose proof (Qabs_mult_le _ _ _ _ Hx He2) as P1.
  pose proof (Qabs_mult_le _ _ _ _ He1 Hka) as P2.
  pose proof (Qabs_mult_le _ _ _ _ He1 He2) as P3.
  pose proof Hx as Hx'.
  apply Qabs_Qle_condition in P0, P1, P2, P3, Hx'.
  apply Qabs_Qle_condition in HT, Hh.
  assert (HTh : (Qabs (T * h) <= 4398046511106)%Q).
  { apply Qabs_Qle_condition. split; lra. }
  split; [lra|]. intros HA.
  pose proof (Qabs_nonneg (T * h)) as HTh0.
  pose proof HTh as HTh'.
  apply Qabs_Qle_condition in HA, HTh'.
  assert (HTA : (Qabs (T + A) <= 8796093022212)%Q).
  { apply Qabs_Qle_condition. split; lra. }
  split; [lra|]. intros HS.
  pose proof (Qabs_nonneg (T + A)) as HTA0.
  pose proof HTA as HTA'.
  apply Qabs_Qle_condition in HS, HTA'.
  apply Qabs_Qle_condition. split; lra.
Qed.

Lemma numeric_value_coerced (input : string) (v : Q) :
  numeric_value input = Some v ->
  let x := or_number (parseFloat input) zero in
  valid x /\ is_finite x = true /\ (SF2Q x == v)%Q.
Proof.
  unfold numeric_value. intros H. cbv zeta.
  split; [apply or_number_valid, parseFloat_valid|].
  destruct (parseFloat input) as [a|a| |a m e]; try discriminate;
    injection H as <-; split; reflexivity.
Qed.

Lemma of_Z_100 :
  of_Z 100 = S754_finite false 7036874417766400 (-46)
  /\ (SF2Q (of_Z 100) == 100)%Q.
Proof. split; reflexivity. Qed.

(** For finite inputs whose exact taxable amount is [2 ^ 42] at most in
    magnitude and whose GST rate lies between 0 and 100, the total that
    [calculateTotals] returns is finite and within 0.005 of
    quantity * rate * (1 + gstRate / 100). *)
Lemma calculateTotals_exact (fd : FormData.t) (q r g : Q) :
  numeric_value (FormData.quantityGrams fd) = Some q ->
  numeric_value (FormData.ratePerGram fd) = Some r ->
  numeric_value (FormData.gstRate fd) = Some g ->
  (Qabs (q * r) <= pow2 42)%Q -> (0 <= g <= 100)%Q ->
  is_finite (total (calculateTotals fd)) = true
  /\ (Qabs (SF2Q (total (calculateTotals fd)) - q * r * (1 + g / 100))
      <= 1 # 200)%Q.
Proof.
  intros Hq Hr Hg Hb Hg100.
  destruct (numeric_value_coerced _ _ Hq) as (Vq & Fq & Eq).
  destruct (numeric_value_coerced _ _ Hr) as (Vr & Fr & Er).
  destruct (numeric_value_coerced _ _ Hg) as (Vg & Fg & Eg).
  unfold calculateTotals. cbn [total].
  set (Q0 := or_number (parseFloat (FormData.quantityGrams fd)) zero) in *.
  set (R0 := or_number (parseFloat (FormData.ratePerGram fd)) zero) in *.
  set (G0 := or_number (parseFloat (FormData.gstRate fd)) zero) in *.
  destruct of_Z_100 as [E100 V100].
  destruct (mul_error Q0 R0 Vq Vr Fq Fr) as (VT & FT & ET).
  destruct (div_error G0 (of_Z 100) _ _ _ Fg E100) as (Vh & Fh & Eh).
  fold (mul Q0 R0) in VT, FT, ET. fold (div G0 (of_Z 100)) in Vh, Fh, Eh.
  set (T := mul Q0 R0) in *. set (h := div G0 (of_Z 100)) in *.
  assert (Hx : (Qabs (SF2Q Q0 * SF2Q R0) <= pow2 42)%Q).
  { rewrite Eq, Er. exact Hb. }
  assert (Hk : (0 <= SF2Q G0 / SF2Q (of_Z 100) <= 1)%Q).
  { rewrite Eg, V100. destruct Hg100 as [H0 H1]. split.
    - apply Qle_shift_div_l; [reflexivity | lra].
    - apply Qle_shift_div_r; [reflexivity | lra]. }
  assert (FT' : is_finite T = true).
  { apply FT. apply Qle_lt_trans with (pow2 42); trivial. reflexivity. }
  assert (Fh' : is_finite h = true).
  { apply Fh. rewrite Qabs_pos by apply Hk.
    apply Qle_lt_trans with 1%Q; [apply Hk | reflexivity]. }
  specialize (ET FT'). specialize (Eh Fh').
  destruct (mul_error T h VT Vh FT' Fh') as (VA & FA & EA).
  fold (mul T h) in VA, FA, EA. set (A := mul T h) in *.
  destruct (totals_bound _ _ _ _ (SF2Q A) (SF2Q (add T A)) Hx Hk ET Eh)
    as (HTh & Hrest).
  assert (FA' : is_finite A = true) by (apply FA; exact HTh).
  destruct (Hrest (EA FA')) as (HTA & Hlast).
  destruct (add_error T A VT VA FT' FA') as (_ & FS & ES).
  fold (add T A) in FS, ES.
  assert (FS' : is_finite (add T A) = true) by (apply FS; exact HTA).
  split; [exact FS'|].
  specialize (Hlast (ES FS')).
  rewrite Eq, Er, Eg, V100 in Hlast. exact Hlast.
Qed.

Lemma calculateTotals_reads (fd : FormData.t) (q r g : Q) :
  reads_exactly (FormData.quantityGrams fd) q ->
  reads_exactly (FormData.ratePerGram fd) r ->
  reads_exactly (FormData.gstRate fd) g ->
  (Qabs (q * r) <= pow2 42)%Q -> (0 <= g <= 100)%Q ->
  is_finite (total (calculateTotals fd)) = true
  /\ (Qabs (SF2Q (total (calculateTotals fd)) - q * r * (1 + g / 100))
      <= 1 # 200)%Q.
Proof.
  unfold reads_exactly.
  destruct (numeric_value (FormData.quantityGrams fd)) as [q0|] eqn:Hq;
    [|contradiction].
  destruct (numeric_value (FormData.ratePerGram fd)) as [r0|] eqn:Hr;
    [|contradiction].
  destruct (numeric_value (FormData.gstRate fd)) as [g0|] eqn:Hg;
    [|contradiction].
  intros Eq Er Eg Hb Hg100. rewrite <- Eq, <- Er in Hb |- *.
  rewrite <- Eg in Hg100 |- *.
  apply calculateTotals_exact; assumption.
Qed.

Lemma draft_large_complete : ~ incomplete (formData draft_large).
Proof. intros [H|[H|H]]; discriminate. Qed.

Lemma draft_large_sufficient : ~ insufficient no_lock_10g (formData draft_large).
Proof. intros [H _]. discriminate. Qed.

(** The submission of 12345678 g at 87654321 with 3% GST is accepted, and the
    total handed to [onAdd], 1114616583045877.125, is 0.015 below
    12345678 * 87654321 * 1.03. *)
Lemma C7_counterexample :
  handleSubmit no_lock_10g "2024-05-02" "id-1" draft_large
  = (afterSubmit "2024-05-02" draft_large,
     [onAdd (invoiceOf "id-1" (formData draft_large))])
  /\ reads_exactly "12345678" 12345678
  /\ reads_exactly "87654321" 87654321
  /\ reads_exactly "3" 3
  /\ toString (Invoice.totalAmount (invoiceOf "id-1" (formData draft_large)))
     = "1114616583045877.1"
  /\ ~ (Qabs (SF2Q (Invoice.totalAmount
                      (invoiceOf "id-1" (formData draft_large)))
              - 12345678 * 87654321 * (1 + 3 / 100)) <= 1 # 100)%Q.
Proof.
  split.
  { apply handleSubmit_accepted.
    - apply no_lock_10g_unlocked.
    - apply draft_large_complete.
    - apply draft_large_sufficient. }
  split; [vm_compute; reflexivity|].
  split; [vm_compute; reflexivity|].
  split; [vm_compute; reflexivity|].
  split; [vm_compute; reflexivity|].
  intros H. apply Qle_bool_iff in H. vm_compute in H. discriminate.
Qed.

(** C7, amended. An accepted submission calls [onAdd] once, with an invoice
    that carries the identifier [generateId] returned and the totals
    [calculateTotals] computes from the draft, so that its total is the
    binary64 sum of its taxable amount and its tax; the total is within 0.005
    of quantity * rate * (1 + gstRate / 100) when the inputs are finite, the
    exact taxable amount is [2 ^ 42] at most in magnitude and the GST rate lies
    between 0 and 100; and the draft is reset to today's date, a purchase, an
    empty party name, quantity and rate, and 3% GST. *)
Theorem C7_accepted_submission (p : Props) (today newId : string) (s : State) :
  let fd := formData s in
  let r := handleSubmit p today newId s in
  (forall l, ~ violates_lock p fd l) ->
  ~ incomplete fd ->
  ~ insufficient p fd ->
  exists inv,
    snd r = [onAdd inv]
    /\ Invoice.id inv = newId
    /\ Invoice.taxableAmount inv = taxable (calculateTotals fd)
    /\ Invoice.gstAmount inv = gstAmt (calculateTotals fd)
    /\ Invoice.totalAmount inv = total (calculateTotals fd)
    /\ Invoice.totalAmount inv
       = add (Invoice.taxableAmount inv) (Invoice.gstAmount inv)
    /\ (forall q rate g : Q,
          reads_exactly (FormData.quantityGrams fd) q ->
          reads_exactly (FormData.ratePerGram fd) rate ->
          reads_exactly (FormData.gstRate fd) g ->
          (Qabs (q * rate) <= pow2 42)%Q -> (0 <= g <= 100)%Q ->
          is_finite (Invoice.totalAmount inv) = true
          /\ (Qabs (SF2Q (Invoice.totalAmount inv)
                    - q * rate * (1 + g / 100)) <= 1 # 200)%Q)
    /\ formData (fst r) = FormData.mk today PURCHASE "" "" "" "3"
    /\ error (fst r) = "".
Proof.
  cbv zeta. intros Hl Hc Hs.
  rewrite (handleSubmit_accepted _ _ _ _ Hl Hc Hs).
  exists (invoiceOf newId (formData s)). cbn [fst snd invoiceOf].
  repeat split; try reflexivity;
    apply (calculateTotals_reads (formData s) q rate g); assumption.
Qed.

Lemma C7_accepted_submission_witness :
  exists inv,
    snd (handleSubmit no_lock_10g "2024-05-02" "id-1" (sale_of "10"))
    = [onAdd inv]
    /\ Invoice.id inv = "id-1"
    /\ toString (Invoice.totalAmount inv) = "66950"
    /\ (Qabs (SF2Q (Invoice.totalAmount inv) - 10 * 6500 * (1 + 3 / 100))
        <= 1 # 200)%Q
    /\ formData (fst (handleSubmit no_lock_10g "2024-05-02" "id-1"
                        (sale_of "10")))
       = FormData.mk "2024-05-02" PURCHASE "" "" "" "3".
Proof.
  destruct (C7_accepted_submission no_lock_10g "2024-05-02" "id-1"
              (sale_of "10"))
    as (inv & H1 & H2 & _ & _ & H5 & _ & H7 & H8 & _).
  - apply no_lock_10g_unlocked.
  - apply sale_of_complete. discriminate.
  - intros [_ H]. vm_compute in H. discriminate.
  - exists inv. split; [exact H1|]. split; [exact H2|].
    split; [rewrite H5; vm_compute; reflexivity|].
    split; [|exact H8].
    apply (H7 10 6500 3)%Q; try (vm_compute; reflexivity).
    + apply Qle_bool_iff. vm_compute. reflexivity.
    + split; apply Qle_bool_iff; vm_compute; reflexivity.
Defined.

(** ** More of the component *)

(** *** The taxable total on display *)

Lemma append_truthy (a b : string) :
  truthy_string (a ++ b) = truthy_string a || truthy_string b.
Proof. destruct a; [reflexivity | reflexivity]. Qed.

Lemma sign_text_head (neg : bool) (d : Z) (r : string) :
  truthy_string (sign_text neg ++ String (digit_char d) r) = true.
Proof. destruct neg; reflexivity. Qed.

(** A Number never prints as the empty string. *)
Lemma toString_truthy (x : number) : truthy_string (toString x) = true.
Proof.
  destruct x as [s|s| |s m e]; try reflexivity; [destruct s; reflexivity|].
  cbn [toString]. unfold toString_finite.
  destruct (ratio_of m e) as [num den].
  destruct (shortest 16 (S754_finite s m e) s num den
              (decimal_exponent num den) 1) as [t|] eqn:E.
  - apply shortest_reads in E. destruct t; [discriminate | reflexivity].
  - unfold exact_text. destruct (0 <=? e).
    + destruct (string_of_Z_head (Z.pos m * 2 ^ e)) as (d & r & _ & ->).
      { apply Z.mul_nonneg_nonneg; [lia | apply Z.pow_nonneg; lia]. }
      apply sign_text_head.
    + destruct (string_of_Z_head (Z.pos m * 5 ^ (- e))) as (d & r & _ & ->).
      { apply Z.mul_nonneg_nonneg; [lia | apply Z.pow_nonneg; lia]. }
      apply sign_text_head.
Qed.

Lemma digits_of_truthy (fuel : nat) (z : Z) (acc : string) :
  truthy_string (digits_of (S fuel) z acc) = true.
Proof.
  revert z acc. induction fuel as [|f IH]; intros z acc; rewrite digits_of_S.
  - destruct (z <? 10); reflexivity.
  - destruct (z <? 10); [reflexivity | apply IH].
Qed.

Lemma toFixed_truthy (f : nat) (x : number) : truthy_string (toFixed f x) = true.
Proof.
  destruct x as [s|s| |s m e]; cbn [toFixed].
  - destruct f; reflexivity.
  - destruct s; reflexivity.
  - reflexivity.
  - destruct (ratio_of m e) as [num den].
    destruct (den * 10 ^ 21 <=? num); [apply toString_truthy|].
    cbv zeta. rewrite append_truthy.
    destruct f as [|f].
    + set (n := (2 * num * 10 ^ Z.of_nat 0 + den) / (2 * den)).
      rewrite append_truthy.
      unfold string_of_Z. rewrite digits_of_truthy.
      rewrite !orb_true_r. reflexivity.
    + rewrite append_truthy, append_truthy. cbn [truthy_string append].
      rewrite !orb_true_r. reflexivity.
Qed.

(** X1. When the quantity and the rate are numeric, the taxable total field
    shows the taxable amount of [calculateTotals], to two decimals, the sign
    of a zero quantity or rate being of no account; the field is empty
    exactly when the quantity or the rate is not numeric. *)
Theorem X1_getTaxableTotal_agrees (fd : FormData.t) :
  let qty := parseFloat (FormData.quantityGrams fd) in
  let rate := parseFloat (FormData.ratePerGram fd) in
  (isNaN qty = false -> isNaN rate = false ->
   getTaxableTotal fd = toFixed 2 (taxable (calculateTotals fd)))
  /\ (getTaxableTotal fd = "" <-> isNaN qty = true \/ isNaN rate = true).
Proof.
  cbv zeta. unfold getTaxableTotal, calculateTotals. cbn [taxable].
  set (qty := parseFloat (FormData.quantityGrams fd)).
  set (rate := parseFloat (FormData.ratePerGram fd)).
  split.
  - intros Hq Hr. rewrite Hq, Hr. cbn [negb andb].
    destruct qty as [a|a| |a m e], rate as [b|b| |b n f]; try discriminate;
      try reflexivity; try (destruct a; reflexivity);
      try (destruct b; reflexivity); destruct a, b; reflexivity.
  - split.
    + destruct (isNaN qty); [auto|]. destruct (isNaN rate); [auto|].
      cbn [negb andb]. intros H.
      pose proof (toFixed_truthy 2 (mul qty rate)) as T. rewrite H in T.
      discriminate.
    + intros [-> | ->]; [reflexivity | rewrite andb_false_r; reflexivity].
Qed.


Lemma X1_getTaxableTotal_agrees_witness :
  getTaxableTotal (formData (sale_of "10.001")) = "65006.50"
  /\ getTaxableTotal (formData (sale_of "-0")) = "0.00"
  /\ getTaxableTotal (formData draft_abc) = "".
Proof.
  destruct (X1_getTaxableTotal_agrees (formData (sale_of "10.001"))) as [H1 _].
  destruct (X1_getTaxableTotal_agrees (formData (sale_of "-0"))) as [H2 _].
  destruct (X1_getTaxableTotal_agrees (formData draft_abc)) as [_ H3].
  split; [|split].
  - rewrite (H1 eq_refl eq_refl). vm_compute. reflexivity.
  - rewrite (H2 eq_refl eq_refl). vm_compute. reflexivity.
  - apply H3. left. reflexivity.
Defined.

(** Digit strings. *)

Lemma digit_of_inv (c : ascii) (d : Z) :
  digit_of c = Some d -> 0 <= d <= 9 /\ c = digit_char d.
Proof.
  unfold digit_of, digit_char.
  destruct (Z.leb_spec 48 (Z.of_N (N_of_ascii c))) as [H1|]; [|discriminate].
  destruct (Z.leb_spec (Z.of_N (N_of_ascii c)) 57) as [H2|]; [|discriminate].
  cbn [andb]. intros [= <-]. split; [lia|].
  replace (48 + (Z.of_N (N_of_ascii c) - 48)) with (Z.of_N (N_of_ascii c))
    by lia.
  rewrite N2Z.id, ascii_N_embedding. reflexivity.
Qed.

Lemma length_append (a b : string) :
  String.length (a ++ b) = (String.length a + String.length b)%nat.
Proof. induction a as [|c a IH]; [reflexivity | cbn; rewrite IH; reflexivity]. Qed.

Lemma read_all_digits (t rest : string) (a c : Z) :
  all_digits t = true ->
  read_digits (t ++ rest) a c
  = read_digits rest (digits_value a t) (c + Z.of_nat (String.length t)).
Proof.
  revert a c. induction t as [|x t IH]; intros a c.
  - intros _. cbn [append digits_value String.length]. f_equal. lia.
  - cbn [all_digits append read_digits digits_value String.length].
    destruct (digit_of x) as [d|]; [|discriminate]. intros H.
    rewrite (IH _ _ H). f_equal. lia.
Qed.

Lemma all_digits_app (a b : string) :
  all_digits (a ++ b) = all_digits a && all_digits b.
Proof.
  induction a as [|x a IH]; [reflexivity|]. cbn [append all_digits].
  destruct (digit_of x); [exact IH | reflexivity].
Qed.

Lemma digits_value_app (a b : string) (acc : Z) :
  all_digits a = true ->
  digits_value acc (a ++ b) = digits_value (digits_value acc a) b.
Proof.
  revert acc. induction a as [|x a IH]; intros acc; [reflexivity|].
  cbn [all_digits append digits_value].
  destruct (digit_of x); [apply IH | discriminate].
Qed.

Lemma zeros_digits (j : nat) (acc : Z) :
  all_digits (zeros j) = true
  /\ digits_value acc (zeros j) = acc * 10 ^ Z.of_nat j
  /\ String.length (zeros j) = j.
Proof.
  revert acc. induction j as [|j IH]; intros acc.
  - cbn. split; [reflexivity | split; [lia | reflexivity]].
  - destruct (IH (10 * acc + 0)) as (H1 & H2 & H3).
    cbn [zeros all_digits digits_value String.length].
    change (digit_of "0") with (Some 0).
    split; [exact H1|]. split; [|rewrite H3; reflexivity].
    rewrite H2, Nat2Z.inj_succ, Z.pow_succ_r by lia. ring.
Qed.

Lemma digits_of_all (fuel : nat) (z : Z) (acc : string) :
  0 <= z -> all_digits (digits_of fuel z acc) = all_digits acc.
Proof.
  revert z acc. induction fuel as [|f IH]; intros z acc Hz; [reflexivity|].
  pose proof (Z.mod_pos_bound z 10 ltac:(lia)) as Hm.
  rewrite digits_of_S. destruct (z <? 10).
  - cbn [all_digits]. rewrite digit_of_char by lia. reflexivity.
  - rewrite IH by (apply Z.div_pos; lia). cbn [all_digits].
    rewrite digit_of_char by lia. reflexivity.
Qed.

Lemma digits_value_read (t : string) (a c : Z) :
  digits_value a t = fst (fst (read_digits t a c)).
Proof.
  revert a c. induction t as [|x t IH]; intros a c; [reflexivity|].
  cbn [digits_value read_digits]. destruct (digit_of x); [apply IH | reflexivity].
Qed.

Lemma string_of_Z_digits (z : Z) :
  0 <= z ->
  all_digits (string_of_Z z) = true /\ digits_value 0 (string_of_Z z) = z.
Proof.
  intros Hz. split; [unfold string_of_Z; rewrite digits_of_all; trivial|].
  destruct (read_string_of_Z z "" Hz) as (L & _ & Hread).
  rewrite append_nil_r in Hread.
  rewrite (digits_value_read _ 0 0), Hread. reflexivity.
Qed.

Lemma substring_split (t : string) (i : nat) :
  (i <= String.length t)%nat ->
  substring 0 i t ++ substring i (String.length t - i) t = t
  /\ String.length (substring 0 i t) = i.
Proof.
  revert i. induction t as [|c t IH]; intros i Hi.
  - cbn in Hi. replace i with 0%nat by lia. split; reflexivity.
  - destruct i as [|i].
    + cbn [substring append String.length Nat.sub]. split; [|reflexivity].
      f_equal. clear. induction t as [|d t IH]; [reflexivity|].
      cbn [String.length substring]. rewrite IH. reflexivity.
    + cbn [String.length] in Hi. destruct (IH i ltac:(lia)) as [H1 H2].
      cbn [substring append String.length Nat.sub]. rewrite H1, H2.
      split; reflexivity.
Qed.

Lemma read_digits_point (r : string) (a c : Z) :
  read_digits (String "." r) a c = (a, c, String "." r).
Proof. reflexivity. Qed.

(** A text of digits with a point before the last [f] reads as the digits
    over [10 ^ f]. *)
Lemma parseFloat_fixed (neg : bool) (ds : string) (f : nat) :
  all_digits ds = true -> (0 < f)%nat -> (S f <= String.length ds)%nat ->
  parseFloat (sign_text neg
              ++ substring 0 (String.length ds - f) ds ++ "."
              ++ substring (String.length ds - f) f ds)
  = match digits_value 0 ds with
    | Z.pos p => of_decimal neg p (- Z.of_nat f)
    | _ => S754_zero neg
    end.
Proof.
  intros Hall Hf Hk.
  set (k := String.length ds) in *. set (i := (k - f)%nat).
  destruct (substring_split ds i ltac:(unfold i, k; lia)) as [Hsplit Hlen].
  fold k in Hsplit. replace (k - i)%nat with f in Hsplit by (unfold i; lia).
  set (p1 := substring 0 i ds) in *. set (p2 := substring i f ds) in *.
  assert (Hlen2 : String.length p2 = f).
  { pose proof (length_append p1 p2) as H. rewrite Hsplit, Hlen in H.
    fold k in H. unfold i in H. lia. }
  rewrite <- Hsplit in Hall. rewrite all_digits_app in Hall.
  apply andb_true_iff in Hall. destruct Hall as [A1 A2].
  assert (Hv : digits_value (digits_value 0 p1) p2 = digits_value 0 ds).
  { rewrite <- Hsplit. symmetry. apply digits_value_app. exact A1. }
  destruct p1 as [|c r] eqn:Ep1; [cbn in Hlen; unfold i in Hlen; lia|].
  assert (Hc : exists d, 0 <= d <= 9 /\ c = digit_char d).
  { cbn [all_digits] in A1. destruct (digit_of c) as [d|] eqn:Ed; [|discriminate].
    exists d. apply digit_of_inv. exact Ed. }
  destruct Hc as (d & Hd & ->).
  destruct (digit_head_plain d (r ++ "." ++ p2) Hd) as [Hsign Hinf].
  assert (Hs : read_sign (trim_start (sign_text neg
                 ++ String (digit_char d) r ++ "." ++ p2))
               = (neg, String (digit_char d) r ++ "." ++ p2)).
  { destruct neg; cbn [sign_text append]; [reflexivity | exact Hsign]. }
  unfold parseFloat. rewrite Hs.
  change (String (digit_char d) r ++ "." ++ p2)
    with (String (digit_char d) (r ++ "." ++ p2)) at 1.
  rewrite Hinf. unfold read_decimal.
  rewrite (read_all_digits _ ("." ++ p2) 0 0 A1).
  change ("." ++ p2) with (String "." p2). rewrite read_digits_point.
  rewrite <- (append_nil_r p2) at 1.
  rewrite (read_all_digits p2 "" _ 0 A2). cbn [read_digits].
  rewrite Hv, Hlen, Hlen2.
  destruct (Z.eqb_spec (0 + Z.of_nat i) 0) as [E|_];
    [unfold i in E; lia|].
  cbn [andb read_exponent]. rewrite Z.add_0_l, Z.sub_0_l. reflexivity.
Qed.

(** [toFixed] below [10 ^ 21]. *)
Lemma toFixed_reads (f : nat) (s : bool) (m : positive) (e : Z) :
  (0 < f)%nat ->
  fst (ratio_of m e) < snd (ratio_of m e) * 10 ^ 21 ->
  parseFloat (toFixed f (S754_finite s m e))
  = match (2 * fst (ratio_of m e) * 10 ^ Z.of_nat f + snd (ratio_of m e))
          / (2 * snd (ratio_of m e)) with
    | Z.pos p => of_decimal s p (- Z.of_nat f)
    | _ => S754_zero s
    end.
Proof.
  intros Hf Hlt. cbn [toFixed].
  assert (Hpos : 0 < fst (ratio_of m e) /\ 0 < snd (ratio_of m e)).
  { unfold ratio_of. destruct (0 <=? e) eqn:He; cbn [fst snd].
    - apply Z.leb_le in He. split; [|lia].
      apply Z.mul_pos_pos; [lia | apply Z.pow_pos_nonneg; lia].
    - apply Z.leb_gt in He. split; [lia | apply Z.pow_pos_nonneg; lia]. }
  destruct (ratio_of m e) as [num den]. cbn [fst snd] in *.
  destruct (Z.leb_spec (den * 10 ^ 21) num) as [|_]; [lia|].
  cbv zeta.
  set (n := (2 * num * 10 ^ Z.of_nat f + den) / (2 * den)).
  assert (Hn : 0 <= n).
  { apply Z.div_pos; [|lia].
    assert (0 < 10 ^ Z.of_nat f) by (apply Z.pow_pos_nonneg; lia). nia. }
  destruct (string_of_Z_digits n Hn) as [A V].
  set (ds0 := string_of_Z n) in *.
  destruct (zeros_digits (S f - String.length ds0) 0) as (Z1 & Z2 & Z3).
  set (ds := zeros (S f - String.length ds0) ++ ds0).
  assert (Hall : all_digits ds = true).
  { unfold ds. rewrite all_digits_app, Z1, A. reflexivity. }
  assert (Hval : digits_value 0 ds = n).
  { unfold ds. rewrite digits_value_app, Z2 by exact Z1. exact V. }
  assert (Hlen : (S f <= String.length ds)%nat).
  { unfold ds. rewrite length_append, Z3. lia. }
  destruct f as [|f]; [lia|].
  rewrite (parseFloat_fixed s ds (S f) Hall Hf Hlen), Hval. reflexivity.
Qed.

(** The value of a text with two decimals. *)

(** The exact fraction of a finite Number. *)
Lemma ratio_of_value (m : positive) (e : Z) :
  0 < fst (ratio_of m e) /\ 0 < snd (ratio_of m e)
  /\ (inject_Z (fst (ratio_of m e)) / inject_Z (snd (ratio_of m e))
      == inject_Z (Z.pos m) * pow2 e)%Q.
Proof.
  unfold ratio_of. destruct (Z.leb_spec 0 e) as [He|He]; cbn [fst snd].
  - assert (0 < 2 ^ e) by (apply Z.pow_pos_nonneg; lia).
    split; [nia|]. split; [lia|].
    rewrite inject_Z_mult, (pow2_Z e He). change (inject_Z 1) with 1%Q.
    field.
  - assert (0 < 2 ^ (- e)) by (apply Z.pow_pos_nonneg; lia).
    split; [lia|]. split; [lia|].
    rewrite (pow2_Z (- e)) by lia.
    assert (E : (pow2 (- e) * pow2 e == 1)%Q).
    { rewrite <- pow2_add. replace (- e + e) with 0 by lia. reflexivity. }
    pose proof (pow2_pos (- e)) as Hp.
    assert (Hn : ~ (pow2 (- e) == 0)%Q) by (intros E0; rewrite E0 in Hp; discriminate).
    setoid_replace (inject_Z (Z.pos m) * pow2 e)%Q
      with (inject_Z (Z.pos m) * (pow2 (- e) * pow2 e) / pow2 (- e))%Q
      by (field; exact Hn).
    rewrite E. field. exact Hn.
Qed.

(** Rounding to a whole number of hundredths, halves upwards. *)
Lemma hundredths_error (num den : Z) :
  0 < num -> 0 < den ->
  let n := (2 * num * 10 ^ Z.of_nat 2 + den) / (2 * den) in
  0 <= n
  /\ (Qabs (inject_Z n * (1 # 100) - inject_Z num / inject_Z den)
      <= 1 # 200)%Q.
Proof.
  intros Hnum Hden n. change (10 ^ Z.of_nat 2) with 100 in n.
  pose proof (Z.div_mod (2 * num * 100 + den) (2 * den) ltac:(lia)) as Hd.
  pose proof (Z.mod_pos_bound (2 * num * 100 + den) (2 * den) ltac:(lia)) as Hm.
  fold n in Hd.
  assert (Hn : 0 <= n) by (apply Z.div_pos; lia).
  split; [exact Hn|].
  assert (H1 : 2 * den * n <= 200 * num + den) by lia.
  assert (H2 : 200 * num + den <= 2 * den * n + 2 * den) by lia.
  rewrite Zle_Qle in H1, H2. push_inject H1. push_inject H2.
  assert (HD : (0 < inject_Z den)%Q).
  { change 0%Q with (inject_Z 0). rewrite <- Zlt_Qlt. exact Hden. }
  assert (Hy : (inject_Z num / inject_Z den * inject_Z den == inject_Z num)%Q)
    by (apply Qdiv_mult_cancel; exact HD).
  generalize dependent (inject_Z num / inject_Z den)%Q. intros x Hx.
  change (inject_Z 2) with 2%Q in *. change (inject_Z 200) with 200%Q in *.
  rewrite <- Hx in H1, H2.
  apply Qabs_Qle_condition. split.
  - apply (Qmult_le_r _ _ (inject_Z den) HD). lra.
  - apply (Qmult_le_r _ _ (inject_Z den) HD). lra.
Qed.

(** The Number of [p] hundredths. *)
Lemma hundredths_value (s : bool) (p : positive) :
  let r := of_decimal s p (-2) in
  let y := (inject_Z (Z.pos p) * (1 # 100))%Q in
  valid r
  /\ ((y < pow2 1023)%Q -> is_finite r = true)
  /\ (is_finite r = true ->
      (Qabs (SF2Q r - sign_of s * y) <= y * pow2 (-53) + pow2 (-1075))%Q).
Proof.
  cbv zeta. unfold of_decimal. cbn [Z.leb Z.compare Z.opp].
  change (Z.to_pos (10 ^ 2)) with 100%positive.
  destruct (div_error (S754_finite s p 0) (S754_finite false 100 0)
              false 100%positive 0 eq_refl eq_refl) as (Hv & Hf & He).
  fold (div (S754_finite s p 0) (S754_finite false 100 0)) in Hv, Hf, He.
  set (r := div (S754_finite s p 0) (S754_finite false 100 0)) in *.
  assert (E : (SF2Q (S754_finite s p 0) / SF2Q (S754_finite false 100 0)
               == sign_of s * (inject_Z (Z.pos p) * (1 # 100)))%Q).
  { cbn [SF2Q]. fold (sign_of s). change (pow2 0) with 1%Q.
    change (inject_Z 100) with 100%Q. field. }
  pose proof (inject_pos_pos p) as Hp.
  assert (H0 : (0 <= inject_Z (Z.pos p) * (1 # 100))%Q) by lra.
  rewrite E, (Qabs_sign _ _ H0) in Hf, He.
  split; [exact Hv | split; assumption].
Qed.

Lemma Q_to_Z_le (num den : Z) (c : Z) :
  0 < den -> 0 <= c ->
  (inject_Z num / inject_Z den <= inject_Z c)%Q -> num <= c * den.
Proof.
  intros Hden Hc H.
  assert (HD : (0 < inject_Z den)%Q).
  { change 0%Q with (inject_Z 0). rewrite <- Zlt_Qlt. exact Hden. }
  apply (Qmult_le_r _ _ (inject_Z den) HD) in H.
  rewrite (Qdiv_mult_cancel _ _ HD), <- inject_Z_mult, <- Zle_Qle in H.
  exact H.
Qed.

(** [toFixed(2)] is accurate to the cent. *)
Lemma toFixed_2_error (x : number) :
  is_finite x = true -> (Qabs (SF2Q x) <= pow2 45)%Q ->
  within (1 # 100) (parseFloat (toFixed 2 x)) x.
Proof.
  intros Hfin Hb. destruct x as [s|s| |s m e]; try discriminate.
  - split; [reflexivity|]. split; [reflexivity|].
    change (SF2Q (parseFloat (toFixed 2 (S754_zero s)))) with 0%Q.
    cbn [SF2Q]. apply Qle_bool_iff. reflexivity.
  - destruct (ratio_of_value m e) as (Hnum & Hden & Eratio).
    set (X := (inject_Z (Z.pos m) * pow2 e)%Q) in *.
    assert (HX : (0 <= X)%Q).
    { unfold X. apply Qmult_le_0_compat; apply Qlt_le_weak;
        [apply inject_pos_pos | apply pow2_pos]. }
    assert (Ex : (SF2Q (S754_finite s m e) == sign_of s * X)%Q).
    { cbn [SF2Q]. fold (sign_of s). unfold X. ring. }
    rewrite Ex, (Qabs_sign _ _ HX) in Hb.
    assert (Hlt : fst (ratio_of m e) < snd (ratio_of m e) * 10 ^ 21).
    { assert (H : fst (ratio_of m e) <= 2 ^ 45 * snd (ratio_of m e)).
      { apply Q_to_Z_le; [exact Hden | lia|]. rewrite Eratio.
        change (inject_Z (2 ^ 45)) with (pow2 45). exact Hb. }
      nia. }
    rewrite (toFixed_reads 2 s m e ltac:(lia) Hlt).
    destruct (hundredths_error _ _ Hnum Hden) as [Hn Herr].
    rewrite Eratio in Herr.
    set (n := (2 * fst (ratio_of m e) * 10 ^ Z.of_nat 2 + snd (ratio_of m e))
              / (2 * snd (ratio_of m e))) in *.
    assert (H45 : (pow2 45 == 35184372088832)%Q) by reflexivity.
    rewrite H45 in Hb.
    split; [|split; [reflexivity|]].
    + destruct n as [|p|p]; try reflexivity.
      apply hundredths_value.
      apply Qabs_Qle_condition in Herr.
      apply Qlt_le_trans with (pow2 46); [|apply pow2_le; lia].
      change (pow2 46) with 70368744177664%Q. lra.
    + rewrite Ex. destruct n as [|p|p]; try lia.
      * cbn [SF2Q]. change (inject_Z 0) with 0%Q in Herr.
        apply Qabs_Qle_condition in Herr. apply Qabs_Qle_condition.
        clear H45 Eratio Ex. clearbody X.
        unfold sign_of. destruct s; lra.
      * destruct (hundredths_value s p) as (_ & Hf & He).
        cbv zeta in Hf, He.
        set (y := (inject_Z (Z.pos p) * (1 # 100))%Q) in *.
        apply Qabs_Qle_condition in Herr.
        assert (Hy : (y < pow2 1023)%Q).
        { apply Qlt_le_trans with (pow2 46); [|apply pow2_le; lia].
          change (pow2 46) with 70368744177664%Q. lra. }
        specialize (He (Hf Hy)).
        assert (Hu : (pow2 (-53) == 1 # 9007199254740992)%Q) by reflexivity.
        assert (Ht : (pow2 (-1075) <= 1 # 1000000)%Q).
        { apply Qle_trans with (pow2 (-20)); [apply pow2_le; lia|].
          apply Qle_bool_iff. reflexivity. }
        rewrite Hu in He. revert He Ht. generalize (pow2 (-1075)).
        intros t He Ht. apply Qabs_Qle_condition in He.
        change (- Z.of_nat 2) with (-2).
        clear Hf Hy Hu H45 Eratio Ex. clearbody X y.
        apply Qabs_Qle_condition. unfold sign_of in *. destruct s; lra.
Qed.

(** X2. When the quantity and the rate are numeric and their product is
    finite and of magnitude [2 ^ 45] at most, the text of the taxable total
    field, read as a Number, is within 0.01 of the product. *)
Theorem X2_getTaxableTotal_accurate (fd : FormData.t) :
  let qty := parseFloat (FormData.quantityGrams fd) in
  let rate := parseFloat (FormData.ratePerGram fd) in
  isNaN qty = false -> isNaN rate = false ->
  is_finite (mul qty rate) = true ->
  (Qabs (SF2Q (mul qty rate)) <= pow2 45)%Q ->
  within (1 # 100) (parseFloat (getTaxableTotal fd)) (mul qty rate).
Proof.
  cbv zeta. intros Hq Hr Hf Hb. unfold getTaxableTotal. rewrite Hq, Hr.
  cbn [negb andb]. apply toFixed_2_error; assumption.
Qed.


Lemma X2_getTaxableTotal_accurate_witness :
  within (1 # 100)
    (parseFloat (getTaxableTotal (formData (sale_of "10.001"))))
    (mul (parseFloat "10.001") (parseFloat "6500")).
Proof.
  apply (X2_getTaxableTotal_accurate (formData (sale_of "10.001")));
    try (vm_compute; reflexivity).
  apply Qle_bool_iff. vm_compute. reflexivity.
Defined.

(** The whole number of hundredths next to a fraction. *)
Lemma hundredths_unique (num den k : Z) :
  0 < den ->
  (Qabs (100 * (inject_Z num / inject_Z den) - inject_Z k) <= 3 # 10)%Q ->
  (2 * num * 10 ^ Z.of_nat 2 + den) / (2 * den) = k.
Proof.
  intros Hden H. change (10 ^ Z.of_nat 2) with 100.
  assert (HD : (0 < inject_Z den)%Q).
  { change 0%Q with (inject_Z 0). rewrite <- Zlt_Qlt. exact Hden. }
  assert (Hx : (inject_Z num / inject_Z den * inject_Z den == inject_Z num)%Q)
    by (apply Qdiv_mult_cancel; exact HD).
  apply Qabs_Qle_condition in H. destruct H as [Hlo Hhi].
  revert Hx Hlo Hhi. generalize (inject_Z num / inject_Z den)%Q.
  intros x Hx Hlo Hhi.
  apply (Qmult_le_r _ _ (inject_Z den) HD) in Hlo, Hhi.
  assert (H1 : 10 * (100 * num + - (k * den)) <= 3 * den).
  { rewrite Zle_Qle. rewrite !inject_Z_mult, inject_Z_plus, inject_Z_opp,
      !inject_Z_mult, <- Hx.
    change (inject_Z 10) with 10%Q. change (inject_Z 100) with 100%Q.
    change (inject_Z 3) with 3%Q. lra. }
  assert (H2 : - (3 * den) <= 10 * (100 * num + - (k * den))).
  { rewrite Zle_Qle. rewrite inject_Z_opp, !inject_Z_mult, inject_Z_plus,
      inject_Z_opp, !inject_Z_mult, <- Hx.
    change (inject_Z 10) with 10%Q. change (inject_Z 100) with 100%Q.
    change (inject_Z 3) with 3%Q. lra. }
  symmetry. apply (Z.div_unique _ _ k (2 * num * 100 + den - 2 * den * k)); lia.
Qed.

(** The arithmetic of a total that is typed and shown again: the total [T]
    read from [K], the rate [R] derived from it and the product [P] on
    display, each rounded once. *)
Lemma typed_total_bound (K T Qv R P : Q) :
  (0 < Qv -> Qv < pow2 1024 -> (1 # 100) <= K -> K <= 1000000000000 ->
   Qabs (T - K) <= K * pow2 (-53) + pow2 (-1075) ->
   Qabs (R - T / Qv) <= Qabs (T / Qv) * pow2 (-53) + pow2 (-1075) ->
   Qabs (Qv * R) < pow2 1023
   /\ (Qabs (P - Qv * R) <= Qabs (Qv * R) * pow2 (-53) + pow2 (-1075) ->
       Qabs (100 * P - 100 * K) <= 3 # 10 /\ 0 < P /\ P <= pow2 45))%Q.
Proof.
  intros HQ HQu HK1 HK2 HT HR.
  assert (Hu : (pow2 (-53) == 1 # 9007199254740992)%Q) by reflexivity.
  assert (Ht : (pow2 1024 * pow2 (-1075) == 1 # 2251799813685248)%Q)
    by reflexivity.
  assert (Ht0 : (0 < pow2 (-1075))%Q) by apply pow2_pos.
  assert (Ht1 : (pow2 (-1075) <= 1 # 2251799813685248)%Q).
  { apply (pow2_le (-1075) (-51)). lia. }
  assert (H45 : (pow2 45 == 35184372088832)%Q) by reflexivity.
  assert (H1023 : (35184372088833 < pow2 1023)%Q).
  { apply Qlt_le_trans with (pow2 46); [reflexivity | apply pow2_le; lia]. }
  revert HR HT Ht Ht0 Ht1 HQu. rewrite Hu, H45.
  generalize (pow2 (-1075)). generalize (pow2 1024). intros B t.
  intros HR HT Ht Ht0 Ht1 HQu.
  assert (HQn : ~ (Qv == 0)%Q) by (intros E; rewrite E in HQ; discriminate).
  assert (Ea : (T / Qv * Qv == T)%Q) by (field; exact HQn).
  assert (EA : (Qabs (T / Qv) * Qv == Qabs T)%Q).
  { rewrite <- (Qabs_pos Qv) at 2 by (apply Qlt_le_weak; exact HQ).
    rewrite <- Qabs_Qmult, Ea. reflexivity. }
  pose proof (Qabs_nonneg T) as HT0.
  pose proof (Qabs_nonneg (T / Qv)) as HA0.
  revert Ea EA HR HA0. generalize (Qabs (T / Qv)). generalize (T / Qv)%Q.
  intros a A Ea EA HR HA0.
  apply Qabs_Qle_condition in HR. destruct HR as [HR1 HR2].
  assert (Hd1 : (- (Qabs T * (1 # 9007199254740992) + Qv * t) <= Qv * R - T)%Q).
  { rewrite <- EA, <- Ea.
    apply (Qmult_le_r _ _ Qv HQ) in HR1. lra. }
  assert (Hd2 : (Qv * R - T <= Qabs T * (1 # 9007199254740992) + Qv * t)%Q).
  { rewrite <- EA, <- Ea.
    apply (Qmult_le_r _ _ Qv HQ) in HR2. lra. }
  assert (HQt : (Qv * t <= 1 # 2251799813685248)%Q) by nra.
  apply Qabs_Qle_condition in HT. destruct HT as [HT1 HT2].
  assert (HTa : (Qabs T <= 1000000000001)%Q).
  { apply Qabs_Qle_condition. split; lra. }
  assert (HQR : (Qabs (Qv * R) <= 1000000000002)%Q).
  { apply Qabs_Qle_condition. split; lra. }
  split; [lra|].
  intros HP. apply Qabs_Qle_condition in HP. destruct HP as [HP1 HP2].
  split; [apply Qabs_Qle_condition; split; lra|]. split; lra.
Qed.

Lemma positive_finite (x : number) :
  is_finite x = true -> (0 < SF2Q x)%Q ->
  exists m e, x = S754_finite false m e.
Proof.
  destruct x as [s|s| |s m e]; try discriminate; intros _ H;
    try (exfalso; apply (Qlt_irrefl 0 H)).
  destruct s; [|eauto]. exfalso. cbn [SF2Q] in H.
  pose proof (inject_pos_pos m). pose proof (pow2_pos e). nra.
Qed.

(** X3. For a finite quantity above 0, a total that is typed with two
    decimals at most, is above 0 and is [10 ^ 12] at most, and whose quotient
    by the quantity is finite: once [handleTotalChange] has derived the rate,
    the taxable total field shows a text that reads as the very Number
    typed. *)
Theorem X3_typed_total_shown (value : string) (s : State) (k : positive) :
  let q := parseFloat (FormData.quantityGrams (formData s)) in
  gt q zero = true -> is_finite q = true ->
  parseFloat value = hundredths k -> Z.pos k <= 10 ^ 14 ->
  is_finite (div (parseFloat value) q) = true ->
  parseFloat (getTaxableTotal (formData (handleTotalChange value s)))
  = parseFloat value.
Proof.
  intros q Hg Hfq Hk Hk14 Hfr.
  set (t := parseFloat value) in *. set (rate := div t q) in *.
  (* the total read *)
  destruct (hundredths_value false k) as (Vt & Ft & Et).
  cbv zeta in Ft, Et. fold (hundredths k) in Vt, Ft, Et. rewrite <- Hk in *.
  set (K := (inject_Z (Z.pos k) * (1 # 100))%Q) in *.
  assert (HK1 : ((1 # 100) <= K)%Q).
  { unfold K. assert (H : (inject_Z 1 <= inject_Z (Z.pos k))%Q)
      by (rewrite <- Zle_Qle; lia).
    change (inject_Z 1) with 1%Q in H. lra. }
  assert (HK2 : (K <= 1000000000000)%Q).
  { unfold K. rewrite Zle_Qle in Hk14.
    change (inject_Z (10 ^ 14)) with 100000000000000%Q in Hk14. lra. }
  assert (Hft : is_finite t = true).
  { apply Ft. apply Qle_lt_trans with (pow2 45); [|reflexivity].
    change (pow2 45) with 35184372088832%Q. lra. }
  specialize (Et Hft). rewrite sign_of_false in Et.
  (* the rate derived *)
  pose proof (parseFloat_valid (FormData.quantityGrams (formData s))) as Vq.
  fold q in Vq.
  destruct (gt_zero_finite q Hg Hfq) as (mq & eq & Eq).
  destruct (div_error t q false mq eq Hft Eq) as (Vrate & _ & Hd).
  fold (div t q) in Vrate, Hd. fold rate in Vrate, Hd. specialize (Hd Hfr).
  pose proof (toString_reads rate Vrate (is_finite_not_NaN _ Hfr)) as Hrt.
  set (rate' := parseFloat (toString rate)) in *.
  assert (Hr' : is_finite rate' = true /\ (SF2Q rate' == SF2Q rate)%Q).
  { destruct (num_eq_cases _ _ Hrt) as [->|(a & b & -> & E)].
    - split; [exact Hfr | reflexivity].
    - rewrite E. split; reflexivity. }
  destruct Hr' as (Fr & Er).
  (* the product on display *)
  rewrite handleTotalChange_derive
    by (trivial; apply is_finite_not_NaN; trivial).
  fold q t rate. unfold getTaxableTotal.
  cbn [formData setFormData with_ratePerGram FormData.quantityGrams
       FormData.ratePerGram].
  fold q rate'.
  rewrite (is_finite_not_NaN _ Hfq), (is_finite_not_NaN _ Fr).
  cbn [negb andb].
  destruct (mul_error q rate' Vq (parseFloat_valid _) Hfq Fr) as (_ & Hmf & Hme).
  fold (mul q rate') in Hmf, Hme. rewrite Er in Hmf, Hme.
  assert (HQ : (0 < SF2Q q)%Q).
  { rewrite Eq. cbn [SF2Q].
    apply Qmult_lt_0_compat; [|apply pow2_pos].
    apply Qmult_lt_0_compat; [reflexivity | apply inject_pos_pos]. }
  assert (HQu : (SF2Q q < pow2 1024)%Q).
  { apply Qle_lt_trans with (Qabs (SF2Q q)); [apply Qle_Qabs|].
    apply valid_bound. exact Vq. }
  destruct (typed_total_bound K (SF2Q t) (SF2Q q) (SF2Q rate)
              (SF2Q (mul q rate')) HQ HQu HK1 HK2 Et Hd) as [Hlt Hfin].
  specialize (Hmf Hlt). specialize (Hme Hmf).
  destruct (Hfin Hme) as (Hnear & Hpos & Hle).
  destruct (positive_finite _ Hmf Hpos) as (mP & eP & EP).
  rewrite EP in *.
  destruct (ratio_of_value mP eP) as (Hnum & Hden & Eratio).
  assert (EPq : (SF2Q (S754_finite false mP eP)
                 == inject_Z (fst (ratio_of mP eP))
                    / inject_Z (snd (ratio_of mP eP)))%Q).
  { rewrite Eratio. cbn [SF2Q]. ring. }
  assert (Hlt21 : fst (ratio_of mP eP) < snd (ratio_of mP eP) * 10 ^ 21).
  { assert (H : fst (ratio_of mP eP) <= 2 ^ 45 * snd (ratio_of mP eP)).
    { apply Q_to_Z_le; [exact Hden | lia|]. rewrite <- EPq.
      change (inject_Z (2 ^ 45)) with (pow2 45). exact Hle. }
    nia. }
  rewrite (toFixed_reads 2 false mP eP ltac:(lia) Hlt21).
  rewrite (hundredths_unique _ _ (Z.pos k) Hden).
  - symmetry. exact Hk.
  - rewrite <- EPq.
    assert (E100 : (100 * K == inject_Z (Z.pos k))%Q) by (unfold K; ring).
    rewrite <- E100. exact Hnear.
Qed.


Lemma X3_typed_total_shown_witness :
  parseFloat (getTaxableTotal (formData (handleTotalChange "1234.56" draft_7g)))
  = parseFloat "1234.56".
Proof.
  apply (X3_typed_total_shown "1234.56" draft_7g 123456);
    try (vm_compute; reflexivity).
  vm_compute. discriminate.
Defined.

(** *** The taxable total input *)

Lemma truthy_number_cases (x : number) :
  truthy_number x = false <-> isNaN x = true \/ num_eq x zero = true.
Proof.
  destruct x as [s|s| |s m e]; simpl.
  - split; [right; reflexivity | reflexivity].
  - split; [discriminate|]. intros [H|H]; [discriminate|].
    destruct s; discriminate.
  - split; [left; reflexivity | reflexivity].
  - split; [discriminate|]. intros [H|H]; [discriminate|].
    destruct s; discriminate.
Qed.

(** X4. The taxable total input is disabled exactly when the quantity is not
    numeric or is zero.  It is enabled for every quantity above 0; where it is
    disabled [handleTotalChange] would ignore a total that is not empty; and
    for a quantity below 0 it is enabled though [handleTotalChange] ignores
    every total that is not empty. *)
Theorem X4_total_input (value : string) (s : State) :
  let qty := parseFloat (FormData.quantityGrams (formData s)) in
  (totalDisabled s = true <-> isNaN qty = true \/ num_eq qty zero = true)
  /\ (gt qty zero = true -> totalDisabled s = false)
  /\ (totalDisabled s = true -> value <> "" -> handleTotalChange value s = s)
  /\ (gt zero qty = true ->
      totalDisabled s = false
      /\ (value <> "" -> handleTotalChange value s = s)).
Proof.
  cbv zeta. unfold totalDisabled.
  set (qty := parseFloat (FormData.quantityGrams (formData s))).
  assert (Hnoop : gt qty zero = false -> value <> "" ->
                  handleTotalChange value s = s).
  { intros Hg Hv. unfold handleTotalChange. fold qty. rewrite Hg.
    rewrite !andb_false_r. apply String.eqb_neq in Hv. rewrite Hv.
    reflexivity. }
  split; [|split; [|split]].
  - rewrite negb_true_iff. apply truthy_number_cases.
  - destruct qty as [a|a| |a m e]; try destruct a; simpl; intros;
      try discriminate; reflexivity.
  - rewrite negb_true_iff. intros Hd. apply Hnoop.
    destruct qty as [a|a| |a m e]; try destruct a; simpl in *;
      try discriminate; reflexivity.
  - intros Hneg. split.
    + destruct qty as [a|a| |a m e]; try destruct a; simpl in *;
        try discriminate; reflexivity.
    + apply Hnoop.
      destruct qty as [a|a| |a m e]; try destruct a; simpl in *;
        try discriminate; reflexivity.
Qed.


Lemma X4_total_input_witness :
  totalDisabled draft_0g = true
  /\ handleTotalChange "325" draft_0g = draft_0g
  /\ totalDisabled draft_5g = false
  /\ totalDisabled (sale_of "-5") = false
  /\ handleTotalChange "325" (sale_of "-5") = sale_of "-5".
Proof.
  destruct (X4_total_input "325" draft_0g) as (H1 & _ & H3 & _).
  destruct (X4_total_input "325" draft_5g) as (_ & H2 & _).
  destruct (X4_total_input "325" (sale_of "-5")) as (_ & _ & _ & H4).
  destruct (H4 eq_refl) as [H5 H6].
  split; [apply H1; right; reflexivity|].
  split; [apply H3; [apply H1; right; reflexivity | discriminate]|].
  split; [apply H2; reflexivity|].
  split; [exact H5 | apply H6; discriminate].
Defined.

(** *** fileToBase64 *)

Lemma split_plain (sep : ascii) (s : string) :
  has_char sep s = false -> split sep s = [s].
Proof.
  induction s as [|c r IH]; [reflexivity|]. cbn [has_char split].
  destruct (Ascii.eqb c sep); [discriminate|]. cbn [orb]. intros H.
  rewrite (IH H). reflexivity.
Qed.

Lemma split_app (sep : ascii) (a b : string) :
  has_char sep a = false ->
  split sep (a ++ String sep b) = a :: split sep b.
Proof.
  induction a as [|c r IH]; cbn [has_char split append].
  - intros _. rewrite Ascii.eqb_refl. reflexivity.
  - destruct (Ascii.eqb c sep); [discriminate|]. cbn [orb]. intros H.
    rewrite (IH H). reflexivity.
Qed.

(** X5. [fileToBase64] resolves with the payload of a data URL, the text
    after its comma, when neither the part before the comma nor the payload
    holds a comma; with [undefined] when the result of the reader holds no
    comma; and it rejects with the error of the reader. *)
Theorem X5_fileToBase64 (E : Type) :
  (forall prefix payload : string,
     has_char "," prefix = false -> has_char "," payload = false ->
     fileToBase64 (E := E) (inl (prefix ++ "," ++ payload))
     = inl (Some payload))
  /\ (forall result : string,
        has_char "," result = false ->
        fileToBase64 (E := E) (inl result) = inl None)
  /\ (forall error : E, fileToBase64 (inr error) = inr error).
Proof.
  split; [|split].
  - intros prefix payload Hp Hq. unfold fileToBase64.
    change ("," ++ payload) with (String "," payload).
    rewrite (split_app _ _ _ Hp), (split_plain _ _ Hq). reflexivity.
  - intros result H. unfold fileToBase64. rewrite (split_plain _ _ H).
    reflexivity.
  - reflexivity.
Qed.


Lemma X5_fileToBase64_witness :
  fileToBase64 (E := unit) (inl "data:application/pdf;base64,JVBERi0xLjQK")
  = inl (Some "JVBERi0xLjQK")
  /\ fileToBase64 (E := unit) (inl "JVBERi0xLjQK") = inl None.
Proof.
  destruct (X5_fileToBase64 unit) as (H1 & H2 & _). split.
  - apply (H1 "data:application/pdf;base64" "JVBERi0xLjQK"); reflexivity.
  - apply H2. reflexivity.
Defined.

(** *** The staged input along a run *)

(** Frames of the handlers on the staged input. *)
Lemma handleSubmit_staged (p : Props) (today newId : string) (s : State) :
  (ocrText (fst (handleSubmit p today newId s)) = ocrText s
   /\ selectedFile (fst (handleSubmit p today newId s)) = selectedFile s)
  \/ (ocrText (fst (handleSubmit p today newId s)) = ""
      /\ selectedFile (fst (handleSubmit p today newId s)) = None).
Proof.
  unfold handleSubmit.
  destruct (locked _ _); [left; split; reflexivity|].
  destruct (negb _ || negb _ || negb _); [left; split; reflexivity|].
  destruct (is_SALE _ && gt _ _); [left | right]; split; reflexivity.
Qed.

Lemma handleTotalChange_staged (v : string) (s : State) :
  ocrText (handleTotalChange v s) = ocrText s
  /\ selectedFile (handleTotalChange v s) = selectedFile s.
Proof.
  unfold handleTotalChange.
  destruct (negb _ && negb _ && gt _ _); [split; reflexivity|].
  destruct (String.eqb v ""); split; reflexivity.
Qed.

Lemma editForm_state (f : FormData.t -> FormData.t) (c c' : Config) :
  editForm f c = Some c' ->
  ocrText (state c') = ocrText (state c)
  /\ selectedFile (state c') = selectedFile (state c)
  /\ pending c' = pending c /\ calls c' = calls c.
Proof.
  unfold editForm. destruct (is_UPLOAD (mode (state c))); [discriminate|].
  intros [= <-]. repeat split.
Qed.

Lemma In_remove_nth {A : Type} (x : A) (i : nat) (l : list A) :
  In x (remove_nth i l) -> In x l.
Proof.
  revert i. induction l as [|y l IH]; intros [|i]; cbn; auto.
  intros [<-|H]; [left; reflexivity | right; apply (IH i H)].
Qed.

Lemma handleSubmit_effects (p : Props) (today newId : string) (s : State) :
  snd (handleSubmit p today newId s) = []
  \/ exists inv, snd (handleSubmit p today newId s) = [onAdd inv].
Proof.
  unfold handleSubmit.
  destruct (locked _ _); [left; reflexivity|].
  destruct (negb _ || negb _ || negb _); [left; reflexivity|].
  destruct (is_SALE _ && gt _ _); [left; reflexivity|].
  right. eexists. reflexivity.
Qed.

Section Runs.

Variable parseInvoiceOCR : string -> option OcrResult.t.

Lemma run_preserves (P : Config -> Prop) :
  (forall c e c', step parseInvoiceOCR c e = Some c' -> P c -> P c') ->
  forall es c c', run parseInvoiceOCR c es = Some c' -> P c -> P c'.
Proof.
  intros Hstep es. induction es as [|e r IH]; intros c c'; cbn [InvoiceForm.run].
  - intros [= <-]. trivial.
  - destruct (step parseInvoiceOCR c e) as [c1|] eqn:Hs; [|discriminate].
    intros Hr Hc. apply (IH c1 c' Hr). apply (Hstep c e c1 Hs Hc).
Qed.

Lemma settle_staged (today : string) (cl : State) (o : Outcome) (s : State) :
  ocrText (fst (handleOcrProcess_settle parseInvoiceOCR today cl o s)) = ocrText s
  /\ (selectedFile (fst (handleOcrProcess_settle parseInvoiceOCR today cl o s)) = selectedFile s
      \/ selectedFile (fst (handleOcrProcess_settle parseInvoiceOCR today cl o s)) = None).
Proof.
  unfold handleOcrProcess_settle.
  destruct (tryBlock today o s) as [s1|m] eqn:Ht.
  - unfold tryBlock in Ht.
    destruct o as [m|m|m|[d|]|]; try discriminate.
    destruct (usable d); [|discriminate]. injection Ht as <-.
    split; [reflexivity | right; reflexivity].
  - unfold catchBlock.
    destruct (negb (truthy_file (selectedFile cl)) && truthy_string (ocrText cl)).
    + destruct (parseInvoiceOCR (ocrText cl)); split; try reflexivity;
        left; reflexivity.
    + destruct m; (split; [reflexivity | left; reflexivity]).
Qed.

Lemma step_exclusive (c c' : Config) (e : Event) :
  step parseInvoiceOCR c e = Some c' -> exclusive (state c) -> exclusive (state c').
Proof.
  unfold exclusive.
  destruct e; cbn [InvoiceForm.step];
    try (intros H; apply editForm_state in H;
         destruct H as (-> & -> & _); trivial).
  - intros [= <-]. trivial.
  - destruct (is_UPLOAD _); [|discriminate]. intros [= <-] H.
    destruct files; cbn; auto.
  - destruct (is_UPLOAD _ && truthy_file _); [|discriminate].
    intros [= <-] _. left. reflexivity.
  - destruct (selectedFile (state c)) eqn:Hf; cbn [truthy_file negb];
      [rewrite andb_false_r; discriminate|].
    destruct (is_UPLOAD _ && true); [|discriminate].
    intros [= <-] _. left. cbn. exact Hf.
  - destruct (is_UPLOAD _ && negb _); [|discriminate].
    unfold handleOcrProcess_start.
    destruct (blank _ && negb _); intros [= <-]; trivial.
  - destruct (nth_error (pending c) i) as [cl|]; [|discriminate].
    destruct (settle_staged today cl o (state c)) as [Ht Hf].
    destruct (handleOcrProcess_settle parseInvoiceOCR today cl o (state c)) as [s' fx].
    intros [= <-]. cbn [state fst] in *. rewrite Ht.
    destruct Hf as [-> | ->]; auto.
  - destruct (is_UPLOAD _ || totalDisabled _); [discriminate|].
    intros [= <-]. cbn [state onState].
    destruct (handleTotalChange_staged v (state c)) as [-> ->]. trivial.
  - destruct (is_UPLOAD _); [discriminate|].
    destruct (handleSubmit_staged p today newId (state c)) as [[Ht Hf]|[Ht Hf]];
      destruct (handleSubmit p today newId (state c)) as [s' fx];
      intros [= <-]; cbn [state fst] in *; rewrite Ht, Hf; auto.
Qed.

(** X6. In every configuration the rendered form can reach, a file is
    selected or a text is staged, never both; the same holds of the renders
    whose extraction call is waiting. *)
Theorem X6_file_or_text (today : string) (es : list Event) (c : Config) :
  run parseInvoiceOCR (initialConfig today) es = Some c ->
  exclusive (state c) /\ (forall cl, In cl (pending c) -> exclusive cl).
Proof.
  intros Hrun.
  apply (run_preserves
           (fun c => exclusive (state c)
                     /\ forall cl, In cl (pending c) -> exclusive cl))
    with (es := es) (c := initialConfig today); trivial.
  - clear. intros c e c' Hs [H1 H2].
    split; [apply (step_exclusive c c' e Hs H1)|].
    destruct e as [m|files| |v| |i td o|t|v|v|v|v|v|v|p td nid];
      cbn [InvoiceForm.step] in Hs;
      try (apply editForm_state in Hs; destruct Hs as (_ & _ & -> & _);
           exact H2).
    + injection Hs as <-. exact H2.
    + destruct (is_UPLOAD _); [|discriminate]. injection Hs as <-. exact H2.
    + destruct (is_UPLOAD _ && truthy_file _); [|discriminate].
      injection Hs as <-. exact H2.
    + destruct (is_UPLOAD _ && negb _); [|discriminate].
      injection Hs as <-. exact H2.
    + destruct (is_UPLOAD _ && negb _); [|discriminate].
      destruct (handleOcrProcess_start (state c)); injection Hs as <-;
        [|exact H2].
      cbn [pending]. intros cl [<-|Hin]; [exact H1 | apply H2; exact Hin].
    + destruct (nth_error (pending c) i) as [cl|]; [|discriminate].
      destruct (handleOcrProcess_settle parseInvoiceOCR td cl o (state c)) as [s' fx].
      injection Hs as <-. cbn [pending]. intros cl' Hin. apply H2.
      clear - Hin. revert i Hin. induction (pending c) as [|x l IH];
        intros [|i]; cbn; auto.
      intros [<-|Hin]; [left; reflexivity | right; apply (IH i Hin)].
    + destruct (is_UPLOAD _ || totalDisabled _); [discriminate|].
      injection Hs as <-. exact H2.
    + destruct (is_UPLOAD _); [discriminate|].
      destruct (handleSubmit p td nid (state c)) as [s' fx].
      injection Hs as <-. exact H2.
  - split; [left; reflexivity | intros cl []].
Qed.

(** X7. With no file and a text of white space only, the process button is
    enabled, and a click on it changes nothing: [handleOcrProcess] returns at
    once, no call is started and no error is shown. *)
Theorem X7_blank_text_click (c : Config) :
  mode (state c) = UPLOAD -> isProcessing (state c) = false ->
  selectedFile (state c) = None ->
  ocrText (state c) <> "" -> blank (ocrText (state c)) = true ->
  processDisabled (state c) = false /\ step parseInvoiceOCR c clickProcess = Some c.
Proof.
  intros Hm Hp Hf Ht Hb.
  assert (Hd : processDisabled (state c) = false).
  { unfold processDisabled. rewrite Hp, Hf.
    destruct (ocrText (state c)); [contradiction | reflexivity]. }
  split; [exact Hd|].
  cbn [InvoiceForm.step]. rewrite Hm, Hd. cbn [is_UPLOAD negb andb].
  unfold handleOcrProcess_start. rewrite Hb, Hf. reflexivity.
Qed.

Lemma settle_effects (today : string) (cl : State) (o : Outcome) (s : State) :
  snd (handleOcrProcess_settle parseInvoiceOCR today cl o s) = []
  \/ (snd (handleOcrProcess_settle parseInvoiceOCR today cl o s)
      = [parseInvoiceOCR_called (ocrText cl)]
      /\ selectedFile cl = None /\ ocrText cl <> "").
Proof.
  unfold handleOcrProcess_settle.
  destruct (tryBlock today o s) as [s1|m]; [left; reflexivity|].
  unfold catchBlock.
  destruct (selectedFile cl) as [f|] eqn:Hf; cbn [truthy_file negb andb];
    [destruct m; left; reflexivity|].
  destruct (ocrText cl) as [|a r] eqn:Ht; cbn [truthy_string];
    [destruct m; left; reflexivity|].
  right. destruct (parseInvoiceOCR (String a r)); repeat split; discriminate.
Qed.

Lemma step_fed (c c' : Config) (e : Event) :
  step parseInvoiceOCR c e = Some c' -> fed c -> fed c'.
Proof.
  unfold fed. intros Hs [H1 H2].
  destruct e as [m|files| |v| |i td o|t|v|v|v|v|v|v|p td nid];
    cbn [InvoiceForm.step] in Hs;
    try (apply editForm_state in Hs; destruct Hs as (_ & _ & -> & ->);
         split; assumption).
  - injection Hs as <-. split; assumption.
  - destruct (is_UPLOAD _); [|discriminate]. injection Hs as <-.
    split; assumption.
  - destruct (is_UPLOAD _ && truthy_file _); [|discriminate].
    injection Hs as <-. split; assumption.
  - destruct (is_UPLOAD _ && negb _); [|discriminate].
    injection Hs as <-. split; assumption.
  - destruct (is_UPLOAD _ && negb _); [|discriminate].
    unfold handleOcrProcess_start in Hs.
    destruct (blank (ocrText (state c))) eqn:Hb;
      destruct (selectedFile (state c)) as [f|] eqn:Hf;
      cbn [truthy_file negb andb] in Hs; injection Hs as <-;
      try (split; assumption);
      (split; [|exact H2]); cbn [pending];
      intros cl [<-|Hin]; try (apply H1; exact Hin); unfold has_input.
    + left. congruence.
    + left. congruence.
    + right. exact Hb.
  - destruct (nth_error (pending c) i) as [cl|] eqn:Hn; [|discriminate].
    pose proof (settle_effects td cl o (state c)) as Hfx.
    destruct (handleOcrProcess_settle parseInvoiceOCR td cl o (state c))
      as [s' fx].
    injection Hs as <-. cbn [pending calls snd] in *. split.
    + intros cl' Hin. apply H1. apply (In_remove_nth _ _ _ Hin).
    + intros t Hin. apply in_app_or in Hin. destruct Hin as [Hin|Hin];
        [apply H2; exact Hin|].
      destruct Hfx as [->|(-> & Hf & Ht)]; [destruct Hin|].
      destruct Hin as [[= <-]|[]].
      destruct (H1 cl (nth_error_In _ _ Hn)) as [H|H]; [contradiction | exact H].
  - destruct (is_UPLOAD _ || totalDisabled _); [discriminate|].
    injection Hs as <-. split; assumption.
  - destruct (is_UPLOAD _); [discriminate|].
    pose proof (handleSubmit_effects p td nid (state c)) as Hfx.
    destruct (handleSubmit p td nid (state c)) as [s' fx].
    injection Hs as <-. cbn [pending calls snd] in *. split; [exact H1|].
    intros t Hin. apply in_app_or in Hin. destruct Hin as [Hin|Hin];
      [apply H2; exact Hin|].
    destruct Hfx as [->|[inv ->]]; [destruct Hin|].
    destruct Hin as [H|[]]. discriminate.
Qed.

(** X8. In every configuration the rendered form can reach, each waiting
    extraction call was started with a file or with a text that is not blank,
    and the text parser has only been called with texts that are not
    blank. *)
Theorem X8_no_call_without_input (today : string) (es : list Event)
    (c : Config) :
  run parseInvoiceOCR (initialConfig today) es = Some c ->
  (forall cl, In cl (pending c) -> has_input cl)
  /\ (forall t, In (parseInvoiceOCR_called t) (calls c) -> blank t = false).
Proof.
  intros Hrun.
  apply (run_preserves fed
           (fun c0 e c1 => step_fed c0 c1 e) es (initialConfig today) c Hrun).
  split; [intros cl [] | intros t []].
Qed.

Lemma filter_onAdd_app (l r : list Effect) :
  List.length (filter is_onAdd (l ++ r))
  = (List.length (filter is_onAdd l) + List.length (filter is_onAdd r))%nat.
Proof. rewrite filter_app, length_app. reflexivity. Qed.

Lemma step_onAdd (c c' : Config) (e : Event) :
  step parseInvoiceOCR c e = Some c' ->
  (List.length (filter is_onAdd (calls c'))
   <= List.length (filter is_onAdd (calls c))
      + (if is_submit e then 1 else 0))%nat.
Proof.
  intros Hs.
  destruct e as [m|files| |v| |i td o|t|v|v|v|v|v|v|p td nid];
    cbn [InvoiceForm.step is_submit] in *;
    try (apply editForm_state in Hs; destruct Hs as (_ & _ & _ & ->); lia).
  - injection Hs as <-. cbn. lia.
  - destruct (is_UPLOAD _); [|discriminate]. injection Hs as <-. cbn. lia.
  - destruct (is_UPLOAD _ && truthy_file _); [|discriminate].
    injection Hs as <-. cbn. lia.
  - destruct (is_UPLOAD _ && negb _); [|discriminate].
    injection Hs as <-. cbn. lia.
  - destruct (is_UPLOAD _ && negb _); [|discriminate].
    destruct (handleOcrProcess_start (state c)); injection Hs as <-; cbn; lia.
  - destruct (nth_error (pending c) i) as [cl|] eqn:Hn; [|discriminate].
    pose proof (settle_effects td cl o (state c)) as Hfx.
    destruct (handleOcrProcess_settle parseInvoiceOCR td cl o (state c))
      as [s' fx].
    injection Hs as <-. cbn [calls snd] in *. rewrite filter_onAdd_app.
    destruct Hfx as [->|(-> & _)]; cbn; lia.
  - destruct (is_UPLOAD _ || totalDisabled _); [discriminate|].
    injection Hs as <-. cbn. lia.
  - destruct (is_UPLOAD _); [discriminate|].
    pose proof (handleSubmit_effects p td nid (state c)) as Hfx.
    destruct (handleSubmit p td nid (state c)) as [s' fx].
    injection Hs as <-. cbn [calls snd] in *. rewrite filter_onAdd_app.
    destruct Hfx as [->|[inv ->]]; cbn; lia.
Qed.

Lemma run_onAdd (es : list Event) (c c' : Config) :
  run parseInvoiceOCR c es = Some c' ->
  (List.length (filter is_onAdd (calls c'))
   <= List.length (filter is_onAdd (calls c))
      + List.length (filter is_submit es))%nat.
Proof.
  revert c. induction es as [|e r IH]; intros c; cbn [InvoiceForm.run].
  - intros [= <-]. cbn. lia.
  - destruct (step parseInvoiceOCR c e) as [c1|] eqn:Hs; [|discriminate].
    intros Hr. specialize (IH c1 Hr). pose proof (step_onAdd c c1 e Hs).
    cbn [filter]. destruct (is_submit e); cbn [List.length]; lia.
Qed.

(** X9. Along every run of the rendered form, [onAdd] is called at most once
    per submission: staging, extracting and the fallback parser add no
    invoice. *)
Theorem X9_one_invoice_per_submit (today : string) (es : list Event)
    (c : Config) :
  run parseInvoiceOCR (initialConfig today) es = Some c ->
  (List.length (filter is_onAdd (calls c))
   <= List.length (filter is_submit es))%nat.
Proof. intros Hrun. apply (run_onAdd es _ _ Hrun). Qed.

End Runs.


Lemma X6_file_or_text_witness :
  exists c,
    run sample_parser (initialConfig "2024-05-01")
      [clickMode UPLOAD; changeOcrText "Sold 5g"; clickProcess;
       changeFile (Some (File.mk "invoice.pdf" "application/pdf"))] = Some c
    /\ ocrText (state c) = "" /\ exclusive (state c)
    /\ (forall cl, In cl (pending c) -> exclusive cl).
Proof.
  eexists. split; [vm_compute; reflexivity|]. split; [reflexivity|].
  apply (X6_file_or_text sample_parser "2024-05-01"
           [clickMode UPLOAD; changeOcrText "Sold 5g"; clickProcess;
            changeFile (Some (File.mk "invoice.pdf" "application/pdf"))]).
  vm_compute. reflexivity.
Defined.


Lemma X7_blank_text_click_witness :
  processDisabled (state blank_text) = false
  /\ step sample_parser blank_text clickProcess = Some blank_text.
Proof.
  apply (X7_blank_text_click sample_parser blank_text); try reflexivity.
  discriminate.
Defined.


Lemma X8_no_call_without_input_witness :
  exists c,
    run sample_parser (initialConfig "2024-05-01") session = Some c
    /\ (forall cl, In cl (pending c) -> has_input cl)
    /\ (forall t, In (parseInvoiceOCR_called t) (calls c) -> blank t = false).
Proof.
  eexists. split; [vm_compute; reflexivity|].
  apply (X8_no_call_without_input sample_parser "2024-05-01" session).
  vm_compute. reflexivity.
Defined.


Lemma X9_one_invoice_per_submit_witness :
  exists c,
    run sample_parser (initialConfig "2024-05-01") session = Some c
    /\ List.length (filter is_onAdd (calls c)) = 1%nat
    /\ (List.length (filter is_onAdd (calls c))
        <= List.length (filter is_submit session))%nat.
Proof.
  eexists. split; [vm_compute; reflexivity|]. split; [reflexivity|].
  apply (X9_one_invoice_per_submit sample_parser "2024-05-01" session).
  vm_compute. reflexivity.
Defined.

(** *** The request *)

(** X10. With a file selected, the request holds the document and the
    instruction, in this order, and the mime type of the document is the type
    of the file when it has one and [application/pdf] when it has none,
    whatever the name of the file. *)
Theorem X10_request_mime (s : State) (f : File.t) (base64Data : string) :
  selectedFile s = Some f ->
  requestParts s base64Data
  = [inlineData (if truthy_string (File.type f) then File.type f
                 else "application/pdf") base64Data;
     text documentPrompt].
Proof.
  intros Hf. unfold requestParts. rewrite Hf.
  destruct (File.type f) as [|c r]; cbn [truthy_string negb andb].
  - destruct (endsWith (toLowerCase (File.name f)) ".pdf"); reflexivity.
  - reflexivity.
Qed.


Lemma X10_request_mime_witness :
  requestParts untyped_scan "iVBORw0KGgo="
  = [inlineData "application/pdf" "iVBORw0KGgo="; text documentPrompt]
  /\ requestParts staged_file "JVBERi0xLjQK"
     = [inlineData "application/pdf" "JVBERi0xLjQK"; text documentPrompt].
Proof.
  split.
  - apply (X10_request_mime untyped_scan (File.mk "scan.png" "")). reflexivity.
  - apply (X10_request_mime staged_file (File.mk "invoice.pdf" "application/pdf")).
    reflexivity.
Defined.

(** *** The text handed to JSON.parse *)

Lemma prefix_head (a : ascii) (p : string) (c : ascii) (r : string) :
  String.prefix (String a p) (String c r) = true ->
  c = a /\ String.prefix p r = true.
Proof.
  cbn [String.prefix]. destruct (ascii_dec a c) as [->|]; [auto | discriminate].
Qed.

Lemma prefix_other (a : ascii) (p : string) (c : ascii) (r : string) :
  Ascii.eqb c a = false -> String.prefix (String a p) (String c r) = false.
Proof.
  intros H. cbn [String.prefix]. destruct (ascii_dec a c) as [->|]; [|reflexivity].
  rewrite Ascii.eqb_refl in H. discriminate.
Qed.

Lemma prefix_same (a : ascii) (p r : string) :
  String.prefix (String a p) (String a r) = String.prefix p r.
Proof.
  cbn [String.prefix]. destruct (ascii_dec a a); [reflexivity | contradiction].
Qed.

Lemma prefix_nil (s : string) : String.prefix "" s = true.
Proof. destruct s; reflexivity. Qed.

Lemma dropFences_plain (t : string) :
  has_char "`" t = false -> dropFences 0 t = t.
Proof.
  induction t as [|c r IH]; [reflexivity|]. cbn [has_char].
  destruct (Ascii.eqb c "`") eqn:Ec; [discriminate|]. cbn [orb]. intros H.
  cbn [dropFences]. rewrite !(prefix_other _ _ _ _ Ec), (IH H). reflexivity.
Qed.

Lemma dropFences_closing (body : string) :
  has_char "`" body = false -> dropFences 0 (body ++ "```") = body.
Proof.
  induction body as [|c r IH]; [reflexivity|]. cbn [has_char].
  destruct (Ascii.eqb c "`") eqn:Ec; [discriminate|]. cbn [orb]. intros H.
  cbn [append dropFences]. rewrite !(prefix_other _ _ _ _ Ec), (IH H).
  reflexivity.
Qed.

Lemma dropFences_json (r : string) :
  dropFences 0 ("```json" ++ r) = dropFences 0 r.
Proof.
  cbn [append dropFences]. rewrite !prefix_same, prefix_nil. reflexivity.
Qed.

Lemma dropFences_fence (r : string) :
  String.prefix "json" r = false ->
  dropFences 0 ("```" ++ r) = dropFences 0 r.
Proof.
  intros H. cbn [append dropFences]. rewrite !prefix_same, H, prefix_nil.
  reflexivity.
Qed.

Lemma prefix_app_closing (body : string) :
  String.prefix "json" body = false ->
  String.prefix "json" (body ++ "```") = false.
Proof.
  destruct body as [|a [|b [|c [|d r]]]]; cbn [append]; cbn [String.prefix].
  - reflexivity.
  - intros _. destruct (ascii_dec "j" a); reflexivity.
  - intros _. destruct (ascii_dec "j" a); [|reflexivity].
    destruct (ascii_dec "s" b); reflexivity.
  - intros _. destruct (ascii_dec "j" a); [|reflexivity].
    destruct (ascii_dec "s" b); [|reflexivity].
    destruct (ascii_dec "o" c); reflexivity.
  - destruct (ascii_dec "j" a); [|reflexivity].
    destruct (ascii_dec "s" b); [|reflexivity].
    destruct (ascii_dec "o" c); [|reflexivity].
    destruct (ascii_dec "n" d); [|reflexivity].
    rewrite !prefix_nil. trivial.
Qed.

(** X11. For a body without a backquote, [cleanText] gives the trimmed body
    whether the response is the body in a [```json] fence, in a plain fence
    (the body then not starting with [json]) or bare; an empty or absent
    response text gives [{}]. *)
Theorem X11_cleanText_fenced (body : string) :
  has_char "`" body = false ->
  cleanText (Some ("```json" ++ body ++ "```")) = trim body
  /\ (String.prefix "json" body = false ->
      cleanText (Some ("```" ++ body ++ "```")) = trim body)
  /\ (body <> "" -> cleanText (Some body) = trim body)
  /\ cleanText (Some "") = "{}" /\ cleanText None = "{}".
Proof.
  intros H. split; [|split; [|split; [|split; reflexivity]]].
  - unfold cleanText. rewrite dropFences_json, (dropFences_closing _ H).
    reflexivity.
  - intros Hj. unfold cleanText.
    rewrite (dropFences_fence _ (prefix_app_closing _ Hj)),
      (dropFences_closing _ H).
    reflexivity.
  - intros Hn. destruct body as [|c r]; [contradiction|].
    cbn [cleanText truthy_string]. rewrite (dropFences_plain _ H). reflexivity.
Qed.


Lemma X11_cleanText_fenced_witness :
  cleanText (Some "```json
{ }
```") = "{ }"
  /\ cleanText (Some "```{ }```") = "{ }"
  /\ cleanText (Some " { } ") = "{ }".
Proof.
  destruct (X11_cleanText_fenced "
{ }
" eq_refl) as (H1 & _).
  destruct (X11_cleanText_fenced "{ }" eq_refl) as (_ & H2 & _).
  destruct (X11_cleanText_fenced " { } " eq_refl) as (_ & _ & H3 & _).
  split; [exact (eq_trans H1 eq_refl)|].
  split; [exact (eq_trans (H2 eq_refl) eq_refl)|].
  rewrite H3; [reflexivity | discriminate].
Defined.

Lemma dropFences_head (s t : string) :
  dropFences 0 s = String "`" t -> exists r, s = String "`" r.
Proof.
  destruct s as [|c r]; [discriminate|]. cbn [dropFences].
  destruct (String.prefix "```json" (String c r)) eqn:E1.
  - apply prefix_head in E1. destruct E1 as [-> _]. eauto.
  - destruct (String.prefix "```" (String c r)) eqn:E2.
    + apply prefix_head in E2. destruct E2 as [-> _]. eauto.
    + intros [= -> _]. eauto.
Qed.

Lemma dropFences_head2 (s t : string) :
  dropFences 0 s = String "`" (String "`" t) ->
  exists r, s = String "`" (String "`" r).
Proof.
  destruct s as [|c r]; [discriminate|]. cbn [dropFences].
  destruct (String.prefix "```json" (String c r)) eqn:E1.
  - apply prefix_head in E1. destruct E1 as [-> E1].
    destruct r as [|d r]; [discriminate|].
    apply prefix_head in E1. destruct E1 as [-> _]. eauto.
  - destruct (String.prefix "```" (String c r)) eqn:E2.
    + apply prefix_head in E2. destruct E2 as [-> E2].
      destruct r as [|d r]; [discriminate|].
      apply prefix_head in E2. destruct E2 as [-> _]. eauto.
    + intros [= -> H]. apply dropFences_head in H. destruct H as [r' ->]. eauto.
Qed.

Lemma prefix_two (p : string) :
  String.prefix "``" p = true -> exists t, p = String "`" (String "`" t).
Proof.
  destruct p as [|a [|b t]]; try discriminate.
  - cbn [String.prefix]. destruct (ascii_dec "`" a); discriminate.
  - intros H. apply prefix_head in H. destruct H as [-> H].
    apply prefix_head in H. destruct H as [-> _]. eauto.
Qed.

Lemma dropFences_clean (s : string) (k : nat) :
  occurs "```" (dropFences k s) = false.
Proof.
  revert k. induction s as [|c r IH]; intros k; [destruct k; reflexivity|].
  destruct k as [|k]; [|apply IH]. cbn [dropFences].
  destruct (String.prefix "```json" (String c r)) eqn:E1; [apply IH|].
  destruct (String.prefix "```" (String c r)) eqn:E2; [apply IH|].
  cbn [occurs]. rewrite IH, orb_false_r.
  destruct (String.prefix "```" (String c (dropFences 0 r))) eqn:E3; trivial.
  apply prefix_head in E3. destruct E3 as [-> E3].
  apply prefix_two in E3. destruct E3 as [t E3].
  apply dropFences_head2 in E3. destruct E3 as [r' ->].
  rewrite !prefix_same, prefix_nil in E2. discriminate.
Qed.

Lemma prefix_app (p a w : string) :
  String.prefix p a = true -> String.prefix p (a ++ w) = true.
Proof.
  revert a. induction p as [|x p IH]; intros a; [intros _; apply prefix_nil|].
  destruct a as [|y a]; [discriminate|]. intros H.
  apply prefix_head in H. destruct H as [-> H]. cbn [append].
  rewrite prefix_same. apply IH. exact H.
Qed.

Lemma occurs_app (p a w : string) :
  occurs p a = true -> occurs p (a ++ w) = true.
Proof.
  induction a as [|c a IH].
  - destruct p; [intros _; destruct w; reflexivity | discriminate].
  - cbn [occurs append]. rewrite !orb_true_iff.
    intros [H|H]; [left; apply (prefix_app _ (String c a) w H) | right; auto].
Qed.

Lemma occurs_trim_start (p s : string) :
  occurs p (trim_start s) = true -> occurs p s = true.
Proof.
  induction s as [|c r IH]; [trivial|]. cbn [trim_start].
  destruct (is_white_space c); [|trivial].
  intros H. cbn [occurs]. rewrite (IH H). apply orb_true_r.
Qed.

Lemma trim_end_split (s : string) : exists w, s = trim_end s ++ w.
Proof.
  induction s as [|c r [w IH]]; [exists ""; reflexivity|].
  cbn [trim_end]. destruct (trim_end r) as [|d t] eqn:E.
  - destruct (is_white_space c).
    + exists (String c r). reflexivity.
    + exists w. cbn [append] in *. rewrite <- IH. reflexivity.
  - exists w. cbn [append] in *. rewrite <- IH. reflexivity.
Qed.

Lemma occurs_trim (p s : string) :
  occurs p s = false -> occurs p (trim s) = false.
Proof.
  intros H. unfold trim.
  destruct (occurs p (trim_end (trim_start s))) eqn:E; trivial.
  destruct (trim_end_split (trim_start s)) as [w Hw].
  apply (occurs_app _ _ w) in E. rewrite <- Hw in E.
  apply occurs_trim_start in E. congruence.
Qed.

(** X12. Whatever the response text, the text [cleanText] hands to
    [JSON.parse] holds no fence [```]. *)
Theorem X12_cleanText_no_fence (text : option string) :
  occurs "```" (cleanText text) = false.
Proof.
  destruct text as [t|]; [|reflexivity]. unfold cleanText.
  destruct (truthy_string t); [|reflexivity].
  apply occurs_trim. apply dropFences_clean.
Qed.

(** *** The draft of a successful extraction *)

Lemma number_text_reads (v : number) (d : string) :
  valid v -> isNaN v = false ->
  num_eq (parseFloat (number_text (Some v) d)) v = true.
Proof.
  intros V Hn. unfold number_text, or_string. rewrite toString_truthy.
  apply toString_reads; assumption.
Qed.

(** X13. In the draft built from a response, the quantity, the rate and the
    GST rate read back as the Numbers of the response; a missing quantity or
    rate leaves its field empty and a missing GST rate gives 3. *)
Theorem X13_extracted_numbers (today : string) (d : Data.t) :
  let fd := formOfData today d in
  (forall q, Data.quantityGrams d = Some q -> valid q -> isNaN q = false ->
     num_eq (parseFloat (FormData.quantityGrams fd)) q = true)
  /\ (forall r, Data.ratePerGram d = Some r -> valid r -> isNaN r = false ->
        num_eq (parseFloat (FormData.ratePerGram fd)) r = true)
  /\ (forall g, Data.gstRate d = Some g -> valid g -> isNaN g = false ->
        num_eq (parseFloat (FormData.gstRate fd)) g = true)
  /\ (Data.quantityGrams d = None -> FormData.quantityGrams fd = "")
  /\ (Data.ratePerGram d = None -> FormData.ratePerGram fd = "")
  /\ (Data.gstRate d = None -> FormData.gstRate fd = "3").
Proof.
  cbv zeta. unfold formOfData.
  cbn [FormData.quantityGrams FormData.ratePerGram FormData.gstRate].
  repeat split.
  - intros q -> V Hn. apply number_text_reads; assumption.
  - intros r -> V Hn. apply number_text_reads; assumption.
  - intros g -> V Hn. apply number_text_reads; assumption.
  - intros ->. reflexivity.
  - intros ->. reflexivity.
  - intros ->. reflexivity.
Qed.


Lemma X13_extracted_numbers_witness :
  num_eq (parseFloat (FormData.quantityGrams
                        (formOfData "2024-05-01" extracted_sale)))
         (of_Z 5) = true
  /\ FormData.gstRate (formOfData "2024-05-01" extracted_sale) = "3".
Proof.
  destruct (X13_extracted_numbers "2024-05-01" extracted_sale)
    as (H1 & _ & _ & _ & _ & H6).
  split; [apply (H1 (of_Z 5)); reflexivity | apply H6; reflexivity].
Defined.

Section Drafts.

Variable parseInvoiceOCR : string -> option OcrResult.t.

Lemma settle_success (today : string) (c : State) (d : Data.t) (s : State) :
  usable d = true ->
  handleOcrProcess_settle parseInvoiceOCR today c (Parsed (Some d)) s
  = (setIsProcessing false
       (setSelectedFile None
          (setMode MANUAL (setFormData (formOfData today d) s))), []).
Proof.
  intros H. unfold handleOcrProcess_settle, tryBlock. rewrite H. reflexivity.
Qed.

(** X14. When the response holds a party name, a quantity and a rate, the
    extraction leaves the manual form, with no file selected and the busy flag
    down, and a draft that is complete: a submission that the lock and the
    stock let through hands [onAdd] an invoice with the party name, the
    quantity and the rate of the response. *)
Theorem X14_extract_then_submit (today today' newId : string) (p : Props)
    (c s : State) (d : Data.t) (name : string) (q r : number) :
  Data.partyName d = Some name -> name <> "" ->
  Data.quantityGrams d = Some q -> valid q -> isNaN q = false ->
  Data.ratePerGram d = Some r -> valid r -> isNaN r = false ->
  let s1 :=
    fst (handleOcrProcess_settle parseInvoiceOCR today c (Parsed (Some d)) s) in
  (forall l, ~ violates_lock p (formData s1) l) ->
  ~ insufficient p (formData s1) ->
  mode s1 = MANUAL /\ selectedFile s1 = None /\ isProcessing s1 = false
  /\ exists inv,
       snd (handleSubmit p today' newId s1) = [onAdd inv]
       /\ Invoice.partyName inv = name
       /\ num_eq (Invoice.quantityGrams inv) q = true
       /\ num_eq (Invoice.ratePerGram inv) r = true.
Proof.
  intros Hn Hne Hq Vq Nq Hr Vr Nr.
  assert (Hu : usable d = true).
  { unfold usable. rewrite Hn. destruct name; [contradiction | reflexivity]. }
  rewrite (settle_success today c d s Hu). cbv zeta. cbn [fst].
  set (s1 := setIsProcessing false _). intros Hl Hs.
  assert (Efd : formData s1 = formOfData today d) by reflexivity.
  assert (Hc : ~ incomplete (formData s1)).
  { rewrite Efd. unfold incomplete, formOfData.
    cbn [FormData.partyName FormData.quantityGrams FormData.ratePerGram].
    rewrite Hn, Hq, Hr. unfold or_opt_string, number_text, or_string.
    pose proof (toString_truthy q) as Tq. pose proof (toString_truthy r) as Tr.
    rewrite Tq, Tr.
    destruct name; [contradiction|]. cbn [truthy_string].
    intros [H|[H|H]]; try discriminate; rewrite H in *; discriminate. }
  split; [reflexivity|]. split; [reflexivity|]. split; [reflexivity|].
  rewrite (handleSubmit_accepted _ _ _ _ Hl Hc Hs).
  exists (invoiceOf newId (formData s1)). split; [reflexivity|].
  cbn [invoiceOf Invoice.partyName Invoice.quantityGrams Invoice.ratePerGram].
  rewrite Efd. split; [|split].
  - unfold formOfData. cbn [FormData.partyName]. rewrite Hn.
    destruct name; [contradiction | reflexivity].
  - unfold formOfData. cbn [FormData.quantityGrams]. rewrite Hq.
    apply number_text_reads; assumption.
  - unfold formOfData. cbn [FormData.ratePerGram]. rewrite Hr.
    apply number_text_reads; assumption.
Qed.

Lemma settle_fallback (today : string) (c : State) (o : Outcome) (s : State)
    (res : OcrResult.t) :
  extraction_failed o -> selectedFile c = None -> ocrText c <> "" ->
  parseInvoiceOCR (ocrText c) = Some res ->
  fst (handleOcrProcess_settle parseInvoiceOCR today c o s)
  = setIsProcessing false
      (setMode MANUAL (setFormData (formOfOcr (formData c) res) s)).
Proof.
  intros Hf Hn Ht Hp.
  destruct (tryBlock_failed today o s Hf) as [m Hm].
  unfold handleOcrProcess_settle. rewrite Hm. unfold catchBlock.
  rewrite Hn, Hp. destruct (ocrText c); [contradiction | reflexivity].
Qed.

(** X15. When the fallback parser found no quantity above 0, or no rate
    above 0, the draft it leaves cannot be confirmed as it is: a submission
    that the lock lets through is rejected for its missing fields. *)
Theorem X15_fallback_then_submit (today today' newId : string) (p : Props)
    (c s : State) (o : Outcome) (res : OcrResult.t) :
  extraction_failed o -> selectedFile c = None -> ocrText c <> "" ->
  parseInvoiceOCR (ocrText c) = Some res ->
  gt (OcrResult.quantity res) zero = false
  \/ gt (OcrResult.rate res) zero = false ->
  let s1 := fst (handleOcrProcess_settle parseInvoiceOCR today c o s) in
  (forall l, ~ violates_lock p (formData s1) l) ->
  handleSubmit p today' newId s1 = (setError missingMessage s1, []).
Proof.
  intros Hf Hn Ht Hp Hz. cbv zeta.
  rewrite (settle_fallback today c o s res Hf Hn Ht Hp).
  set (s1 := setIsProcessing false _). intros Hl.
  apply handleSubmit_incomplete; [exact Hl|].
  change (formData s1) with (formOfOcr (formData c) res).
  unfold incomplete, formOfOcr.
  cbn [FormData.partyName FormData.quantityGrams FormData.ratePerGram].
  destruct Hz as [-> | ->]; auto.
Qed.

End Drafts.


Lemma X14_extract_then_submit_witness :
  exists inv,
    snd (handleSubmit no_lock_10g "2024-05-02" "id-1"
           (fst (handleOcrProcess_settle sample_parser "2024-05-01"
                   staged_file (Parsed (Some extracted_sale))
                   (setIsProcessing true staged_file))))
    = [onAdd inv]
    /\ Invoice.partyName inv = "XYZ Jewellers"
    /\ num_eq (Invoice.quantityGrams inv) (of_Z 5) = true
    /\ num_eq (Invoice.ratePerGram inv) (of_Z 6500) = true.
Proof.
  destruct (X14_extract_then_submit sample_parser "2024-05-01" "2024-05-02"
              "id-1" no_lock_10g staged_file (setIsProcessing true staged_file)
              extracted_sale "XYZ Jewellers" (of_Z 5) (of_Z 6500))
    as (_ & _ & _ & H); try reflexivity; try discriminate.
  - apply no_lock_10g_unlocked.
  - intros [_ H]. vm_compute in H. discriminate.
  - exact H.
Defined.


Lemma X15_fallback_then_submit_witness :
  error (fst (handleSubmit no_lock_10g "2024-05-02" "id-1"
                (fst (handleOcrProcess_settle parser_without_quantity
                        "2024-05-01" staged_text
                        (ServiceError (Some "Failed to fetch"))
                        (setIsProcessing true staged_text)))))
  = "Fill all required fields.".
Proof.
  rewrite (X15_fallback_then_submit parser_without_quantity "2024-05-01"
             "2024-05-02" "id-1" no_lock_10g staged_text
             (setIsProcessing true staged_text)
             (ServiceError (Some "Failed to fetch"))
             (OcrResult.mk "" "XYZ Jewellers" zero (of_Z 6500) zero true)).
  - reflexivity.
  - exact I.
  - reflexivity.
  - discriminate.
  - reflexivity.
  - left. reflexivity.
  - apply no_lock_10g_unlocked.
Defined.

(** *** The draft of the fallback *)

Lemma num_eq_positive (a b : number) :
  num_eq a b = true -> gt b zero = true -> gt a zero = true.
Proof.
  intros H Hb. destruct (num_eq_cases _ _ H) as [->|(s & t & -> & ->)];
    [exact Hb|]. destruct t; discriminate.
Qed.

Lemma positive_text (x : number) :
  valid x ->
  let v := if gt x zero then toString x else "" in
  (if gt x zero then num_eq (parseFloat v) x = true else v = "")
  /\ (v = "" \/ gt (parseFloat v) zero = true).
Proof.
  intros V. cbv zeta. destruct (gt x zero) eqn:Hg; [|split; auto].
  assert (Hn : isNaN x = false).
  { destruct x as [a|a| |a m e]; try reflexivity. discriminate. }
  pose proof (toString_reads x V Hn) as H. split; [exact H|].
  right. apply (num_eq_positive _ _ H Hg).
Qed.

(** X16. In the draft the fallback builds, the quantity field is the text of
    the quantity the parser found when it is above 0, and then reads back as
    it, and is empty otherwise, so that it is empty or reads above 0; the same
    holds of the rate; and the date, the party name and the GST rate of the
    draft are kept where the parser found none. *)
Theorem X16_fallback_draft (fd : FormData.t) (res : OcrResult.t) :
  valid (OcrResult.quantity res) -> valid (OcrResult.rate res) ->
  let fd' := formOfOcr fd res in
  (if gt (OcrResult.quantity res) zero
   then num_eq (parseFloat (FormData.quantityGrams fd'))
               (OcrResult.quantity res) = true
   else FormData.quantityGrams fd' = "")
  /\ (if gt (OcrResult.rate res) zero
      then num_eq (parseFloat (FormData.ratePerGram fd')) (OcrResult.rate res)
           = true
      else FormData.ratePerGram fd' = "")
  /\ (FormData.quantityGrams fd' = ""
      \/ gt (parseFloat (FormData.quantityGrams fd')) zero = true)
  /\ (FormData.ratePerGram fd' = ""
      \/ gt (parseFloat (FormData.ratePerGram fd')) zero = true)
  /\ (OcrResult.date res = "" -> FormData.date fd' = FormData.date fd)
  /\ (OcrResult.partyName res = "" ->
      FormData.partyName fd' = FormData.partyName fd)
  /\ (truthy_number (OcrResult.gstRate res) = false ->
      FormData.gstRate fd' = FormData.gstRate fd).
Proof.
  intros Vq Vr. cbv zeta. unfold formOfOcr.
  cbn [FormData.date FormData.partyName FormData.quantityGrams
       FormData.ratePerGram FormData.gstRate].
  destruct (positive_text _ Vq) as [Q1 Q2].
  destruct (positive_text _ Vr) as [R1 R2].
  split; [exact Q1|]. split; [exact R1|]. split; [exact Q2|].
  split; [exact R2|].
  split; [intros ->; reflexivity|]. split; intros ->; reflexivity.
Qed.


Lemma X16_fallback_draft_witness :
  FormData.quantityGrams
    (formOfOcr (emptyForm "2024-05-01")
       (OcrResult.mk "" "XYZ Jewellers" zero (of_Z 6500) zero true)) = ""
  /\ num_eq (parseFloat (FormData.ratePerGram
               (formOfOcr (emptyForm "2024-05-01")
                  (OcrResult.mk "" "XYZ Jewellers" zero (of_Z 6500) zero true))))
            (of_Z 6500) = true.
Proof.
  destruct (X16_fallback_draft (emptyForm "2024-05-01")
              (OcrResult.mk "" "XYZ Jewellers" zero (of_Z 6500) zero true)
              eq_refl eq_refl) as (H1 & H2 & _).
  split; [exact H1 | exact H2].
Defined.

(** *** Totals *)

(** X17. When the GST rate is zero, not numeric or missing and the taxable
    amount is finite, the GST amount is zero and the total equals the taxable
    amount. *)
Theorem X17_zero_gst (fd : FormData.t) :
  truthy_number (parseFloat (FormData.gstRate fd)) = false ->
  is_finite (taxable (calculateTotals fd)) = true ->
  num_eq (gstAmt (calculateTotals fd)) zero = true
  /\ num_eq (total (calculateTotals fd)) (taxable (calculateTotals fd)) = true.
Proof.
  intros Hg. unfold calculateTotals. cbn [taxable gstAmt total].
  assert (Eg : or_number (parseFloat (FormData.gstRate fd)) zero = zero)
    by (unfold or_number; rewrite Hg; reflexivity).
  rewrite Eg.
  set (T := mul _ _). intros HT.
  destruct T as [a|a| |a m e]; try discriminate.
  - destruct a; split; reflexivity.
  - split; [destruct a; reflexivity|].
    change (div zero (of_Z 100)) with zero.
    change (mul (S754_finite a m e) zero) with (S754_zero (xorb a false)).
    cbn [add SFadd]. apply num_eq_refl.
Qed.


Lemma X17_zero_gst_witness :
  num_eq (total (calculateTotals
                   (FormData.mk "2024-05-01" SALE "XYZ" "5" "6500" "")))
         (of_Z 32500) = true.
Proof.
  exact (proj2 (X17_zero_gst
                  (FormData.mk "2024-05-01" SALE "XYZ" "5" "6500" "")
                  eq_refl eq_refl)).
Defined.

(** Rounding keeps the sign. *)
Lemma binary_round_aux_sign (mx ex : Z) (lx : location) :
  gt zero (binary_round_aux prec emax false mx ex lx) = false.
Proof.
  unfold binary_round_aux.
  destruct (shr_fexp prec emax mx ex lx) as [r1 e1].
  destruct (shr_fexp prec emax _ e1 loc_Exact) as [r2 e2].
  destruct (shr_m r2); try reflexivity.
  destruct (e2 <=? emax - prec); reflexivity.
Qed.

Lemma mul_not_negative (x y : number) :
  gt zero x = false -> gt zero y = false -> gt zero (mul x y) = false.
Proof.
  destruct x as [[|]|[|]| |[|] m e], y as [[|]|[|]| |[|] n f]; intros Hx Hy;
    try discriminate Hx; try discriminate Hy; try reflexivity.
  apply binary_round_aux_sign.
Qed.

Lemma div_not_negative (x : number) (n : positive) (f : Z) :
  gt zero x = false -> gt zero (div x (S754_finite false n f)) = false.
Proof.
  destruct x as [[|]|[|]| |[|] m e]; intros Hx;
    try discriminate Hx; try reflexivity.
  unfold div, SFdiv.
  destruct (SFdiv_core_binary prec emax (Z.pos m) e (Z.pos n) f) as [[q e'] l].
  apply binary_round_aux_sign.
Qed.

Lemma add_not_negative (x y : number) :
  gt zero x = false -> gt zero y = false -> gt zero (add x y) = false.
Proof.
  destruct x as [[|]|[|]| |[|] m e], y as [[|]|[|]| |[|] n f]; intros Hx Hy;
    try discriminate Hx; try discriminate Hy; try reflexivity.
  unfold add. cbn [SFadd cond_Zopp Z.add binary_normalize].
  unfold binary_round.
  destruct (shl_align _ _ _) as [mz ez].
  apply binary_round_aux_sign.
Qed.

Lemma or_number_not_negative (x : number) :
  gt zero x = false -> gt zero (or_number x zero) = false.
Proof. destruct x as [a|a| |a m e]; try reflexivity; trivial. Qed.

(** X18. When none of the quantity, the rate and the GST rate is below 0,
    none of the taxable amount, the GST amount and the total is below 0. *)
Theorem X18_amounts_not_negative (fd : FormData.t) :
  gt zero (parseFloat (FormData.quantityGrams fd)) = false ->
  gt zero (parseFloat (FormData.ratePerGram fd)) = false ->
  gt zero (parseFloat (FormData.gstRate fd)) = false ->
  gt zero (taxable (calculateTotals fd)) = false
  /\ gt zero (gstAmt (calculateTotals fd)) = false
  /\ gt zero (total (calculateTotals fd)) = false.
Proof.
  intros Hq Hr Hg. unfold calculateTotals. cbn [taxable gstAmt total].
  apply or_number_not_negative in Hq, Hr, Hg.
  pose proof (mul_not_negative _ _ Hq Hr) as HT.
  assert (Hh : gt zero (div (or_number (parseFloat (FormData.gstRate fd)) zero)
                          (of_Z 100)) = false).
  { destruct of_Z_100 as [-> _]. apply div_not_negative. exact Hg. }
  pose proof (mul_not_negative _ _ HT Hh) as HA.
  split; [exact HT|]. split; [exact HA|].
  apply add_not_negative; assumption.
Qed.


Lemma X18_amounts_not_negative_witness :
  gt zero (total (calculateTotals (formData (sale_of "10.001")))) = false.
Proof.
  exact (proj2 (proj2 (X18_amounts_not_negative (formData (sale_of "10.001"))
                         eq_refl eq_refl eq_refl))).
Defined.

(** *** The lock and the calendar *)

Lemma digit_char_compare (a b : Z) :
  0 <= a <= 9 -> 0 <= b <= 9 ->
  Ascii.compare (digit_char a) (digit_char b) = (a ?= b).
Proof. intros Ha Hb. each_digit a Ha; each_digit b Hb; reflexivity. Qed.

Lemma fixed_digits_compare (n : nat) (x y : Z) (s t : string) :
  0 <= x < 10 ^ Z.of_nat n -> 0 <= y < 10 ^ Z.of_nat n ->
  String.compare (fixed_digits n x ++ s) (fixed_digits n y ++ t)
  = match x ?= y with Eq => String.compare s t | c => c end.
Proof.
  revert x y. induction n as [|k IH]; intros x y Hx Hy.
  - change (10 ^ Z.of_nat 0) with 1 in *.
    replace x with 0 by lia. replace y with 0 by lia. reflexivity.
  - rewrite Nat2Z.inj_succ, Z.pow_succ_r in Hx, Hy by lia.
    assert (Hp : 0 < 10 ^ Z.of_nat k) by (apply Z.pow_pos_nonneg; lia).
    pose proof (Z.div_mod x (10 ^ Z.of_nat k) ltac:(lia)) as Ex.
    pose proof (Z.div_mod y (10 ^ Z.of_nat k) ltac:(lia)) as Ey.
    pose proof (Z.mod_pos_bound x (10 ^ Z.of_nat k) Hp) as Rx.
    pose proof (Z.mod_pos_bound y (10 ^ Z.of_nat k) Hp) as Ry.
    assert (Qx : 0 <= x / 10 ^ Z.of_nat k <= 9).
    { split; [apply Z.div_pos; lia|].
      assert (x / 10 ^ Z.of_nat k < 10); [|lia].
      apply Z.div_lt_upper_bound; lia. }
    assert (Qy : 0 <= y / 10 ^ Z.of_nat k <= 9).
    { split; [apply Z.div_pos; lia|].
      assert (y / 10 ^ Z.of_nat k < 10); [|lia].
      apply Z.div_lt_upper_bound; lia. }
    cbn [fixed_digits append String.compare].
    rewrite !(Z.mod_small (_ / _) 10) by lia.
    rewrite (digit_char_compare _ _ Qx Qy).
    specialize (IH _ _ Rx Ry).
    set (qx := x / 10 ^ Z.of_nat k) in *. set (qy := y / 10 ^ Z.of_nat k) in *.
    set (rx := x mod 10 ^ Z.of_nat k) in *.
    set (ry := y mod 10 ^ Z.of_nat k) in *.
    set (P := 10 ^ Z.of_nat k) in *.
    destruct (Z.compare_spec qx qy) as [Eq|Hlt|Hgt].
    + rewrite IH. subst qy.
      destruct (Z.compare_spec rx ry) as [Er|Hr|Hr];
        destruct (Z.compare_spec x y) as [E|H|H]; try reflexivity; exfalso; nia.
    + destruct (Z.compare_spec x y) as [E|H|H]; try reflexivity; exfalso; nia.
    + destruct (Z.compare_spec x y) as [E|H|H]; try reflexivity; exfalso; nia.
Qed.

Lemma dash_compare (a b : string) :
  String.compare ("-" ++ a) ("-" ++ b) = String.compare a b.
Proof. reflexivity. Qed.

Lemma iso_date_compare (y1 m1 d1 y2 m2 d2 : Z) :
  calendar_date y1 m1 d1 -> calendar_date y2 m2 d2 ->
  String.compare (iso_date y1 m1 d1) (iso_date y2 m2 d2)
  = (day_number y1 m1 d1 ?= day_number y2 m2 d2).
Proof.
  intros (Hy1 & Hm1 & Hd1) (Hy2 & Hm2 & Hd2). unfold iso_date, day_number.
  rewrite (fixed_digits_compare 4) by (cbn; lia).
  rewrite dash_compare, (fixed_digits_compare 2) by (cbn; lia).
  rewrite dash_compare.
  rewrite <- (append_nil_r (fixed_digits 2 d1)),
          <- (append_nil_r (fixed_digits 2 d2)).
  rewrite (fixed_digits_compare 2) by (cbn; lia).
  cbn [String.compare].
  destruct (Z.compare_spec y1 y2) as [Ey|Hy|Hy];
    destruct (Z.compare_spec m1 m2) as [Em|Hm|Hm];
    destruct (Z.compare_spec d1 d2) as [Ed|Hd|Hd];
    symmetry;
    first [ apply Z.compare_eq_iff; lia
          | apply Z.compare_lt_iff; lia
          | apply Z.compare_gt_iff; lia ].
Qed.

(** X19. For a draft date and a lock date written as [YYYY-MM-DD],
    [handleSubmit] rejects with the lock error exactly when the draft date is
    the lock date or an earlier one. *)
Theorem X19_lock_chronological (p : Props) (today newId : string) (s : State)
    (y1 m1 d1 y2 m2 d2 : Z) :
  calendar_date y1 m1 d1 -> calendar_date y2 m2 d2 ->
  FormData.date (formData s) = iso_date y1 m1 d1 ->
  lockDate p = Some (iso_date y2 m2 d2) ->
  (handleSubmit p today newId s
   = (setError (lockMessage (iso_date y2 m2 d2)) s, [])
   <-> day_number y1 m1 d1 <= day_number y2 m2 d2).
Proof.
  intros H1 H2 Hd Hl.
  pose proof (iso_date_compare _ _ _ _ _ _ H1 H2) as Hc.
  assert (Hle : str_le (iso_date y1 m1 d1) (iso_date y2 m2 d2) = true
                <-> day_number y1 m1 d1 <= day_number y2 m2 d2).
  { unfold str_le, String.leb. rewrite Hc.
    destruct (Z.compare_spec (day_number y1 m1 d1) (day_number y2 m2 d2));
      split; intros; try reflexivity; try discriminate; lia. }
  rewrite <- Hle. split.
  - intros H. unfold handleSubmit in H. rewrite Hl, Hd in H.
    unfold locked in H.
    destruct (str_le (iso_date y1 m1 d1) (iso_date y2 m2 d2)); [reflexivity|].
    rewrite andb_false_r in H. exfalso.
    destruct (negb _ || negb _ || negb _); [discriminate|].
    destruct (is_SALE _ && gt _ _); discriminate.
  - intros H. apply handleSubmit_locked.
    split; [exact Hl|]. split; [|rewrite Hd; exact H].
    unfold iso_date. cbn [fixed_digits append]. discriminate.
Qed.


Lemma X19_lock_chronological_witness :
  iso_date 2024 3 15 = "2024-03-15"
  /\ handleSubmit lock_2024_03_31 "2024-05-01" "id-1"
       (draft_of (FormData.mk "2024-03-31" SALE "XYZ" "5" "6500" "3"))
     = (setError "Date Locked! Cannot add before 2024-03-31."
          (draft_of (FormData.mk "2024-03-31" SALE "XYZ" "5" "6500" "3")), []).
Proof.
  split; [reflexivity|].
  assert (H : calendar_date 2024 3 31) by (unfold calendar_date; lia).
  apply (proj2 (X19_lock_chronological lock_2024_03_31 "2024-05-01" "id-1"
                  (draft_of (FormData.mk "2024-03-31" SALE "XYZ" "5" "6500" "3"))
                  2024 3 31 2024 3 31 H H eq_refl eq_refl)).
  unfold day_number. lia.
Defined.

(** *** Submitting twice *)

(** X20. A submission that follows an accepted one at once, on the draft the
    first has reset, is rejected with an error and calls [onAdd] no more. *)
Theorem X20_no_double_submit (p p' : Props) (today today' newId newId' : string)
    (s : State) (inv : Invoice.t) :
  snd (handleSubmit p today newId s) = [onAdd inv] ->
  snd (handleSubmit p' today' newId' (fst (handleSubmit p today newId s))) = []
  /\ error (fst (handleSubmit p' today' newId'
                   (fst (handleSubmit p today newId s)))) <> "".
Proof.
  intros H.
  assert (E : formData (fst (handleSubmit p today newId s)) = emptyForm today).
  { revert H. unfold handleSubmit.
    destruct (locked _ _); [discriminate|].
    destruct (negb _ || negb _ || negb _); [discriminate|].
    destruct (is_SALE _ && gt _ _); [discriminate|]. reflexivity. }
  generalize dependent (fst (handleSubmit p today newId s)). intros s1 E.
  unfold handleSubmit. rewrite E. cbn [emptyForm FormData.date FormData.partyName
    truthy_string negb orb].
  destruct (locked (lockDate p') today); split; try reflexivity; discriminate.
Qed.


Lemma X20_no_double_submit_witness :
  snd (handleSubmit no_lock_10g "2024-05-02" "id-2"
         (fst (handleSubmit no_lock_10g "2024-05-02" "id-1" (sale_of "10"))))
  = [].
Proof.
  destruct (X20_no_double_submit no_lock_10g no_lock_10g "2024-05-02"
              "2024-05-02" "id-1" "id-2" (sale_of "10")
              (invoiceOf "id-1" (formData (sale_of "10")))) as [H _].
  - vm_compute. reflexivity.
  - exact H.
Defined.

(** *** What a submission hands over *)

(** X21. [handleSubmit] calls [onAdd] only for a draft that passes the three
    rules: the date is after the lock date, if there is one; the party name,
    the quantity and the rate are present; and a sale is not above the stock.
    What it hands over is then the invoice of the draft. *)
Theorem X21_onAdd_only_when_valid (p : Props) (today newId : string)
    (s : State) (inv : Invoice.t) :
  In (onAdd inv) (snd (handleSubmit p today newId s)) ->
  (forall l, ~ violates_lock p (formData s) l)
  /\ ~ incomplete (formData s)
  /\ ~ insufficient p (formData s)
  /\ inv = invoiceOf newId (formData s)
  /\ Invoice.partyName inv <> "".
Proof.
  intros Hin.
  destruct (locked (lockDate p) (FormData.date (formData s))) as [l|] eqn:El.
  { apply locked_Some in El.
    rewrite (handleSubmit_locked _ today newId _ _ El) in Hin. destruct Hin. }
  pose proof (proj1 (locked_None p (formData s)) El) as Hl.
  destruct (negb (truthy_string (FormData.partyName (formData s)))
            || negb (truthy_string (FormData.quantityGrams (formData s)))
            || negb (truthy_string (FormData.ratePerGram (formData s))))
    eqn:Hc.
  { apply incomplete_test in Hc.
    rewrite (handleSubmit_incomplete _ today newId _ Hl Hc) in Hin.
    destruct Hin. }
  apply complete_test in Hc.
  destruct (is_SALE (FormData.type (formData s))
            && gt (parseFloat (FormData.quantityGrams (formData s)))
                 (currentStock p)) eqn:Hs.
  { apply insufficient_test in Hs.
    rewrite (handleSubmit_insufficient _ today newId _ Hl Hc Hs) in Hin.
    destruct Hin. }
  assert (Hn : ~ insufficient p (formData s)).
  { rewrite <- insufficient_test. congruence. }
  rewrite (handleSubmit_accepted _ today newId _ Hl Hc Hn) in Hin.
  destruct Hin as [[= <-]|[]].
  repeat split; trivial.
  cbn [invoiceOf Invoice.partyName]. intros E. apply Hc. left. exact E.
Qed.

Lemma X21_onAdd_only_when_valid_witness :
  ~ incomplete (formData (sale_of "10"))
  /\ ~ insufficient no_lock_10g (formData (sale_of "10")).
Proof.
  destruct (X21_onAdd_only_when_valid no_lock_10g "2024-05-02" "id-1"
              (sale_of "10") (invoiceOf "id-1" (formData (sale_of "10"))))
    as (_ & H1 & H2 & _).
  - vm_compute. left. reflexivity.
  - split; assumption.
Defined.

(** *** The draft when a call ends *)

Section Overwrite.

Variable parseInvoiceOCR : string -> option OcrResult.t.

(** X22. When an extraction call ends, the draft is either left as it is or
    replaced by a draft that owes nothing to the draft on display: the one of
    the response, or the one the fallback builds over the draft of the render
    that started the call.  What was typed in between is then lost. *)
Theorem X22_settled_draft (today : string) (c : State) (o : Outcome)
    (s s' : State) :
  let settled := handleOcrProcess_settle parseInvoiceOCR today c o in
  (formData (fst (settled s)) = formData s
   /\ formData (fst (settled s')) = formData s')
  \/ (formData (fst (settled s)) = formData (fst (settled s'))
      /\ mode (fst (settled s)) = MANUAL
      /\ ((exists d, o = Parsed (Some d)
                     /\ formData (fst (settled s)) = formOfData today d)
          \/ (exists res, parseInvoiceOCR (ocrText c) = Some res
                          /\ formData (fst (settled s))
                             = formOfOcr (formData c) res))).
Proof.
  cbv zeta. unfold handleOcrProcess_settle, tryBlock, catchBlock.
  destruct o as [m|m|m|[d|]|];
    try (destruct (negb (truthy_file (selectedFile c))
                   && truthy_string (ocrText c));
         [destruct (parseInvoiceOCR (ocrText c)) as [res|] eqn:Hp|];
         [right; split; [reflexivity|]; split; [reflexivity|];
          right; exists res; split; reflexivity
         | left; split; reflexivity
         | left; split; reflexivity]).
  destruct (usable d).
  - right. split; [reflexivity|]. split; [reflexivity|].
    left. exists d. split; reflexivity.
  - destruct (negb (truthy_file (selectedFile c))
              && truthy_string (ocrText c));
      [destruct (parseInvoiceOCR (ocrText c)) as [res|] eqn:Hp|];
      [right; split; [reflexivity|]; split; [reflexivity|];
       right; exists res; split; reflexivity
      | left; split; reflexivity
      | left; split; reflexivity].
Qed.

End Overwrite.

Lemma X22_settled_draft_witness :
  formData (fst (handleOcrProcess_settle sample_parser "2024-05-01"
                   staged_text (ServiceError None)
                   (setFormData (FormData.mk "2024-05-01" PURCHASE
                                   "typed meanwhile" "" "" "3")
                      (setIsProcessing true staged_text))))
  = FormData.mk "2024-05-01" SALE "XYZ Jewellers" "5" "6500" "3".
Proof.
  destruct (X22_settled_draft sample_parser "2024-05-01" staged_text
              (ServiceError None)
              (setFormData (FormData.mk "2024-05-01" PURCHASE
                              "typed meanwhile" "" "" "3")
                 (setIsProcessing true staged_text))
              (setIsProcessing true staged_text))
    as [[H _]|[H _]].
  - discriminate H.
  - rewrite H. vm_compute. reflexivity.
Defined.

(** *** The fallback of the extraction *)


Section Fallback.

Variable parseInvoiceOCR : string -> option OcrResult.t.


End Fallback.

